(** * HViT_classification: patch reshuffling, layer construction and
      re-attention, embedded from the Python sources.

    The repository contains four copies of the model code:
    - [src/model/tf/ViT_model.py]       (module [ModelTf] below),
    - [src/model/tf/functions.py]       (module [ModelTfFunctions]),
    - [src/model/pytorch/ViT_model.py]  (module [Torch]),
    - [src/hvit/tf/functions.py]        (module [Hvit]).

    Tensors are dense row-major buffers with a shape, as in both
    frameworks.  Framework primitives ([tf.reshape], [tf.split],
    [tf.image.extract_patches], [Tensor.unfold], ...) are given by their
    index equations; Python control flow and exceptions are explicit. *)

From Stdlib Require Import String.
From Stdlib Require Import List Arith Lia ZArith Bool.
Import ListNotations.

Set Implicit Arguments.

(** ** Python exceptions and the error monad *)

Inductive exn : Type :=
| AssertionError (msg : string)
| ZeroDivisionError
| TypeError
| ValueError
| IndexError
| AttributeError (attr : string)
| UnboundLocalError (var : string)
| InvalidArgumentError    (* shape errors of the tensor runtime *)
| OverflowError
| RuntimeError.

Inductive result (T : Type) : Type :=
| Ok (v : T)
| Error (e : exn).
Arguments Ok {T} v.
Arguments Error {T} e.

Definition bind {T U : Type} (c : result T) (k : T -> result U) : result U :=
  match c with
  | Ok v => k v
  | Error e => Error e
  end.

Declare Scope py_scope.
Delimit Scope py_scope with py.
Notation "x <- c ;; k" := (bind c (fun x => k))
  (at level 61, c at next level, right associativity) : py_scope.
Notation "c ;;; k" := (bind c (fun _ => k))
  (at level 61, right associativity) : py_scope.
Open Scope py_scope.

(** [assert cond, msg] *)
Definition py_assert (cond : bool) (msg : string) : result unit :=
  if cond then Ok tt else Error (AssertionError msg).

Fixpoint mapM {T U : Type} (f : T -> result U) (l : list T) : result (list U) :=
  match l with
  | [] => Ok []
  | x :: l' => y <- f x ;; ys <- mapM f l' ;; Ok (y :: ys)
  end.

(** [int(np.sqrt(n))] on a non-negative integer.  For the sizes that occur
    (far below 2^52) the double-precision root truncates to the integer
    square root. *)
Definition int_sqrt (n : nat) : nat := Nat.sqrt n.

(** ** Dense tensors *)

Definition numel (sh : list nat) : nat := fold_right Nat.mul 1 sh.

(** Row-major offset of a multi-index, and its inverse. *)
Fixpoint ravel (sh idx : list nat) : nat :=
  match sh, idx with
  | _ :: sh', i :: idx' => i * numel sh' + ravel sh' idx'
  | _, _ => 0
  end.

Fixpoint unravel (sh : list nat) (k : nat) : list nat :=
  match sh with
  | [] => []
  | _ :: sh' => (k / numel sh') :: unravel sh' (k mod numel sh')
  end.

(** List surgery on shapes and multi-indices. *)
Fixpoint set_nth (n : nat) (v : nat) (l : list nat) : list nat :=
  match n, l with
  | _, [] => []
  | 0, _ :: l' => v :: l'
  | S n', x :: l' => x :: set_nth n' v l'
  end.

Fixpoint remove_nth (n : nat) (l : list nat) : list nat :=
  match n, l with
  | _, [] => []
  | 0, _ :: l' => l'
  | S n', x :: l' => x :: remove_nth n' l'
  end.

Fixpoint insert_nth (n : nat) (v : nat) (l : list nat) : list nat :=
  match n, l with
  | 0, _ => v :: l
  | S n', [] => [v]
  | S n', x :: l' => x :: insert_nth n' v l'
  end.

Fixpoint index_of (a : nat) (l : list nat) : nat :=
  match l with
  | [] => 0
  | x :: l' => if x =? a then 0 else S (index_of a l')
  end.

Definition shape_eqb (s1 s2 : list nat) : bool :=
  if list_eq_dec Nat.eq_dec s1 s2 then true else false.

(** A negative axis counts from the end. *)
Definition norm_axis (rank : nat) (a : Z) : nat :=
  if (a <? 0)%Z then rank - Z.to_nat (- a) else Z.to_nat a.

Section Tensors.
Variable A : Type.
Variable d : A.          (* filler read at out-of-range offsets *)

Record tensor : Type := mkT { shape : list nat; data : list A }.

Definition rank (t : tensor) : nat := length (shape t).
Definition wf (t : tensor) : Prop := length (data t) = numel (shape t).

Definition get (t : tensor) (idx : list nat) : A :=
  nth (ravel (shape t) idx) (data t) d.

Definition build (sh : list nat) (f : list nat -> A) : tensor :=
  mkT sh (map (fun k => f (unravel sh k)) (seq 0 (numel sh))).

(** *** Reshaping *)

(** A requested shape; [None] stands for the [-1] placeholder. *)
Definition known_numel (spec : list (option nat)) : nat :=
  fold_right (fun o acc => match o with Some n => n * acc | None => acc end) 1 spec.

Definition count_infer (spec : list (option nat)) : nat :=
  length (filter (fun o => match o with None => true | Some _ => false end) spec).

Definition fill_infer (v : nat) (spec : list (option nat)) : list nat :=
  map (fun o => match o with Some n => n | None => v end) spec.

Definition resolve_shape (total : nat) (spec : list (option nat))
  : result (list nat) :=
  let known := known_numel spec in
  match count_infer spec with
  | 0 => if known =? total then Ok (fill_infer 0 spec)
         else Error InvalidArgumentError
  | 1 => if known =? 0 then Error InvalidArgumentError
         else if total mod known =? 0 then Ok (fill_infer (total / known) spec)
         else Error InvalidArgumentError
  | _ => Error InvalidArgumentError
  end.

(** [tf.reshape] / [torch.reshape]: same buffer, new shape. *)
Definition reshape (spec : list (option nat)) (t : tensor) : result tensor :=
  sh <- resolve_shape (numel (shape t)) spec ;;
  Ok (mkT sh (data t)).

(** [tf.squeeze(x, axis=a)]: the axis must have size 1. *)
Definition tf_squeeze (a : nat) (t : tensor) : result tensor :=
  if (a <? rank t) && (nth a (shape t) 0 =? 1)
  then Ok (mkT (remove_nth a (shape t)) (data t))
  else Error InvalidArgumentError.

(** [torch.squeeze(x, dim=a)]: a no-op when the axis is not of size 1. *)
Definition torch_squeeze (a : nat) (t : tensor) : result tensor :=
  if a <? rank t then
    Ok (if nth a (shape t) 0 =? 1
        then mkT (remove_nth a (shape t)) (data t) else t)
  else Error IndexError.

(** [torch.flatten(x, s, e)] merges the axes [s..e]. *)
Definition torch_flatten (s e : Z) (t : tensor) : result tensor :=
  let r := rank t in
  let s' := norm_axis r s in
  let e' := norm_axis r e in
  if (s' <=? e') && (e' <? r) then
    Ok (mkT (firstn s' (shape t)
             ++ [numel (firstn (S e' - s') (skipn s' (shape t)))]
             ++ skipn (S e') (shape t)) (data t))
  else Error IndexError.

(** *** Permuting axes: [tf.transpose(x, perm)] / [Tensor.permute] *)

Definition is_perm (r : nat) (perm : list nat) : bool :=
  (length perm =? r) && forallb (fun a => existsb (Nat.eqb a) perm) (seq 0 r).

Definition transpose (perm : list nat) (t : tensor) : result tensor :=
  if is_perm (rank t) perm then
    Ok (build (map (fun a => nth a (shape t) 0) perm)
          (fun idx => get t (map (fun a => nth (index_of a perm) idx 0)
                                 (seq 0 (rank t)))))
  else Error InvalidArgumentError.

(** *** Splitting, stacking, concatenating *)

(** [tf.split(x, n, axis=a)]: [n] equal pieces, [n] must divide the axis. *)
Definition split (n a : nat) (t : tensor) : result (list tensor) :=
  let len := nth a (shape t) 0 in
  if (a <? rank t) && negb (n =? 0) && (len mod n =? 0) then
    Ok (map (fun k =>
               build (set_nth a (len / n) (shape t))
                 (fun idx => get t (set_nth a (k * (len / n) + nth a idx 0) idx)))
            (seq 0 n))
  else Error InvalidArgumentError.

(** [tf.unstack(x, axis=a)] *)
Definition unstack (a : nat) (t : tensor) : result (list tensor) :=
  if a <? rank t then
    Ok (map (fun k => build (remove_nth a (shape t))
                        (fun idx => get t (insert_nth a k idx)))
            (seq 0 (nth a (shape t) 0)))
  else Error InvalidArgumentError.

Definition same_shapes (sh : list nat) (ts : list tensor) : bool :=
  forallb (fun t => shape_eqb (shape t) sh) ts.

(** [tf.stack(ts, axis=a)] / [torch.stack]: all pieces of one shape.  An
    empty list is rejected (as [torch.stack] does; the shape of a stack
    of nothing is not determined by the list). *)
Definition stack (a : nat) (ts : list tensor) : result tensor :=
  match ts with
  | [] => Error InvalidArgumentError
  | t0 :: _ =>
      if (a <=? rank t0) && same_shapes (shape t0) ts then
        Ok (build (insert_nth a (length ts) (shape t0))
              (fun idx => get (nth (nth a idx 0) ts t0) (remove_nth a idx)))
      else Error InvalidArgumentError
  end.

(** Locate offset [i] of the concatenated axis: which piece, and where. *)
Fixpoint locate (lens : list nat) (i : nat) : nat * nat :=
  match lens with
  | [] => (0, i)
  | l :: lens' =>
      if i <? l then (0, i)
      else let (k, off) := locate lens' (i - l) in (S k, off)
  end.

(** [tf.concat(ts, axis=a)]: pieces agree on every other axis. *)
Definition concat (a : nat) (ts : list tensor) : result tensor :=
  match ts with
  | [] => Error InvalidArgumentError
  | t0 :: _ =>
      let lens := map (fun t => nth a (shape t) 0) ts in
      if (a <? rank t0)
         && forallb (fun t => shape_eqb (remove_nth a (shape t))
                                        (remove_nth a (shape t0))) ts
      then
        Ok (build (set_nth a (fold_right Nat.add 0 lens) (shape t0))
              (fun idx => let (k, off) := locate lens (nth a idx 0) in
                          get (nth k ts t0) (set_nth a off idx)))
      else Error InvalidArgumentError
  end.

(** [tf.concat] with a possibly negative axis. *)
Definition tf_concat (a : Z) (ts : list tensor) : result tensor :=
  match ts with
  | [] => Error InvalidArgumentError
  | t0 :: _ => concat (norm_axis (rank t0) a) ts
  end.

(** [tf.map_fn(fn, elems)]: apply [fn] to the slices along axis 0 and
    stack the results; [elems] has at least one slice. *)
Definition map_fn (fn : tensor -> result tensor) (t : tensor) : result tensor :=
  xs <- unstack 0 t ;;
  ys <- mapM fn xs ;;
  stack 0 ys.

(** *** Windows *)

(** [tf.image.extract_patches(images, sizes=[1,p,p,1], strides=[1,p,p,1],
    rates=[1,1,1,1], padding='VALID')]: the complete, non-overlapping
    [p x p] windows, each flattened row by row with its channels. *)
Definition extract_patches (p : nat) (t : tensor) : result tensor :=
  match shape t with
  | [b; h; w; c] =>
      if p =? 0 then Error InvalidArgumentError
      else Ok (build [b; h / p; w / p; p * p * c]
                 (fun idx =>
                    match idx with
                    | [ib; i; j; v] =>
                        get t [ib; i * p + v / (p * c);
                               j * p + (v / c) mod p; v mod c]
                    | _ => d
                    end))
  | _ => Error InvalidArgumentError
  end.

(** [Tensor.unfold(dim, size, step)]: sliding windows along [dim], the
    window offset becoming a new last axis. *)
Definition unfold (dim size step : nat) (t : tensor) : result tensor :=
  let len := nth dim (shape t) 0 in
  if (dim <? rank t) && (size <=? len) && negb (step =? 0) then
    Ok (build (set_nth dim ((len - size) / step + 1) (shape t) ++ [size])
          (fun idx =>
             let body := removelast idx in
             get t (set_nth dim (nth dim body 0 * step + last idx 0) body)))
  else Error InvalidArgumentError.

End Tensors.

Arguments mkT {A} shape data.
Arguments shape {A} t.
Arguments data {A} t.

(** ** Layers acting on tensors: dense maps, embeddings, broadcasting *)

Section TensorArith.
Variable A : Type.
Variable d : A.
Variable add mul : A -> A -> A.
Variable zero : A.

(** [x * s] for a scalar [s]. *)
Definition tensor_scale (s : A) (x : tensor A) : tensor A :=
  mkT (shape x) (map (fun a => mul a s) (data x)).

(** Batched matrix product on the last two axes; with [transpose_b] the
    second operand is read transposed ([tf.linalg.matmul(.., transpose_b=True)]). *)
Definition matmul (transpose_b : bool) (x y : tensor A) : result (tensor A) :=
  let r := rank x in
  if (2 <=? r) && (rank y =? r) then
    let bs := firstn (r - 2) (shape x) in
    let n := nth (r - 2) (shape x) 0 in
    let k := nth (r - 1) (shape x) 0 in
    let yk := nth (if transpose_b then r - 1 else r - 2) (shape y) 0 in
    let m := nth (if transpose_b then r - 2 else r - 1) (shape y) 0 in
    if shape_eqb bs (firstn (r - 2) (shape y)) && (k =? yk) then
      Ok (build (bs ++ [n; m])
            (fun idx =>
               let b := firstn (r - 2) idx in
               let i := nth (r - 2) idx 0 in
               let j := nth (r - 1) idx 0 in
               fold_right
                 (fun l acc =>
                    add (mul (get d x (b ++ [i; l]))
                             (get d y (b ++ (if transpose_b then [j; l] else [l; j]))))
                        acc)
                 zero (seq 0 k)))
    else Error InvalidArgumentError
  else Error InvalidArgumentError.

(** A [Dense] / [Linear] map on the last axis:
    [out[.., u] = sum_j x[.., j] * kernel[j, u] + bias[u]]. *)
Definition affine_last (units : nat) (kernel : nat -> nat -> A) (bias : nat -> A)
           (x : tensor A) : tensor A :=
  let k := last (shape x) 0 in
  build (removelast (shape x) ++ [units])
    (fun idx =>
       let u := last idx 0 in
       fold_right (fun j acc =>
                     add (mul (get d x (removelast idx ++ [j])) (kernel j u)) acc)
                  (bias u) (seq 0 k)).

(** [tf.keras.layers.Dense(units)]: the kernel is created at the first
    call with as many rows as the input's last axis. *)
Definition keras_dense (units : nat) (kernel : nat -> nat -> A) (bias : nat -> A)
           (x : tensor A) : result (tensor A) :=
  if rank x <? 2 then Error InvalidArgumentError
  else Ok (affine_last units kernel bias x).

(** [torch.nn.Linear(in_features, out_features)]: the last axis of the
    input must have [in_features] entries. *)
Definition torch_linear (in_features out_features : nat)
           (kernel : nat -> nat -> A) (bias : nat -> A)
           (x : tensor A) : result (tensor A) :=
  if (0 <? rank x) && (last (shape x) 0 =? in_features)
  then Ok (affine_last out_features kernel bias x)
  else Error InvalidArgumentError.

(** An embedding table of [input_dim] rows and [output_dim] columns,
    looked up at a one-dimensional list of row numbers. *)
Definition embedding (input_dim output_dim : nat) (table : nat -> nat -> A)
           (positions : list nat) : result (tensor A) :=
  if forallb (fun i => i <? input_dim) positions then
    Ok (build [length positions; output_dim]
          (fun idx => table (nth (nth 0 idx 0) positions 0) (nth 1 idx 0)))
  else Error InvalidArgumentError.

(** Broadcasting of two shapes, both given innermost axis first. *)
Fixpoint broadcast_rev (r1 r2 : list nat) : option (list nat) :=
  match r1, r2 with
  | [], r => Some r
  | r, [] => Some r
  | a :: r1', b :: r2' =>
      if (a =? b) || (b =? 1) then option_map (cons a) (broadcast_rev r1' r2')
      else if a =? 1 then option_map (cons b) (broadcast_rev r1' r2')
      else None
  end.

Fixpoint clamp_idx (sh idx : list nat) : list nat :=
  match sh, idx with
  | n :: sh', i :: idx' => (if n =? 1 then 0 else i) :: clamp_idx sh' idx'
  | _, _ => []
  end.

(** The cell of an operand that is read for cell [idx] of the result. *)
Definition broadcast_idx (sh idx : list nat) : list nat :=
  clamp_idx sh (skipn (length idx - length sh) idx).

(** Element-wise [x + y] with broadcasting. *)
Definition tensor_add (x y : tensor A) : result (tensor A) :=
  match broadcast_rev (rev (shape x)) (rev (shape y)) with
  | Some r =>
      Ok (build (rev r)
            (fun idx => add (get d x (broadcast_idx (shape x) idx))
                            (get d y (broadcast_idx (shape y) idx))))
  | None => Error InvalidArgumentError
  end.
End TensorArith.

(** ** Python integers, lists and object attributes *)

Definition py_floordivZ (a b : Z) : result Z :=
  if (b =? 0)%Z then Error ZeroDivisionError else Ok (a / b)%Z.

Definition py_modZ (a b : Z) : result Z :=
  if (b =? 0)%Z then Error ZeroDivisionError else Ok (a mod b)%Z.

(** [l[i]] for a non-negative literal index. *)
Definition py_index {T : Type} (l : list T) (i : nat) : result T :=
  match nth_error l i with
  | Some v => Ok v
  | None => Error IndexError
  end.

(** ** [np.sqrt] of a Python integer

    numpy converts an integer that fits 64 bits to a double, rounding to
    nearest with ties to even, and takes the correctly rounded root of
    that double.  The doubles that occur are not negative; such a double
    is written [(m, s)] for [m / 2 ^ s]. *)

(** [n / 2 ^ k] rounded to nearest, ties to even. *)
Definition round_half_even (n k : Z) : Z :=
  let q := (n / 2 ^ k)%Z in
  let r := (n mod 2 ^ k)%Z in
  if (2 * r <? 2 ^ k)%Z then q
  else if (2 ^ k <? 2 * r)%Z then (q + 1)%Z
  else if Z.even q then q else (q + 1)%Z.

(** The double nearest to the integer [q >= 0]; it is an integer itself.
    Up to 53 bits [q] is kept, beyond them it is rounded to 53. *)
Definition double_of_int (q : Z) : Z :=
  let k := (Z.log2 q - 52)%Z in
  if (k <=? 0)%Z then q else (round_half_even q k * 2 ^ k)%Z.

(** The correctly rounded root of the double [x >= 0]: with
    [2 ^ k <= sqrt x < 2 ^ (k + 1)] the result is a multiple of
    [2 ^ (k - 52)].  The root of [x * 4 ^ (52 - k)] is an integer or
    irrational, so no tie occurs. *)
Definition double_sqrt (x : Z) : Z * Z :=
  let k := Z.log2 (Z.sqrt x) in
  let s := (52 - k)%Z in
  let n := (x * 2 ^ s * 2 ^ s)%Z in
  let r := Z.sqrt n in
  (if (r <? n - r * r)%Z then (r + 1)%Z else r, s).

(** [np.sqrt(q)]; [None] is NaN.  Beyond 64 bits numpy has no loop for
    the integer. *)
Definition np_sqrt (q : Z) : result (option (Z * Z)) :=
  if ((q <? - 2 ^ 63) || (2 ^ 64 <=? q))%Z then Error TypeError
  else if (q <? 0)%Z then Ok None
  else Ok (Some (double_sqrt (double_of_int q))).

(** [int(x)] truncates; NaN is rejected. *)
Definition int_of_double (x : option (Z * Z)) : result Z :=
  match x with
  | None => Error ValueError
  | Some (m, s) => Ok (m / 2 ^ s)%Z
  end.

(** [i == x] for an integer [i] and a double [x]. *)
Definition int_eq_double (i : Z) (x : option (Z * Z)) : bool :=
  match x with
  | None => false
  | Some (m, s) => (i * 2 ^ s =? m)%Z
  end.

(** [int(np.sqrt(q))] *)
Definition int_np_sqrt (q : Z) : result Z :=
  x <- np_sqrt q ;; int_of_double x.

(** [int(np.sqrt(q)) == np.sqrt(q)] *)
Definition sqrt_is_integral (q : Z) : result bool :=
  i <- int_np_sqrt q ;;
  x <- np_sqrt q ;;
  Ok (int_eq_double i x).

Inductive pyval : Type :=
| VNone
| VInt (z : Z)
| VList (l : list Z)
| VStr (s : string)
| VOpaque                                     (* floats, dtypes *)
| VObj (cls : string) (args : list Z).        (* a framework object *)

(** The instance dictionary of an object; the first binding of a name is
    the current one. *)
Definition attrs : Type := list (string * pyval).

Definition setattr (self : attrs) (name : string) (v : pyval) : attrs :=
  (name, v) :: self.

Fixpoint getattr (self : attrs) (name : string) : result pyval :=
  match self with
  | [] => Error (AttributeError name)
  | (n, v) :: rest => if String.eqb n name then Ok v else getattr rest name
  end.

Definition as_int (v : pyval) : result Z :=
  match v with VInt z => Ok z | _ => Error TypeError end.

Definition as_list (v : pyval) : result (list Z) :=
  match v with VList l => Ok l | _ => Error TypeError end.

Definition as_str (v : pyval) : result string :=
  match v with VStr s => Ok s | _ => Error TypeError end.

(** [self.name] read as an integer / as a list of integers / as a string. *)
Definition get_int (self : attrs) (name : string) : result Z :=
  v <- getattr self name ;; as_int v.

Definition get_list (self : attrs) (name : string) : result (list Z) :=
  v <- getattr self name ;; as_list v.

Definition get_str (self : attrs) (name : string) : result string :=
  v <- getattr self name ;; as_str v.

(** The PyTorch runtime of the host.  Whether a tensor or a layer is
    created depends on the devices present, on the memory and on the
    integer range of the library:
    [torch.arange(start=0, end=stop, step=1, device=device)],
    [torch.nn.Linear(in_features, out_features)] and
    [torch.nn.Embedding(num_embeddings, embedding_dim, device=device)]. *)
Record torch_runtime : Type := mkRuntime {
  rt_arange : Z -> string -> result pyval;
  rt_Linear : Z -> Z -> result pyval;
  rt_Embedding : Z -> Z -> string -> result pyval
}.

(** An argument annotated [List[int]] but used as an [int]. *)
Inductive patch_arg : Type :=
| PInt (z : Z)
| PList (l : list Z).

Definition patch_arg_val (p : patch_arg) : pyval :=
  match p with PInt z => VInt z | PList l => VList l end.

(** [p % n] and [p // n] for an integer [n]: a list operand is a type
    error. *)
Definition arg_mod (p : patch_arg) (n : Z) : result Z :=
  match p with
  | PInt z => py_modZ z n
  | PList _ => Error TypeError
  end.

Definition arg_floordiv (p : patch_arg) (n : Z) : result Z :=
  match p with
  | PInt z => py_floordivZ z n
  | PList _ => Error TypeError
  end.

(** Python's integer [%] and [//] on sizes. *)
Definition py_mod (a b : nat) : result nat :=
  if b =? 0 then Error ZeroDivisionError else Ok (a mod b).

Definition py_floordiv (a b : nat) : result nat :=
  if b =? 0 then Error ZeroDivisionError else Ok (a / b).

Definition msg_height : string := "Patch size must divide images height".
Definition msg_width : string := "Patch size must divide images width".
Definition msg_channels : string := "Num. channels must agree".

(** ** src/model/tf/ViT_model.py *)
Module ModelTf.
Section Code.
Variable A : Type.
Variable d : A.
Let tensor := tensor A.

(** The inner helper of [patch]. *)
Definition patches_2d (patch_size : nat) (X : tensor) : result tensor :=
  match shape X with
  | [h; w] =>
      nh <- py_floordiv h patch_size ;;
      rows <- split d nh 0 X ;;
      X_middle <- stack d 0 rows ;;
      nw <- py_floordiv w patch_size ;;
      X_final <- map_fn d (fun y => cols <- split d nw 1 y ;; stack d 0 cols)
                   X_middle ;;
      reshape [None; Some patch_size; Some patch_size] X_final
  | _ => Error ValueError
  end.

Definition patch (X : tensor) (patch_size : nat) : result tensor :=
  X <- (if rank X =? 5 then tf_squeeze 1 X else Ok X) ;;
  match shape X with
  | [_; h; w; _] =>
      r <- py_mod h patch_size ;;
      py_assert (r =? 0) msg_height ;;;
      r <- py_mod w patch_size ;;
      py_assert (r =? 0) msg_width ;;;
      X <- transpose d [0; 3; 1; 2] X ;;
      patches_tf <- map_fn d (fun y => map_fn d (patches_2d patch_size) y) X ;;
      transpose d [0; 2; 3; 4; 1] patches_tf
  | _ => Error ValueError
  end.

Definition unflatten (flattened : tensor) (num_channels : nat) : result tensor :=
  match shape flattened with
  | [_; n; p] =>
      q <- py_floordiv p num_channels ;;
      reshape [None; Some n; Some (int_sqrt q); Some (int_sqrt q);
               Some num_channels] flattened
  | _ => Error ValueError
  end.

Definition unpatch (x : tensor) (num_channels : nat) : result tensor :=
  sh <- (if rank x <? 5
         then u <- unflatten x num_channels ;; Ok (shape u)
         else Ok (shape x)) ;;
  match sh with
  | [_; num_patches; h; w; ch] =>
      py_assert (ch =? num_channels) msg_channels ;;;
      let elem_per_axis := int_sqrt num_patches in
      groups <- split d elem_per_axis 1 x ;;
      x <- stack d 1 groups ;;
      cols <- unstack d 2 x ;;
      patches_middle <- tf_concat d (-2) cols ;;
      rows <- unstack d 1 patches_middle ;;
      img <- tf_concat d (-3) rows ;;
      reshape [None; Some 1; Some (h * elem_per_axis);
               Some (w * elem_per_axis); Some ch] img
  | _ => Error ValueError
  end.

(** [Patches(patch_size).call(images)] *)
Definition Patches_call (patch_size : nat) (images : tensor) : result tensor :=
  batch_size <- py_index (shape images) 0 ;;
  patches <- extract_patches d patch_size images ;;
  let patch_dims := last (shape patches) 0 in
  reshape [Some batch_size; None; Some patch_dims] patches.

Definition resampling (encoded_patches : tensor)
           (num_patches projection_dim : list nat) (num_channels : nat)
  : result tensor :=
  pd1 <- py_index projection_dim 1 ;;
  let new_patch_size := int_sqrt pd1 in
  u <- unflatten encoded_patches num_channels ;;
  original_image <- unpatch u num_channels ;;
  sq <- tf_squeeze 1 original_image ;;
  new_patches <- Patches_call new_patch_size sq ;;
  np1 <- py_index num_patches 1 ;;
  pd1 <- py_index projection_dim 1 ;;
  reshape [None; Some np1; Some pd1] new_patches.
End Code.
End ModelTf.

(** ** src/model/tf/functions.py *)
Module ModelTfFunctions.
Section Code.
Variable A : Type.
Variable d : A.
Variable add mul : A -> A -> A.

(** The inner helper of [patches]. *)
Definition patches_2d (patch_size : nat) (X : tensor A) : result (tensor A) :=
  match shape X with
  | [h; w] =>
      nh <- py_floordiv h patch_size ;;
      rows <- split d nh 0 X ;;
      X_middle <- stack d 0 rows ;;
      nw <- py_floordiv w patch_size ;;
      X_final <- map_fn d (fun y => cols <- split d nw 1 y ;; stack d 0 cols)
                   X_middle ;;
      reshape [None; Some patch_size; Some patch_size] X_final
  | _ => Error ValueError
  end.

Definition patches (X : tensor A) (patch_size : nat) : result (tensor A) :=
  X <- (if rank X =? 5 then tf_squeeze 1 X else Ok X) ;;
  match shape X with
  | [_; h; w; _] =>
      r <- py_mod h patch_size ;;
      py_assert (r =? 0) msg_height ;;;
      r <- py_mod w patch_size ;;
      py_assert (r =? 0) msg_width ;;;
      X <- transpose d [0; 3; 1; 2] X ;;
      patches_tf <- map_fn d (fun y => map_fn d (patches_2d patch_size) y) X ;;
      transpose d [0; 2; 3; 4; 1] patches_tf
  | _ => Error ValueError
  end.

Definition unflatten (flattened : tensor A) (num_channels : nat)
  : result (tensor A) :=
  np <- match shape flattened with
        | [n; p] => Ok (n, p)
        | [_; n; p] => Ok (n, p)
        | _ => Error ValueError
        end ;;
  let (n, p) := np : nat * nat in
  q <- py_floordiv p num_channels ;;
  reshape [None; Some n; Some (int_sqrt q); Some (int_sqrt q); Some num_channels]
          flattened.

Definition unpatch (x : tensor A) (num_channels : nat) : result (tensor A) :=
  sh <- (if rank x <? 5
         then u <- unflatten x num_channels ;; Ok (shape u)
         else Ok (shape x)) ;;
  match sh with
  | [_; num_patches; h; w; ch] =>
      py_assert (ch =? num_channels) msg_channels ;;;
      let elem_per_axis := int_sqrt num_patches in
      groups <- split d elem_per_axis 1 x ;;
      x <- stack d 1 groups ;;
      cols <- unstack d 2 x ;;
      patches_middle <- tf_concat d (-2) cols ;;
      rows <- unstack d 1 patches_middle ;;
      img <- tf_concat d (-3) rows ;;
      reshape [None; Some 1; Some (h * elem_per_axis);
               Some (w * elem_per_axis); Some ch] img
  | _ => Error ValueError
  end.

Definition resampling (encoded_patches : tensor A) (img_size : nat)
           (patch_size : list nat) (num_channels : nat) : result (tensor A) :=
  p1 <- py_index patch_size 1 ;;
  q <- py_floordiv img_size p1 ;;
  let num_patch := q ^ 2 in
  p1 <- py_index patch_size 1 ;;
  let proj_dim := num_channels * p1 ^ 2 in
  u <- unflatten encoded_patches num_channels ;;
  original_image <- unpatch u num_channels ;;
  sq <- tf_squeeze 1 original_image ;;
  p1 <- py_index patch_size 1 ;;
  new_patches <- patches sq p1 ;;
  reshape [None; Some num_patch; Some proj_dim] new_patches.

(** *** class PatchEncoder *)
Record PatchEncoder : Type := mkPatchEncoder {
  pe_img_size : nat;
  pe_patch_size : nat;
  pe_num_channels : nat;
  pe_num_patches : nat;
  pe_projection_dim : nat;
  pe_kernel : nat -> nat -> A;       (* weights of [projection] *)
  pe_bias : nat -> A;
  pe_table : nat -> nat -> A         (* weights of [position_embedding] *)
}.

Definition PatchEncoder_init (img_size patch_size num_channels : nat)
           (kernel : nat -> nat -> A) (bias : nat -> A) (table : nat -> nat -> A)
  : result PatchEncoder :=
  q <- py_floordiv img_size patch_size ;;
  Ok (mkPatchEncoder img_size patch_size num_channels (q ^ 2)
        (num_channels * patch_size ^ 2) kernel bias table).

Definition PatchEncoder_call (self : PatchEncoder) (X : tensor A)
  : result (tensor A) :=
  X <- patches X (pe_patch_size self) ;;
  let positions := seq 0 (pe_num_patches self) in
  y <- keras_dense d add mul (pe_projection_dim self)
         (pe_kernel self) (pe_bias self) X ;;
  e <- embedding (pe_num_patches self) (pe_projection_dim self)
         (pe_table self) positions ;;
  tensor_add d add y e.
End Code.
End ModelTfFunctions.

(** ** src/model/pytorch/ViT_model.py *)
Module Torch.
Section Code.
Variable A : Type.
Variable d : A.
Let tensor := tensor A.

Definition patch (X : tensor) (patch_size : nat) : result tensor :=
  X <- (if rank X =? 5 then torch_squeeze 1 X else Ok X) ;;
  if rank X <? 2 then Error IndexError else
  let h := nth (rank X - 2) (shape X) 0 in
  let w := nth (rank X - 1) (shape X) 0 in
  r <- py_mod h patch_size ;;
  py_assert (r =? 0) msg_height ;;;
  r <- py_mod w patch_size ;;
  py_assert (r =? 0) msg_width ;;;
  u <- unfold d 2 patch_size patch_size X ;;
  patches <- unfold d 3 patch_size patch_size u ;;
  f <- torch_flatten 2 3 patches ;;
  transpose d [0; 2; 1; 3; 4] f.

Definition unflatten (flattened : tensor) (num_channels : nat) : result tensor :=
  match shape flattened with
  | [bs; n; p] =>
      q <- py_floordiv p num_channels ;;
      reshape [Some bs; Some n; Some num_channels;
               Some (int_sqrt q); Some (int_sqrt q)] flattened
  | _ => Error ValueError
  end.

(** [[torch.cat([patch for patch in t], dim = a) for t in ts]] *)
Definition cat_each (a : Z) (ts : list tensor) : result (list tensor) :=
  mapM (fun t => ps <- unstack d 0 t ;; tf_concat d a ps) ts.

Definition unpatch (x : tensor) (num_channels : nat) : result tensor :=
  sh <- (if rank x <? 5
         then u <- unflatten x num_channels ;; Ok (shape u)
         else Ok (shape x)) ;;
  match sh with
  | [batch_size; num_patches; ch; h; w] =>
      py_assert (ch =? num_channels) msg_channels ;;;
      let elem_per_axis := int_sqrt num_patches in
      xr <- reshape [Some batch_size; Some elem_per_axis; Some elem_per_axis;
                     Some ch; Some h; Some w] x ;;
      per_image <- unstack d 0 xr ;;
      mids <- cat_each (-2) per_image ;;
      patches_middle <- stack d 0 mids ;;
      per_image <- unstack d 0 patches_middle ;;
      imgs <- cat_each (-1) per_image ;;
      restored <- stack d 0 imgs ;;
      reshape [Some batch_size; Some 1; Some ch;
               Some (h * elem_per_axis); Some (w * elem_per_axis)] restored
  | _ => Error ValueError
  end.

Definition resampling (encoded_patches : tensor) (patch_size : list nat)
           (num_channels : nat) : result tensor :=
  u <- unflatten encoded_patches num_channels ;;
  original_image <- unpatch u num_channels ;;
  p1 <- py_index patch_size 1 ;;
  new_patches <- patch original_image p1 ;;
  torch_flatten (-3) (-1) new_patches.
End Code.

Section Layers.
Variable A : Type.
Variable d : A.
Variable add mul : A -> A -> A.
Variable zero : A.
(** [torch.nn.functional.softmax(x, dim=-1)] *)
Variable softmax : tensor A -> result (tensor A).

(** *** class PatchEncoder: [forward], on the attributes it reads *)
Record PatchEncoder : Type := mkPatchEncoder {
  pe_patch_size : list nat;
  pe_num_channels : nat;
  pe_positions : list nat;
  pe_linear_in : nat;
  pe_linear_out : nat;
  pe_linear_kernel : nat -> nat -> A;
  pe_linear_bias : nat -> A;
  pe_num_embeddings : nat;
  pe_embedding_dim : nat;
  pe_table : nat -> nat -> A
}.

(** [None] is Python's [None], returned when the body falls through. *)
Definition PatchEncoder_forward (self : PatchEncoder) (X : tensor A)
  : result (option (tensor A)) :=
  p0 <- py_index (pe_patch_size self) 0 ;;
  p1 <- py_index (pe_patch_size self) 1 ;;
  if p1 <? p0 then
    patches <- patch d X p1 ;;
    flat_patches <- torch_flatten (-3) (-1) patches ;;
    pos <- embedding (pe_num_embeddings self) (pe_embedding_dim self)
             (pe_table self) (pe_positions self) ;;
    encoded <- tensor_add d add flat_patches pos ;;
    encoded <- unflatten encoded (pe_num_channels self) ;;
    encoded <- unpatch d encoded (pe_num_channels self) ;;
    pp <- patch d encoded p0 ;;
    encoded <- torch_flatten (-3) (-1) pp ;;
    encoded <- torch_linear d add mul (pe_linear_in self) (pe_linear_out self)
                 (pe_linear_kernel self) (pe_linear_bias self) encoded ;;
    Ok (Some encoded)
  else Ok None.

(** *** class ReAttention *)
Record ReAttention : Type := mkReAttention {
  ra_num_heads : nat;
  ra_num_channels : nat;
  ra_apply_transform : bool;
  ra_scale : A;
  ra_reatten_scale : A;
  ra_qconv2d : tensor A -> result (tensor A);
  ra_kconv2d : tensor A -> result (tensor A);
  ra_vconv2d : tensor A -> result (tensor A);
  ra_reatten_matrix : tensor A -> result (tensor A);   (* Conv2d(heads, heads, 1, 1) *)
  ra_var_norm : tensor A -> result (tensor A);         (* BatchNorm2d(heads) *)
  ra_attn_drop : tensor A -> result (tensor A);        (* Dropout(attn_drop) *)
  ra_proj : tensor A -> result (tensor A);             (* Linear(dim, dim) *)
  ra_proj_drop : tensor A -> result (tensor A)         (* Dropout(proj_drop) *)
}.

(** One of the three right-hand sides of lines 157-159. *)
Definition heads_of (self : ReAttention) (conv : tensor A -> result (tensor A))
           (x : tensor A) (B N C : nat) : result (tensor A) :=
  u <- unflatten x (ra_num_channels self) ;;
  ys <- unstack d 0 u ;;
  cs <- mapM conv ys ;;
  st <- stack d 0 cs ;;
  f <- torch_flatten (-3) (-1) st ;;
  hd <- py_floordiv C (ra_num_heads self) ;;
  r <- reshape [Some B; Some N; Some 1; Some (ra_num_heads self); Some hd] f ;;
  p <- transpose d [2; 0; 3; 1; 4] r ;;
  slices <- unstack d 0 p ;;
  py_index slices 0.

(** Reading a local variable that may not have been assigned. *)
Definition read_local (name : string) (v : option (tensor A))
  : result (tensor A) :=
  match v with
  | Some t => Ok t
  | None => Error (UnboundLocalError name)
  end.

(** Lines 157-161: the softmax-normalised scaled dot-product scores,
    and the values. *)
Definition soft_scores (self : ReAttention) (x : tensor A) (B N C : nat)
  : result (tensor A * tensor A) :=
  q <- heads_of self (ra_qconv2d self) x B N C ;;
  k <- heads_of self (ra_kconv2d self) x B N C ;;
  v <- heads_of self (ra_vconv2d self) x B N C ;;
  kt <- transpose d [0; 1; 3; 2] k ;;
  qk <- matmul d add mul zero false q kt ;;
  let attn := tensor_scale mul (ra_scale self) qk in
  attn_soft <- softmax attn ;;
  Ok (attn_soft, v).

Definition ReAttention_forward (self : ReAttention) (x : tensor A)
  : result (tensor A * tensor A) :=
  match shape x with
  | [B; N; C] =>
      sv <- soft_scores self x B N C ;;
      let (attn_soft, v) := sv : tensor A * tensor A in
      attn_drop <- ra_attn_drop self attn_soft ;;
      attn_norm <- (if ra_apply_transform self
                    then c <- ra_reatten_matrix self attn_drop ;;
                         n <- ra_var_norm self c ;;
                         Ok (Some (tensor_scale mul (ra_reatten_scale self) n))
                    else Ok None) ;;
      attn_next <- read_local "attn_norm" attn_norm ;;
      a <- read_local "attn_norm" attn_norm ;;
      m <- matmul d add mul zero false a v ;;
      t <- transpose d [0; 2; 1; 3] m ;;
      x <- reshape [Some B; Some N; Some C] t ;;
      x_proj <- ra_proj self x ;;
      x_drop <- ra_proj_drop self x_proj ;;
      Ok (x_drop, attn_next)
  | _ => Error ValueError
  end.

(** Vocabulary: the re-attention transform, and the layer output
    obtained from an attention map and the values. *)
Definition reatten (self : ReAttention) (attn : tensor A) : result (tensor A) :=
  c <- ra_reatten_matrix self attn ;;
  n <- ra_var_norm self c ;;
  Ok (tensor_scale mul (ra_reatten_scale self) n).

Definition attend (self : ReAttention) (B N C : nat) (attn v : tensor A)
  : result (tensor A) :=
  m <- matmul d add mul zero false attn v ;;
  t <- transpose d [0; 2; 1; 3] m ;;
  x <- reshape [Some B; Some N; Some C] t ;;
  x_proj <- ra_proj self x ;;
  ra_proj_drop self x_proj.
End Layers.

(** *** PatchEncoder.__init__, on the instance dictionary *)
Definition PatchEncoder_init (rt : torch_runtime) (img_size : Z)
           (patch_size : list Z) (num_channels : Z) (device : string)
  : result attrs :=
  let self : attrs := [] in                      (* super().__init__() *)
  let self := setattr self "img_size" (VInt img_size) in
  let self := setattr self "patch_size" (VList patch_size) in
  let self := setattr self "num_channels" (VInt num_channels) in
  isz <- get_int self "img_size" ;;
  psz <- get_list self "patch_size" ;;
  num_patches <- mapM (fun patch => q <- py_floordivZ isz patch ;;
                                    Ok (q ^ 2)%Z) psz ;;
  let self := setattr self "num_patches" (VList num_patches) in
  nc <- get_int self "num_channels" ;;
  psz <- get_list self "patch_size" ;;
  let self := setattr self "projection_dim"
                (VList (map (fun patch => nc * patch ^ 2)%Z psz)) in
  let self := setattr self "device" (VStr device) in
  psz <- get_list self "patch_size" ;;
  p0 <- py_index psz 0 ;;
  p1 <- py_index psz 1 ;;
  positions <- (if (p0 >? p1)%Z
                then nps <- get_list self "num_patches" ;;
                     n <- py_index nps 1 ;;
                     dev <- get_str self "device" ;; rt_arange rt n dev
                else nps <- get_list self "num_patches" ;;
                     n <- py_index nps 0 ;;
                     dev <- get_str self "device" ;; rt_arange rt n dev) ;;
  let self := setattr self "positions" positions in
  pd <- get_list self "projection_dim" ;;
  d0 <- py_index pd 0 ;;
  linear <- rt_Linear rt d0 d0 ;;
  let self := setattr self "linear" linear in
  n_final <- get_int self "num_patches_final" ;;
  nc <- get_int self "num_channels" ;;
  ps_final <- get_int self "patch_size_final" ;;
  dev <- get_str self "device" ;;
  emb <- rt_Embedding rt n_final (nc * ps_final ^ 2)%Z dev ;;
  Ok (setattr self "position_embedding" emb).

(** *** A module call: [PatchEncoder(img_size, patch_size, num_channels,
    device)(X)] *)
Section ModuleCall.
Variable A : Type.
Variable d : A.
Variable add mul : A -> A -> A.


End ModuleCall.

(** *** ViT_model.__init__, on the instance dictionary.
    [depth] is a number of levels, so [2**depth] is an integer; the float
    hyper-parameters are only stored. *)
Definition msg_incompatible : string :=
  "Depth must be adjusted, final patch size is incompatible.".
Definition msg_too_small : string :=
  "Depth must be adjusted, final patch size is too small (lower than 4).".

Definition ViT_model_init (depth : nat) (depth_te : Z) (linear_list : list Z)
           (img_size : Z) (patch_size : patch_arg) (num_channels num_heads : Z)
           (device : string) : result attrs :=
  let self : attrs := [] in                      (* super().__init__() *)
  r <- arg_mod patch_size (2 ^ Z.of_nat depth)%Z ;;
  py_assert (r =? 0)%Z msg_incompatible ;;;
  q <- arg_floordiv patch_size (2 ^ Z.of_nat depth)%Z ;;
  py_assert (4 <=? q)%Z msg_too_small ;;;
  let self := setattr self "depth" (VInt (Z.of_nat depth)) in
  let self := setattr self "depth_te" (VInt depth_te) in
  let self := setattr self "linear_list" (VList linear_list) in
  let self := setattr self "img_size" (VInt img_size) in
  let self := setattr self "patch_size" (patch_arg_val patch_size) in
  let self := setattr self "num_channels" (VInt num_channels) in
  isz <- get_int self "img_size" ;;
  ps <- get_int self "patch_size" ;;
  q <- py_floordivZ isz ps ;;
  let self := setattr self "num_patches" (VInt (q ^ 2)) in
  nc <- get_int self "num_channels" ;;
  ps <- get_int self "patch_size" ;;
  let self := setattr self "projection_dim" (VInt (nc * ps ^ 2)) in
  let self := setattr self "hidden_dim_factor" VOpaque in
  let self := setattr self "num_heads" (VInt num_heads) in
  let self := setattr self "attn_drop" VOpaque in
  let self := setattr self "proj_drop" VOpaque in
  let self := setattr self "linear_drop" VOpaque in
  let self := setattr self "device" (VStr device) in
  (* self.PE = PatchEncoder(self.depth, self.num_patches, self.patch_size,
                            self.num_channels, self.preprocessing, self.dtype) *)
  getattr self "depth" ;;;
  getattr self "num_patches" ;;;
  getattr self "patch_size" ;;;
  getattr self "num_channels" ;;;
  getattr self "preprocessing" ;;;
  getattr self "dtype" ;;;
  Error TypeError.                               (* six arguments for four *)
End Torch.


(** ** src/hvit/tf/functions.py *)
Module Hvit.
Section Code.
Variable A : Type.
Variable d : A.
Let tensor := tensor A.

Definition patches (X : tensor) (patch_size : nat) : result tensor :=
  if rank X <? 2 then Error IndexError else
  q <- py_floordiv (nth 1 (shape X) 0) patch_size ;;
  let num_patches := q ^ 2 in
  X <- extract_patches d patch_size X ;;
  reshape [None; Some num_patches; Some (last (shape X) 0)] X.

Definition unflatten (flattened : tensor) (num_channels : nat) : result tensor :=
  np <- match shape flattened with
        | [n; p] => Ok (n, p)
        | [_; n; p] => Ok (n, p)
        | _ => Error ValueError
        end ;;
  let (n, p) := np : nat * nat in
  q <- py_floordiv p num_channels ;;
  reshape [None; Some n; Some (int_sqrt q); Some (int_sqrt q); Some num_channels]
          flattened.

Definition unpatch (x : tensor) (num_channels : nat) : result tensor :=
  sh <- (if rank x <? 5
         then u <- unflatten x num_channels ;; Ok (shape u)
         else Ok (shape x)) ;;
  match sh with
  | [_; num_patches; h; w; ch] =>
      py_assert (ch =? num_channels) msg_channels ;;;
      let elem_per_axis := int_sqrt num_patches in
      groups <- split d elem_per_axis 1 x ;;
      x <- stack d 1 groups ;;
      cols <- unstack d 2 x ;;
      patches_middle <- tf_concat d (-2) cols ;;
      rows <- unstack d 1 patches_middle ;;
      img <- tf_concat d (-3) rows ;;
      reshape [None; Some 1; Some (h * elem_per_axis);
               Some (w * elem_per_axis); Some ch] img
  | _ => Error ValueError
  end.

Definition resampling (encoded_patches : tensor) (img_size : nat)
           (patch_size : list nat) (num_channels : nat) : result tensor :=
  u <- unflatten encoded_patches num_channels ;;
  original_image <- unpatch u num_channels ;;
  sq <- tf_squeeze 1 original_image ;;
  match patch_size with
  | _ :: p1 :: _ => patches sq p1
  | _ => Error IndexError
  end.
End Code.

Section Layers.
Variable A : Type.
Variable d : A.
Variable add mul : A -> A -> A.
Variable zero : A.
(** [softmax(x, axis=-1)] and [gelu] of the numeric runtime. *)
Variable softmax : tensor A -> result (tensor A).
Variable gelu : tensor A -> tensor A.

(** *** class PatchEncoder *)
Record PatchEncoder : Type := mkPatchEncoder {
  pe_img_size : nat;
  pe_patch_size : nat;
  pe_num_channels : nat;
  pe_num_patches : nat;
  pe_projection_dim : nat;
  pe_kernel : nat -> nat -> A;       (* weights of [projection] *)
  pe_bias : nat -> A;
  pe_table : nat -> nat -> A         (* weights of [position_embedding] *)
}.

Definition PatchEncoder_init (img_size patch_size num_channels : nat)
           (projection_dim : option nat)
           (kernel : nat -> nat -> A) (bias : nat -> A) (table : nat -> nat -> A)
  : result PatchEncoder :=
  q <- py_floordiv img_size patch_size ;;
  Ok (mkPatchEncoder img_size patch_size num_channels (q ^ 2)
        (match projection_dim with
         | Some v => v
         | None => num_channels * patch_size ^ 2
         end)
        kernel bias table).

Definition PatchEncoder_call (self : PatchEncoder) (X : tensor A)
  : result (tensor A) :=
  X <- patches d X (pe_patch_size self) ;;
  let positions := seq 0 (pe_num_patches self) in
  y <- keras_dense d add mul (pe_projection_dim self)
         (pe_kernel self) (pe_bias self) X ;;
  e <- embedding (pe_num_patches self) (pe_projection_dim self)
         (pe_table self) positions ;;
  tensor_add d add y e.

(** *** class ReAttention *)
Record ReAttention : Type := mkReAttention {
  ra_dim : nat;
  ra_num_heads : nat;
  ra_num_channels : nat;
  ra_num_patches : nat;
  ra_apply_transform : bool;
  ra_scale : A;
  ra_reatten_scale : A;
  ra_qconv2d : tensor A -> result (tensor A);
  ra_kconv2d : tensor A -> result (tensor A);
  ra_vconv2d : tensor A -> result (tensor A);
  ra_reatten_matrix : tensor A -> result (tensor A);   (* Conv2D(num_patches, 1) *)
  ra_var_norm : tensor A -> result (tensor A);         (* BatchNormalization *)
  ra_attn_drop : tensor A -> result (tensor A);        (* Dropout(attn_drop) *)
  ra_proj : tensor A -> result (tensor A);             (* Dense(dim) *)
  ra_proj_drop : tensor A -> result (tensor A)         (* Dropout(proj_drop) *)
}.

Definition conv_gelu (conv : tensor A -> result (tensor A)) (nc : nat)
           (x : tensor A) : result (tensor A) :=
  u <- unflatten x nc ;;
  map_fn d (fun y => c <- conv y ;; Ok (gelu c)) u.

Definition create_queries (self : ReAttention) (x : tensor A) (letter : string)
  : result (tensor A) :=
  x <- (if String.eqb letter "q"
        then conv_gelu (ra_qconv2d self) (ra_num_channels self) x else Ok x) ;;
  x <- (if String.eqb letter "k"
        then conv_gelu (ra_kconv2d self) (ra_num_channels self) x else Ok x) ;;
  x <- (if String.eqb letter "v"
        then conv_gelu (ra_vconv2d self) (ra_num_channels self) x else Ok x) ;;
  x <- reshape [None; Some (ra_num_patches self); Some (ra_dim self)] x ;;
  hd <- py_floordiv (ra_dim self) (ra_num_heads self) ;;
  x <- reshape [None; Some (ra_num_patches self); Some (ra_num_heads self);
                Some hd; Some 1] x ;;
  x <- transpose d [4; 0; 2; 1; 3] x ;;
  slices <- unstack d 0 x ;;
  py_index slices 0.

Definition ReAttention_call (self : ReAttention) (x : tensor A)
  : result (tensor A * tensor A) :=
  match shape x with
  | [_; N; C] =>
      q <- create_queries self x "q" ;;
      k <- create_queries self x "k" ;;
      v <- create_queries self x "v" ;;
      attn <- matmul d add mul zero true q k ;;
      let attn := tensor_scale mul (ra_scale self) attn in
      attn <- softmax attn ;;
      attn <- ra_attn_drop self attn ;;
      attn <- (if ra_apply_transform self
               then c <- ra_reatten_matrix self attn ;;
                    n <- ra_var_norm self c ;;
                    Ok (tensor_scale mul (ra_reatten_scale self) n)
               else Ok attn) ;;
      let attn_next := attn in
      m <- matmul d add mul zero false attn v ;;
      t <- transpose d [0; 2; 1; 3] m ;;
      x <- reshape [None; Some N; Some C] t ;;
      x <- ra_proj self x ;;
      x <- ra_proj_drop self x ;;
      Ok (x, attn_next)
  | _ => Error ValueError
  end.

(** Vocabulary for stating what [call] computes. *)

(** The softmax-normalised scaled dot-product attention scores. *)
Definition softmax_scores (self : ReAttention) (x : tensor A)
  : result (tensor A) :=
  q <- create_queries self x "q" ;;
  k <- create_queries self x "k" ;;
  attn <- matmul d add mul zero true q k ;;
  softmax (tensor_scale mul (ra_scale self) attn).

(** The re-attention transform: 1x1 convolution, then batch
    normalisation, scaled by [reatten_scale]. *)
Definition reatten (self : ReAttention) (attn : tensor A) : result (tensor A) :=
  c <- ra_reatten_matrix self attn ;;
  n <- ra_var_norm self c ;;
  Ok (tensor_scale mul (ra_reatten_scale self) n).

(** The layer output obtained from an attention map and the values. *)
Definition attend (self : ReAttention) (N C : nat) (attn v : tensor A)
  : result (tensor A) :=
  m <- matmul d add mul zero false attn v ;;
  t <- transpose d [0; 2; 1; 3] m ;;
  x <- reshape [None; Some N; Some C] t ;;
  x <- ra_proj self x ;;
  ra_proj_drop self x.
End Layers.

(** *** class Resampling: [__init__], in two stages: the checks and the
    attributes, then the layer objects. *)
Definition msg_resampling_type : string :=
  "Resampling type must be either 'max' or 'standard'.".
Definition msg_max_projection : string :=
  "Projection_dim must be specified when performing 'max' pooling type.".
Definition msg_conv_square : string :=
  "If provided, projection dim has to be a perfect square (per channel) with resampling_type=='conv'.".

Record Resampling : Type := mkResampling {
  rs_img_size : Z;
  rs_patch_size : list Z;
  rs_num_patches : list Z;
  rs_pool_size : Z;
  rs_num_channels : Z;
  rs_resampling_type : string;
  rs_projection_dim : list Z;
  rs_ps : option (list Z)          (* not assigned for 'standard' *)
}.

(** Lines 101-102: [num_patches] and [pool_size]. *)
Definition Resampling_grid (img_size : Z) (patch_size : list Z)
  : result (list Z * Z) :=
  num_patches <- mapM (fun patch => q <- py_floordivZ img_size patch ;;
                                    Ok (q ^ 2)%Z) patch_size ;;
  n0 <- py_index num_patches 0 ;;
  n1 <- py_index num_patches 1 ;;
  pool_size <- py_floordivZ n0 n1 ;;
  Ok (num_patches, pool_size).

(** [[int(np.sqrt(proj//num_channels)) for proj in projection_dim]] *)
Definition patch_sides (num_channels : Z) (projection_dim : list Z)
  : result (list Z) :=
  mapM (fun proj => q <- py_floordivZ proj num_channels ;; int_np_sqrt q)
       projection_dim.

Definition default_projection (num_channels : Z) (projection_dim : option Z)
           (patch_size : list Z) : list Z :=
  map (fun patch => match projection_dim with
                    | Some v => v
                    | None => (num_channels * patch ^ 2)%Z
                    end) patch_size.

(** The statements of [__init__] up to [self.ps] ('max', 'conv') or
    [self.projection_dim] ('standard'). *)
Definition Resampling_attributes (img_size : Z) (patch_size : list Z)
           (num_channels : Z) (projection_dim : option Z)
           (resampling_type : string)
  : result Resampling :=
  py_assert (existsb (String.eqb resampling_type) ["max"; "standard"; "conv"]%string)
            msg_resampling_type ;;;
  grid <- Resampling_grid img_size patch_size ;;
  let (num_patches, pool_size) := grid : list Z * Z in
  if String.eqb resampling_type "max" then
    py_assert (match projection_dim with Some _ => true | None => false end)
              msg_max_projection ;;;
    let pd := default_projection num_channels projection_dim patch_size in
    ps <- patch_sides num_channels pd ;;
    Ok (mkResampling img_size patch_size num_patches pool_size num_channels
          resampling_type pd (Some ps))
  else if String.eqb resampling_type "standard" then
    let pd := default_projection num_channels projection_dim patch_size in
    Ok (mkResampling img_size patch_size num_patches pool_size num_channels
          resampling_type pd None)
  else if String.eqb resampling_type "conv" then
    ok <- match projection_dim with
          | None => Ok true
          | Some v => q <- py_floordivZ v num_channels ;; sqrt_is_integral q
          end ;;
    py_assert ok msg_conv_square ;;;
    let pd := default_projection num_channels projection_dim patch_size in
    ps <- patch_sides num_channels pd ;;
    Ok (mkResampling img_size patch_size num_patches pool_size num_channels
          resampling_type pd (Some ps))
  else  (* not reached: the first assertion admits only the three names *)
    Ok (mkResampling img_size patch_size num_patches pool_size num_channels
          resampling_type [] None).

(** A Keras layer constructor checks the sizes it is given: each must be
    positive. *)
Definition keras_sizes (sizes : list Z) : result unit :=
  if forallb (fun z => (0 <? z)%Z) sizes then Ok tt else Error ValueError.

Definition keras_Conv2D (filters kernel_size strides : Z) : result unit :=
  keras_sizes [filters; kernel_size; strides].
Definition keras_MaxPool2D (pool_size strides : Z) : result unit :=
  keras_sizes [pool_size; strides].
Definition keras_Dense (units : Z) : result unit :=
  keras_sizes [units].
Definition keras_Embedding (input_dim output_dim : Z) : result unit :=
  keras_sizes [input_dim; output_dim].

(** [l[-1]] *)
Definition py_lastZ (l : list Z) : result Z :=
  match l with
  | [] => Error IndexError
  | _ => Ok (last l 0%Z)
  end.

(** The rest of [__init__]: the pooling or convolution layer, [linear],
    [positions] and [position_embedding], in the order of each branch.
    [tf.range] creates the positions and checks nothing. *)
Definition Resampling_layers (r : Resampling) : result unit :=
  if String.eqb (rs_resampling_type r) "max" then
    n <- py_lastZ (rs_num_patches r) ;;
    keras_MaxPool2D (rs_num_channels r * n) (rs_pool_size r / 2) ;;;
    u <- py_lastZ (rs_projection_dim r) ;;
    keras_Dense u ;;;
    py_lastZ (rs_num_patches r) ;;;
    n <- py_lastZ (rs_num_patches r) ;;
    u <- py_lastZ (rs_projection_dim r) ;;
    keras_Embedding n u
  else if String.eqb (rs_resampling_type r) "standard" then
    py_lastZ (rs_num_patches r) ;;;
    n <- py_lastZ (rs_num_patches r) ;;
    u <- py_lastZ (rs_projection_dim r) ;;
    keras_Embedding n u ;;;
    u <- py_lastZ (rs_projection_dim r) ;;
    keras_Dense u
  else if String.eqb (rs_resampling_type r) "conv" then
    n <- py_lastZ (rs_num_patches r) ;;
    keras_Conv2D (rs_num_channels r * n) (rs_pool_size r / 2)
                 (rs_pool_size r / 2) ;;;
    u <- py_lastZ (rs_projection_dim r) ;;
    keras_Dense u ;;;
    py_lastZ (rs_num_patches r) ;;;
    n <- py_lastZ (rs_num_patches r) ;;
    u <- py_lastZ (rs_projection_dim r) ;;
    keras_Embedding n u
  else Ok tt.

Definition Resampling_init (img_size : Z) (patch_size : list Z) (num_channels : Z)
           (projection_dim : option Z) (resampling_type : string)
  : result Resampling :=
  r <- Resampling_attributes img_size patch_size num_channels projection_dim
         resampling_type ;;
  Resampling_layers r ;;;
  Ok r.

(** *** class Resampling: [call] *)
Section ResamplingCall.
Variable A : Type.
Variable d : A.
Variable add mul : A -> A -> A.

(** The instance as [call] reads it: the attributes, with the sizes as
    naturals, and the layers.  [ps] is assigned for 'max' and 'conv'
    only, [maxpool] for 'max' and [conv] for 'conv'. *)
Record ResamplingLayer : Type := mkResamplingLayer {
  rl_resampling_type : string;
  rl_img_size : nat;
  rl_patch_size : list nat;
  rl_num_patches : list nat;
  rl_pool_size : nat;
  rl_num_channels : nat;
  rl_ps : option (list nat);
  rl_maxpool : tensor A -> result (tensor A);      (* MaxPool2D(..) *)
  rl_conv : tensor A -> result (tensor A);         (* Conv2D(..) *)
  rl_units : nat;                                  (* Dense(projection_dim[-1]) *)
  rl_kernel : nat -> nat -> A;
  rl_bias : nat -> A;
  rl_positions : list nat;                         (* tf.range(num_patches[-1]) *)
  rl_input_dim : nat;                              (* Embedding(num_patches[-1], *)
  rl_output_dim : nat;                             (*           projection_dim[-1]) *)
  rl_table : nat -> nat -> A
}.

(** [l[-1]] *)
Definition py_last (l : list nat) : result nat :=
  match l with
  | [] => Error IndexError
  | _ => Ok (last l 0)
  end.

(** [self.linear(encoded) + self.position_embedding(self.positions)] *)
Definition Resampling_encode (self : ResamplingLayer) (encoded : tensor A)
  : result (tensor A) :=
  y <- keras_dense d add mul (rl_units self) (rl_kernel self) (rl_bias self)
         encoded ;;
  e <- embedding (rl_input_dim self) (rl_output_dim self) (rl_table self)
         (rl_positions self) ;;
  tensor_add d add y e.

(** The branches 'max' and 'conv', which differ in the pooling layer. *)
Definition Resampling_pooled (self : ResamplingLayer)
           (pool : tensor A -> result (tensor A)) (encoded : tensor A)
  : result (tensor A) :=
  encoded <- unflatten encoded (rl_num_channels self) ;;
  encoded <- transpose d [0; 2; 3; 1; 4] encoded ;;
  ps <- match rl_ps self with
        | Some l => Ok l
        | None => Error (AttributeError "ps")
        end ;;
  ps0 <- py_index ps 0 ;;
  np0 <- py_index (rl_num_patches self) 0 ;;
  encoded <- reshape [None; Some ps0; Some ps0;
                      Some (np0 * rl_num_channels self)] encoded ;;
  encoded <- pool encoded ;;
  q <- py_floordiv (2 * ps0) (rl_pool_size self) ;;
  npl <- py_last (rl_num_patches self) ;;
  encoded <- reshape [None; Some q; Some q; Some npl;
                      Some (rl_num_channels self)] encoded ;;
  encoded <- transpose d [0; 3; 1; 2; 4] encoded ;;
  q <- py_floordiv ps0 (rl_pool_size self) ;;
  encoded <- reshape [None; Some npl;
                      Some (4 * rl_num_channels self * q ^ 2)] encoded ;;
  Resampling_encode self encoded.

(** [None] is Python's [None], returned when no branch is taken. *)
Definition Resampling_call (self : ResamplingLayer) (encoded : tensor A)
  : result (option (tensor A)) :=
  if String.eqb (rl_resampling_type self) "max" then
    r <- Resampling_pooled self (rl_maxpool self) encoded ;; Ok (Some r)
  else if String.eqb (rl_resampling_type self) "standard" then
    encoded <- resampling d encoded (rl_img_size self) (rl_patch_size self)
                 (rl_num_channels self) ;;
    r <- Resampling_encode self encoded ;; Ok (Some r)
  else if String.eqb (rl_resampling_type self) "conv" then
    r <- Resampling_pooled self (rl_conv self) encoded ;; Ok (Some r)
  else Ok None.

(** The instance that [__init__] leaves: the attributes of
    [Resampling_init] and the layers built from them, [linear] with
    [projection_dim[-1]] units, the positions [0 .. num_patches[-1] - 1]
    and their embedding table. *)
Definition Resampling_layer (r : Resampling)
           (maxpool conv : tensor A -> result (tensor A))
           (kernel : nat -> nat -> A) (bias : nat -> A)
           (table : nat -> nat -> A) : ResamplingLayer :=
  let n := Z.to_nat (last (rs_num_patches r) 0%Z) in
  let u := Z.to_nat (last (rs_projection_dim r) 0%Z) in
  mkResamplingLayer (rs_resampling_type r) (Z.to_nat (rs_img_size r))
    (map Z.to_nat (rs_patch_size r)) (map Z.to_nat (rs_num_patches r))
    (Z.to_nat (rs_pool_size r)) (Z.to_nat (rs_num_channels r))
    (option_map (map Z.to_nat) (rs_ps r))
    maxpool conv u kernel bias (seq 0 n) n u table.
End ResamplingCall.
End Hvit.

(** ** A concrete image: 1 x 4 x 4 x 2, cells numbered in buffer order *)
Definition img_4x4x2 : tensor nat := mkT [1; 4; 4; 2] (seq 0 32).

(** A 1 x 4 x 4 x 1 image of integers, and a 1 x 3 x 3 x 1 one. *)
Definition img_4x4x1 : tensor Z := mkT [1; 4; 4; 1] (map Z.of_nat (seq 0 16)).
Definition img_3x3x1 : tensor nat := mkT [1; 3; 3; 1] (seq 0 9).

(** ** Concrete layers over integer cells

    Stand-ins with exact integer arithmetic: a convolution whose kernel is
    1 at its centre, a batch normalisation and dense maps that are the
    identity, a softmax along an axis of length one (which is constantly
    1), and a dropout whose mask drops every cell. *)
Definition unit_layer (t : tensor Z) : result (tensor Z) := Ok t.

Definition softmax_singleton (t : tensor Z) : result (tensor Z) :=
  if last (shape t) 0 =? 1
  then Ok (mkT (shape t) (map (fun _ => 1%Z) (data t)))
  else Error InvalidArgumentError.

Definition drop_all (t : tensor Z) : result (tensor Z) :=
  Ok (mkT (shape t) (map (fun _ => 0%Z) (data t))).

(** One token of four features. *)
Definition tokens_1x1x4 : tensor Z := mkT [1; 1; 4] [1; 2; 3; 4]%Z.

(** hvit [ReAttention(dim=4, num_patches=1, num_channels=1, num_heads=2)]
    in training mode, at a draw of the attention dropout that drops all. *)
Definition hvit_reattention_dropping : Hvit.ReAttention Z :=
  Hvit.mkReAttention 4 2 1 1 true 1%Z 1%Z
    unit_layer unit_layer unit_layer unit_layer unit_layer
    drop_all unit_layer unit_layer.

(** The same layer with the dropouts inactive (inference). *)
Definition hvit_reattention_eval : Hvit.ReAttention Z :=
  Hvit.mkReAttention 4 2 1 1 true 1%Z 1%Z
    unit_layer unit_layer unit_layer unit_layer unit_layer
    unit_layer unit_layer unit_layer.

(** PyTorch [ReAttention(dim=4, num_channels=1, num_heads=2)], with and
    without [apply_transform]. *)
Definition torch_reattention (apply_transform : bool)
           (attn_drop : tensor Z -> result (tensor Z)) : Torch.ReAttention Z :=
  Torch.mkReAttention 2 1 apply_transform 1%Z 1%Z
    unit_layer unit_layer unit_layer unit_layer unit_layer
    attn_drop unit_layer unit_layer.

(** A host with a CPU and no other device, on which tensors of up to
    [2 ^ 32] cells are allocated. *)
Definition cpu_host : torch_runtime :=
  mkRuntime
    (fun stop device =>
       if (2 ^ 63 <=? stop)%Z then Error OverflowError
       else if negb (String.eqb device "cpu") then Error RuntimeError
       else if ((stop <? 0) || (2 ^ 32 <? stop))%Z then Error RuntimeError
       else Ok (VObj "arange" [stop]))
    (fun i o =>
       if ((i <? 0) || (o <? 0) || (2 ^ 32 <? i * o))%Z then Error RuntimeError
       else Ok (VObj "Linear" [i; o]))
    (fun n e device =>
       if negb (String.eqb device "cpu") then Error RuntimeError
       else if ((n <? 0) || (e <? 0) || (2 ^ 32 <? n * e))%Z
            then Error RuntimeError
       else Ok (VObj "Embedding" [n; e])).

(** Stand-in for [gelu] in the concrete runs. *)
Definition no_activation (t : tensor Z) : tensor Z := t.

(** A perfect square among the integers. *)
Definition perfect_square (q : Z) : Prop := exists k, (0 <= k /\ q = k * k)%Z.

(** A multi-index within the bounds of a shape. *)
Definition in_range (idx sh : list nat) : Prop := Forall2 lt idx sh.

(** * Properties *)

(** ** Index arithmetic on row-major buffers *)

Lemma ravel_lt (sh idx : list nat) :
  in_range idx sh -> ravel sh idx < numel sh.
Proof.
  intros H. induction H as [|i n idx sh Hi _ IH]; simpl; [lia|].
  assert (i * numel sh + numel sh <= n * numel sh) by nia. lia.
Qed.

Lemma unravel_ravel (sh idx : list nat) :
  in_range idx sh -> unravel sh (ravel sh idx) = idx.
Proof.
  intros H. induction H as [|i n idx sh Hi Hr IH]; simpl; [reflexivity|].
  pose proof (ravel_lt Hr) as Hlt.
  rewrite Nat.div_add_l by lia.
  rewrite (Nat.div_small _ _ Hlt), Nat.add_0_r.
  rewrite Nat.add_comm, Nat.Div0.mod_add, (Nat.mod_small _ _ Hlt), IH.
  reflexivity.
Qed.

Lemma unravel_in_range (sh : list nat) : forall k,
  k < numel sh -> in_range (unravel sh k) sh.
Proof.
  induction sh as [|n sh IH]; intros k Hk; simpl in *; [constructor|].
  assert (numel sh <> 0) by (intros E; rewrite E in Hk; lia).
  constructor.
  - apply Nat.Div0.div_lt_upper_bound. lia.
  - apply IH. apply Nat.mod_upper_bound. assumption.
Qed.

Lemma ravel_unravel (sh : list nat) : forall k,
  k < numel sh -> ravel sh (unravel sh k) = k.
Proof.
  induction sh as [|n sh IH]; intros k Hk; simpl in *; [lia|].
  assert (numel sh <> 0) by (intros E; rewrite E in Hk; lia).
  rewrite IH by (apply Nat.mod_upper_bound; assumption).
  rewrite Nat.mul_comm. symmetry. apply Nat.div_mod_eq.
Qed.

Lemma unravel_eq (sh idx : list nat) (k : nat) :
  in_range idx sh -> k = ravel sh idx -> unravel sh k = idx.
Proof. intros H ->. apply unravel_ravel, H. Qed.

Lemma nth_map_seq {T : Type} (g : nat -> T) (n k : nat) (dflt : T) :
  k < n -> nth k (map g (seq 0 n)) dflt = g k.
Proof.
  intros Hk. rewrite (nth_indep _ dflt (g 0)) by (rewrite length_map, length_seq; lia).
  rewrite map_nth, seq_nth by lia. reflexivity.
Qed.

Section TensorFacts.
Variable A : Type.
Variable d : A.

Lemma wf_build (sh : list nat) (f : list nat -> A) : wf (build sh f).
Proof. unfold wf, build; simpl. rewrite length_map, length_seq. reflexivity. Qed.

Lemma get_build (sh : list nat) (f : list nat -> A) (idx : list nat) :
  in_range idx sh -> get d (build sh f) idx = f idx.
Proof.
  intros H. unfold get, build; simpl.
  rewrite nth_map_seq by (apply ravel_lt, H).
  rewrite unravel_ravel by assumption. reflexivity.
Qed.

Lemma tensor_ext (t1 t2 : tensor A) :
  wf t1 -> wf t2 -> shape t1 = shape t2 ->
  (forall idx, in_range idx (shape t1) -> get d t1 idx = get d t2 idx) ->
  t1 = t2.
Proof.
  destruct t1 as [s1 d1], t2 as [s2 d2]; unfold wf, get; simpl.
  intros W1 W2 <- H. f_equal.
  apply (nth_ext _ _ d d); [congruence|].
  intros k Hk. rewrite W1 in Hk.
  specialize (H (unravel s1 k) (unravel_in_range _ Hk)).
  rewrite ravel_unravel in H by assumption. exact H.
Qed.

Lemma build_ext (sh : list nat) (f g : list nat -> A) :
  (forall idx, in_range idx sh -> f idx = g idx) -> build sh f = build sh g.
Proof.
  intros H. unfold build. f_equal. apply map_ext_in.
  intros k Hk. apply in_seq in Hk. apply H, unravel_in_range. lia.
Qed.
End TensorFacts.

(** ** Multi-indices under list surgery *)

Lemma in_range_nth (idx sh : list nat) :
  in_range idx sh -> forall a, a < length sh -> nth a idx 0 < nth a sh 0.
Proof.
  intros H; induction H as [|i n idx sh Hi _ IH]; intros a Ha; simpl in *; [lia|].
  destruct a; [assumption|]. apply IH. lia.
Qed.

Lemma in_range_of_nth (sh : list nat) : forall idx,
  length idx = length sh ->
  (forall a, a < length sh -> nth a idx 0 < nth a sh 0) ->
  in_range idx sh.
Proof.
  induction sh as [|n sh IH]; intros [|i idx] Hl H; simpl in *; try discriminate.
  - constructor.
  - constructor.
    + apply (H 0). lia.
    + apply IH; [lia|]. intros a Ha. apply (H (S a)). lia.
Qed.

Lemma in_range_set_nth (a : nat) : forall idx sh m v,
  in_range idx (set_nth a m sh) -> v < nth a sh 0 ->
  in_range (set_nth a v idx) sh.
Proof.
  unfold in_range. induction a as [|a IH]; intros idx sh m v H Hv.
  - destruct sh as [|n sh]; simpl in *; inversion H; subst; constructor; assumption.
  - destruct sh as [|n sh]; simpl in *; inversion H; subst; constructor;
      [assumption|]. eapply IH; eassumption.
Qed.

Lemma in_range_insert_nth (a : nat) : forall idx sh k,
  in_range idx (remove_nth a sh) -> a < length sh -> k < nth a sh 0 ->
  in_range (insert_nth a k idx) sh.
Proof.
  unfold in_range. induction a as [|a IH]; intros idx sh k H Ha Hk.
  - destruct sh as [|n sh]; simpl in *; [lia|]. constructor; assumption.
  - destruct sh as [|n sh]; simpl in *; [lia|].
    inversion H; subst. constructor; [assumption|].
    apply IH; [assumption|lia|assumption].
Qed.

Lemma in_range_remove_nth (a : nat) : forall idx sh n,
  in_range idx (insert_nth a n sh) -> a <= length sh ->
  in_range (remove_nth a idx) sh /\ nth a idx 0 < n.
Proof.
  unfold in_range. induction a as [|a IH]; intros idx sh n H Ha.
  - simpl in H. inversion H; subst. simpl. split; assumption.
  - destruct sh as [|n' sh]; simpl in *; [lia|].
    inversion H; subst. simpl.
    destruct (IH l sh n) as [H1 H2]; [assumption|lia|].
    split; [constructor|]; assumption.
Qed.

Lemma shape_eqb_refl (sh : list nat) : shape_eqb sh sh = true.
Proof. unfold shape_eqb. destruct (list_eq_dec Nat.eq_dec sh sh); congruence. Qed.

Lemma mapM_map_seq {T U : Type} (fn : T -> result U) (g : nat -> T) (h : nat -> U) :
  forall n s,
    (forall k, s <= k < s + n -> fn (g k) = Ok (h k)) ->
    mapM fn (map g (seq s n)) = Ok (map h (seq s n)).
Proof.
  induction n as [|n IH]; intros s H; simpl; [reflexivity|].
  rewrite H by lia. simpl. rewrite IH; [reflexivity|].
  intros k Hk. apply H. lia.
Qed.

Lemma forallb_map_seq {T : Type} (P : T -> bool) (g : nat -> T) (n : nat) :
  (forall k, k < n -> P (g k) = true) -> forallb P (map g (seq 0 n)) = true.
Proof.
  intros H. apply forallb_forall. intros x Hx.
  apply in_map_iff in Hx. destruct Hx as [k [<- Hk]].
  apply in_seq in Hk. apply H. lia.
Qed.

Lemma map_seq_cons {T : Type} (g : nat -> T) (n : nat) :
  0 < n -> exists l, map g (seq 0 n) = g 0 :: l.
Proof. destruct n; [lia|]. intros _. simpl. eexists. reflexivity. Qed.

Lemma length_set_nth (a v : nat) : forall l, length (set_nth a v l) = length l.
Proof. induction a; intros [|x l]; simpl; auto. Qed.

Lemma nth_set_nth (a v : nat) : forall l,
  a < length l -> nth a (set_nth a v l) 0 = v.
Proof.
  induction a as [|a IH]; intros [|x l] H; simpl in *; try lia; auto.
  apply IH. lia.
Qed.

Lemma index_of_spec (a : nat) : forall perm,
  existsb (Nat.eqb a) perm = true ->
  index_of a perm < length perm /\ nth (index_of a perm) perm 0 = a.
Proof.
  induction perm as [|x perm IH]; simpl; [discriminate|].
  intros H. destruct (Nat.eqb_spec x a) as [->|Hne].
  - split; [lia|reflexivity].
  - destruct (Nat.eqb_spec a x) as [->|_]; [congruence|]. simpl in H.
    destruct (IH H) as [H1 H2]. split; [lia|assumption].
Qed.

Lemma numel_fill_infer (v : nat) (spec : list (option nat)) :
  numel (fill_infer v spec) = known_numel spec * v ^ count_infer spec.
Proof.
  unfold count_infer.
  induction spec as [|[n|] spec IH]; simpl; [reflexivity| |]; rewrite IH;
    [|rewrite !Nat.mul_assoc; f_equal; apply Nat.mul_comm].
  apply Nat.mul_assoc.
Qed.

Lemma resolve_shape_numel (total : nat) (spec : list (option nat)) (sh : list nat) :
  resolve_shape total spec = Ok sh -> numel sh = total.
Proof.
  unfold resolve_shape.
  destruct (count_infer spec) as [|[|c]] eqn:Ec; [| |discriminate].
  - destruct (Nat.eqb_spec (known_numel spec) total) as [E|]; [|discriminate].
    intros [= <-]. rewrite numel_fill_infer, Ec. simpl. lia.
  - destruct (Nat.eqb_spec (known_numel spec) 0) as [|Hk]; [discriminate|].
    destruct (Nat.eqb_spec (total mod known_numel spec) 0) as [Hm|]; [|discriminate].
    intros [= <-]. rewrite numel_fill_infer, Ec. simpl. rewrite Nat.mul_1_r.
    pose proof (Nat.div_mod_eq total (known_numel spec)). lia.
Qed.

(** Requested shape [-1 :: rest] on a buffer of [b * numel rest] cells. *)
Lemma resolve_shape_head (b : nat) (rest : list nat) :
  numel rest <> 0 ->
  resolve_shape (b * numel rest) (None :: map Some rest) = Ok (b :: rest).
Proof.
  intros Hn. unfold resolve_shape.
  assert (Hk : known_numel (None :: map Some rest) = numel rest).
  { simpl. induction rest as [|n rest IH]; simpl; [reflexivity|].
    rewrite IH; [reflexivity|]. simpl in Hn. nia. }
  assert (Hc : count_infer (None :: map Some rest) = 1).
  { unfold count_infer. simpl. f_equal.
    clear. induction rest; simpl; auto. }
  rewrite Hc, Hk.
  destruct (Nat.eqb_spec (numel rest) 0); [contradiction|].
  rewrite Nat.Div0.mod_mul, Nat.div_mul by assumption. simpl.
  f_equal. f_equal. clear. induction rest; simpl; congruence.
Qed.

Lemma map_const {T : Type} (h : T -> nat) (m : nat) (l : list T) :
  (forall k, In k l -> h k = m) -> map h l = repeat m (length l).
Proof.
  induction l as [|x l IH]; intros H; simpl; [reflexivity|].
  rewrite H by (left; reflexivity). rewrite IH; [reflexivity|].
  intros k Hk. apply H. right. exact Hk.
Qed.

Lemma locate_repeat (m : nat) : forall n i,
  0 < m -> i < n * m -> locate (repeat m n) i = (i / m, i mod m).
Proof.
  induction n as [|n IH]; intros i Hm Hi; [lia|]. simpl.
  destruct (Nat.ltb_spec i m) as [Hlt|Hge].
  - rewrite Nat.div_small, Nat.mod_small by assumption. reflexivity.
  - rewrite IH by (simpl in Hi; lia).
    replace i with ((i - m) + 1 * m) at 3 4 by lia.
    rewrite Nat.div_add, Nat.Div0.mod_add by lia.
    rewrite Nat.add_1_r. reflexivity.
Qed.

Lemma in_range_app_last (idx sh : list nat) (s : nat) :
  in_range idx (sh ++ [s]) ->
  in_range (removelast idx) sh /\ last idx 0 < s.
Proof.
  unfold in_range. revert idx. induction sh as [|n sh IH]; intros idx H.
  - simpl in H. inversion H as [|i n' l l' Hi Hl]; subst.
    inversion Hl; subst. simpl. split; [constructor|assumption].
  - simpl in H. inversion H as [|i n' l l' Hi Hl]; subst.
    destruct (IH _ Hl) as [H1 H2].
    destruct l as [|j l]; [destruct sh; inversion Hl|].
    split; [|exact H2]. change (removelast (i :: j :: l)) with (i :: removelast (j :: l)).
    constructor; assumption.
Qed.

(** Split an in-range multi-index of known rank into its coordinates. *)
Ltac split_idx :=
  unfold in_range in *;
  repeat match goal with
         | H : Forall2 lt _ (_ :: _) |- _ =>
             let i := fresh "i" in
             let Hi := fresh "Hi" in
             inversion H as [|i ? ? ? Hi ?]; subst; clear H
         | H : Forall2 lt _ [] |- _ => inversion H; subst; clear H
         end.

Ltac range_tac :=
  unfold in_range; repeat (apply Forall2_cons || apply Forall2_nil).

Lemma divmod_range (k e f : nat) : k < e * f -> k / f < e /\ k mod f < f.
Proof.
  intros H. assert (f <> 0) by nia. split.
  - apply Nat.Div0.div_lt_upper_bound. lia.
  - apply Nat.mod_upper_bound. assumption.
Qed.

(** ** The tensor primitives on [build] normal forms *)

Section OpFacts.
Variable A : Type.
Variable d : A.

Lemma tensor_as_build (t : tensor A) :
  wf t -> t = build (shape t) (get d t).
Proof.
  intros W. apply (tensor_ext d); [assumption|apply wf_build|reflexivity|].
  intros idx H. simpl in H. rewrite get_build by assumption. reflexivity.
Qed.

(** Re-tagging a buffer with a shape of the same size. *)
Lemma retag_build (sh sh' : list nat) (f : list nat -> A) :
  numel sh' = numel sh ->
  mkT sh' (data (build sh f))
  = build sh' (fun idx => f (unravel sh (ravel sh' idx))).
Proof.
  intros E. unfold build; simpl. rewrite E. f_equal.
  apply map_ext_in. intros k Hk. apply in_seq in Hk.
  rewrite ravel_unravel by lia. reflexivity.
Qed.

Lemma reshape_build (spec : list (option nat)) (sh sh' : list nat)
      (f : list nat -> A) :
  resolve_shape (numel sh) spec = Ok sh' ->
  reshape spec (build sh f)
  = Ok (build sh' (fun idx => f (unravel sh (ravel sh' idx)))).
Proof.
  intros H. unfold reshape. cbn [shape build].
  rewrite H. cbn [bind]. f_equal.
  apply retag_build. apply (resolve_shape_numel _ _ H).
Qed.

Lemma split_build (sh : list nat) (f : list nat -> A) (n a m : nat) :
  a < length sh -> n <> 0 -> nth a sh 0 = n * m ->
  split d n a (build sh f)
  = Ok (map (fun k => build (set_nth a m sh)
                        (fun idx => f (set_nth a (k * m + nth a idx 0) idx)))
            (seq 0 n)).
Proof.
  intros Ha Hn Hlen. unfold split, rank. cbn [shape build].
  rewrite Hlen.
  destruct (Nat.ltb_spec a (length sh)); [|lia].
  destruct (Nat.eqb_spec n 0); [contradiction|].
  rewrite (Nat.mul_comm n m), Nat.Div0.mod_mul, Nat.div_mul by assumption.
  cbn [andb negb Nat.eqb]. f_equal.
  apply map_ext_in. intros k Hk. apply in_seq in Hk.
  apply build_ext. intros idx Hidx.
  apply get_build. eapply in_range_set_nth; [eassumption|].
  pose proof (@in_range_nth _ _ Hidx a) as Hi.
  rewrite length_set_nth, nth_set_nth in Hi by assumption.
  specialize (Hi Ha). rewrite Hlen. nia.
Qed.

Lemma unstack_build (sh : list nat) (f : list nat -> A) (a : nat) :
  a < length sh ->
  unstack d a (build sh f)
  = Ok (map (fun k => build (remove_nth a sh)
                        (fun idx => f (insert_nth a k idx)))
            (seq 0 (nth a sh 0))).
Proof.
  intros Ha. unfold unstack, rank. cbn [shape build].
  destruct (Nat.ltb_spec a (length sh)); [|lia]. f_equal.
  apply map_ext_in. intros k Hk. apply in_seq in Hk.
  apply build_ext. intros idx Hidx.
  apply get_build. apply in_range_insert_nth; [assumption|assumption|lia].
Qed.

Lemma stack_build (a n : nat) (sh : list nat) (g : nat -> tensor A)
      (F : nat -> list nat -> A) :
  0 < n -> a <= length sh ->
  (forall k, k < n -> g k = build sh (F k)) ->
  stack d a (map g (seq 0 n))
  = Ok (build (insert_nth a n sh)
          (fun idx => F (nth a idx 0) (remove_nth a idx))).
Proof.
  intros Hn Ha Hg. unfold stack.
  destruct (map_seq_cons g Hn) as [l Hl].
  assert (Hlen : length (map g (seq 0 n)) = n)
    by (rewrite length_map, length_seq; reflexivity).
  assert (Hsame : same_shapes sh (map g (seq 0 n)) = true).
  { apply forallb_map_seq. intros k Hk. rewrite (Hg k Hk). apply shape_eqb_refl. }
  assert (Hnth : forall k, k < n -> nth k (map g (seq 0 n)) (g 0) = build sh (F k)).
  { intros k Hk. rewrite nth_map_seq by assumption. apply Hg, Hk. }
  rewrite Hl in *. unfold rank. rewrite (Hg 0 Hn) in *. cbn [shape build].
  rewrite Hsame, Hlen.
  destruct (Nat.leb_spec a (length sh)); [|lia]. cbn [andb]. f_equal.
  apply build_ext. intros idx Hidx.
  destruct (@in_range_remove_nth a _ _ _ Hidx Ha) as [H1 H2].
  rewrite Hnth by assumption. apply get_build, H1.
Qed.

Lemma map_fn_build (fn : tensor A -> result (tensor A)) (n : nat)
      (sh sh' : list nat) (f : list nat -> A) (F : nat -> list nat -> A) :
  0 < n ->
  (forall k, k < n ->
     fn (build sh (fun idx => f (k :: idx))) = Ok (build sh' (F k))) ->
  map_fn d fn (build (n :: sh) f)
  = Ok (build (n :: sh') (fun idx => F (hd 0 idx) (tl idx))).
Proof.
  intros Hn Hfn. unfold map_fn.
  rewrite unstack_build by (simpl; lia). cbn [bind nth remove_nth].
  rewrite (mapM_map_seq fn _ (fun k => build sh' (F k)))
    by (intros k Hk; apply Hfn; lia).
  cbn [bind].
  rewrite (@stack_build 0 n sh' _ F); [|assumption|simpl; lia|reflexivity].
  reflexivity.
Qed.

Lemma transpose_build (perm sh : list nat) (f : list nat -> A) :
  is_perm (length sh) perm = true ->
  transpose d perm (build sh f)
  = Ok (build (map (fun a => nth a sh 0) perm)
          (fun idx => f (map (fun a => nth (index_of a perm) idx 0)
                             (seq 0 (length sh))))).
Proof.
  intros Hp. unfold transpose, rank. cbn [shape build]. rewrite Hp. f_equal.
  apply build_ext. intros idx Hidx. apply get_build.
  unfold is_perm in Hp. apply andb_prop in Hp. destruct Hp as [Hl Hall].
  apply Nat.eqb_eq in Hl. rewrite forallb_forall in Hall.
  apply in_range_of_nth; [rewrite length_map, length_seq; reflexivity|].
  intros a Ha. rewrite nth_map_seq by assumption.
  destruct (index_of_spec a perm) as [Hj Hnth]; [apply Hall, in_seq; lia|].
  pose proof (@in_range_nth _ _ Hidx (index_of a perm)) as Hi.
  rewrite length_map in Hi. specialize (Hi Hj).
  rewrite (nth_indep (map (fun a => nth a sh 0) perm) 0 (nth 0 sh 0)) in Hi
    by (rewrite length_map; assumption).
  rewrite (map_nth (fun a => nth a sh 0)) in Hi.
  rewrite Hnth in Hi. exact Hi.
Qed.

Lemma extract_patches_build (b h w c p : nat) (f : list nat -> A) :
  0 < p ->
  extract_patches d p (build [b; h; w; c] f)
  = Ok (build [b; h / p; w / p; p * p * c]
          (fun idx => match idx with
                      | [ib; i; j; v] =>
                          f [ib; i * p + v / (p * c); j * p + (v / c) mod p; v mod c]
                      | _ => d
                      end)).
Proof.
  intros Hp. unfold extract_patches. cbn [shape build].
  destruct (Nat.eqb_spec p 0); [lia|]. f_equal.
  apply build_ext. intros idx Hidx. split_idx.
  apply get_build.
  assert (Hc : c <> 0) by (intros ->; lia).
  pose proof (Nat.Div0.mul_div_le h p). pose proof (Nat.Div0.mul_div_le w p).
  assert (i2 / (p * c) < p) by (apply Nat.Div0.div_lt_upper_bound; nia).
  pose proof (Nat.mod_upper_bound (i2 / c) p).
  pose proof (Nat.mod_upper_bound i2 c Hc).
  range_tac; nia || lia.
Qed.

Lemma concat_build (a n m : nat) (sh : list nat) (g : nat -> tensor A)
      (F : nat -> list nat -> A) :
  0 < n -> 0 < m -> a < length sh -> nth a sh 0 = m ->
  (forall k, k < n -> g k = build sh (F k)) ->
  concat d a (map g (seq 0 n))
  = Ok (build (set_nth a (n * m) sh)
          (fun idx => F (nth a idx 0 / m) (set_nth a (nth a idx 0 mod m) idx))).
Proof.
  intros Hn Hm Ha Hlen Hg. unfold concat.
  destruct (map_seq_cons g Hn) as [l Hl].
  assert (Hlens : map (fun t => nth a (shape t) 0) (map g (seq 0 n)) = repeat m n).
  { rewrite map_map, (@map_const _ _ m (seq 0 n)), length_seq; [reflexivity|].
    intros k Hk. apply in_seq in Hk. rewrite (Hg k) by lia. exact Hlen. }
  assert (Hsum : fold_right Nat.add 0 (repeat m n) = n * m).
  { clear. induction n; simpl; lia. }
  assert (Hok : forallb (fun t => shape_eqb (remove_nth a (shape t)) (remove_nth a sh))
                  (map g (seq 0 n)) = true).
  { apply forallb_map_seq. intros k Hk. rewrite (Hg k Hk). apply shape_eqb_refl. }
  assert (Hnth : forall k, k < n -> nth k (map g (seq 0 n)) (g 0) = build sh (F k)).
  { intros k Hk. rewrite nth_map_seq by assumption. apply Hg, Hk. }
  rewrite Hl in *. unfold rank. rewrite (Hg 0 Hn) in *. cbn [shape build].
  rewrite Hlens, Hsum, Hok.
  destruct (Nat.ltb_spec a (length sh)); [|lia]. cbn [andb]. f_equal.
  apply build_ext. intros idx Hidx.
  pose proof (@in_range_nth _ _ Hidx a) as Hi.
  rewrite length_set_nth, nth_set_nth in Hi by assumption. specialize (Hi Ha).
  rewrite locate_repeat by assumption.
  destruct (@divmod_range (nth a idx 0) n m Hi) as [Hq Hr].
  rewrite Hnth by assumption. apply get_build.
  eapply in_range_set_nth; [eassumption|]. rewrite Hlen. assumption.
Qed.

Lemma tf_concat_build (z : Z) (a n m : nat) (sh : list nat) (g : nat -> tensor A)
      (F : nat -> list nat -> A) :
  norm_axis (length sh) z = a ->
  0 < n -> 0 < m -> a < length sh -> nth a sh 0 = m ->
  (forall k, k < n -> g k = build sh (F k)) ->
  tf_concat d z (map g (seq 0 n))
  = Ok (build (set_nth a (n * m) sh)
          (fun idx => F (nth a idx 0 / m) (set_nth a (nth a idx 0 mod m) idx))).
Proof.
  intros Hz Hn Hm Ha Hlen Hg. unfold tf_concat.
  destruct (map_seq_cons g Hn) as [l Hl].
  rewrite Hl. rewrite <- Hl. unfold rank. rewrite (Hg 0 Hn). cbn [shape build].
  rewrite Hz. apply concat_build; assumption.
Qed.
End OpFacts.

Lemma py_floordiv_mul (e p : nat) : 0 < p -> py_floordiv (e * p) p = Ok e.
Proof.
  intros Hp. unfold py_floordiv. destruct (Nat.eqb_spec p 0); [lia|].
  rewrite Nat.div_mul by assumption. reflexivity.
Qed.

Lemma py_mod_mul (e p : nat) : 0 < p -> py_mod (e * p) p = Ok 0.
Proof.
  intros Hp. unfold py_mod. destruct (Nat.eqb_spec p 0); [lia|].
  rewrite Nat.Div0.mod_mul. reflexivity.
Qed.

Lemma horner_lt (i n j m : nat) : i < n -> j < m -> i * m + j < n * m.
Proof. intros Hi Hj. nia. Qed.

Lemma merge_offset (k f m x : nat) :
  k * m + x = k / f * (f * m) + (k mod f * m + x).
Proof.
  pose proof (Nat.div_mod_eq k f) as E.
  rewrite E at 1. ring.
Qed.

Section PatchFacts.
Variable A : Type.
Variable d : A.

Lemma patches_2d_build (p e f : nat) (g : list nat -> A) :
  0 < p -> 0 < e -> 0 < f ->
  ModelTf.patches_2d d p (build [e * p; f * p] g)
  = Ok (build [e * f; p; p]
          (fun idx => match idx with
                      | [k; dy; dx] => g [(k / f) * p + dy; (k mod f) * p + dx]
                      | _ => d
                      end)).
Proof.
  intros Hp He Hf. unfold ModelTf.patches_2d. cbn [shape build].
  rewrite !py_floordiv_mul by assumption. cbn [bind].
  rewrite (@split_build A d _ _ e 0 p) by (simpl; lia). cbn [bind].
  erewrite (@stack_build A d 0 e [p; f * p]); [|assumption|simpl; lia|reflexivity].
  cbn [bind insert_nth].
  erewrite (@map_fn_build A d _ e [p; f * p] [f; p; p]); [|assumption|].
  2:{ intros k Hk.
      rewrite (@split_build A d _ _ f 1 p) by (simpl; lia). cbn [bind].
      erewrite (@stack_build A d 0 f [p; p]); [|assumption|simpl; lia|reflexivity].
      cbn [insert_nth]. reflexivity. }
  cbn [bind].
  rewrite (@reshape_build A _ _ [e * f; p; p]).
  2:{ replace (numel [e; f; p; p]) with ((e * f) * numel [p; p]) by (simpl; ring).
      apply (resolve_shape_head (e * f) [p; p]). simpl. nia. }
  f_equal. apply build_ext. intros idx Hidx. split_idx.
  match goal with H : ?k < e * f |- _ =>
    destruct (@divmod_range k e f H) as [Hq Hr] end.
  rewrite (@unravel_eq [e; f; p; p] [i / f; i mod f; i0; i1]);
    [|range_tac; assumption|simpl; apply merge_offset].
  reflexivity.
Qed.

Lemma tf_patch_build (B e f c p : nat) (g : list nat -> A) :
  0 < B -> 0 < c -> 0 < p -> 0 < e -> 0 < f ->
  ModelTf.patch d (build [B; e * p; f * p; c] g) p
  = Ok (build [B; e * f; p; p; c]
          (fun idx => match idx with
                      | [b; k; dy; dx; ch] =>
                          g [b; (k / f) * p + dy; (k mod f) * p + dx; ch]
                      | _ => d
                      end)).
Proof.
  intros HB Hc Hp He Hf. unfold ModelTf.patch.
  cbn [rank shape build length Nat.eqb bind].
  rewrite !py_mod_mul by assumption. cbn [bind py_assert Nat.eqb].
  rewrite transpose_build by reflexivity.
  cbn [bind map nth length seq index_of Nat.eqb].
  erewrite (@map_fn_build A d _ B [c; e * p; f * p] [c; e * f; p; p]);
    [|assumption|].
  2:{ intros b Hb.
      erewrite (@map_fn_build A d _ c [e * p; f * p] [e * f; p; p]);
        [|assumption|].
      2:{ intros ch Hch. rewrite patches_2d_build by assumption. reflexivity. }
      reflexivity. }
  cbn [bind].
  rewrite transpose_build by reflexivity.
  cbn [map nth length seq index_of Nat.eqb].
  reflexivity.
Qed.

Lemma unfold_build (sh : list nat) (f : list nat -> A) (dim size step : nat) :
  dim < length sh -> size <= nth dim sh 0 -> step <> 0 ->
  unfold d dim size step (build sh f)
  = Ok (build (set_nth dim ((nth dim sh 0 - size) / step + 1) sh ++ [size])
          (fun idx => f (set_nth dim (nth dim (removelast idx) 0 * step
                                      + last idx 0) (removelast idx)))).
Proof.
  intros Hd Hs Hst. unfold unfold, rank. cbn [shape build].
  destruct (Nat.ltb_spec dim (length sh)); [|lia].
  destruct (Nat.leb_spec size (nth dim sh 0)); [|lia].
  destruct (Nat.eqb_spec step 0); [contradiction|].
  cbn [andb negb]. f_equal. apply build_ext. intros idx Hidx.
  apply get_build. destruct (in_range_app_last _ _ Hidx) as [H1 H2].
  eapply in_range_set_nth; [eassumption|].
  pose proof (@in_range_nth _ _ H1 dim) as Hi.
  rewrite length_set_nth, nth_set_nth in Hi by assumption.
  specialize (Hi Hd).
  pose proof (Nat.Div0.mul_div_le (nth dim sh 0 - size) step).
  nia.
Qed.

Lemma unfold_windows (e p : nat) : 0 < p -> 0 < e -> (e * p - p) / p + 1 = e.
Proof.
  intros Hp He. replace (e * p - p) with ((e - 1) * p) by nia.
  rewrite Nat.div_mul by lia. lia.
Qed.

Lemma torch_flatten_23 (t : tensor A) (a0 a1 a2 a3 : nat) (rest : list nat) :
  shape t = a0 :: a1 :: a2 :: a3 :: rest ->
  torch_flatten 2 3 t = Ok (mkT (a0 :: a1 :: a2 * a3 :: rest) (data t)).
Proof.
  intros E. unfold torch_flatten, rank. rewrite E. simpl.
  rewrite Nat.mul_1_r. reflexivity.
Qed.

Lemma unfold_rows (B c e W p : nat) (g : list nat -> A) :
  0 < p -> 0 < e ->
  unfold d 2 p p (build [B; c; e * p; W] g)
  = Ok (build [B; c; e; W; p]
          (fun idx => match idx with
                      | [b; ch; i; x; dy] => g [b; ch; i * p + dy; x]
                      | _ => d
                      end)).
Proof.
  intros Hp He. rewrite unfold_build by (simpl; nia || lia).
  cbn [nth set_nth app]. rewrite unfold_windows by assumption. reflexivity.
Qed.

Lemma unfold_cols (B c e f p q : nat) (g : list nat -> A) :
  0 < p -> 0 < f ->
  unfold d 3 p p (build [B; c; e; f * p; q] g)
  = Ok (build [B; c; e; f; q; p]
          (fun idx => match idx with
                      | [b; ch; i; j; dy; dx] => g [b; ch; i; j * p + dx; dy]
                      | _ => d
                      end)).
Proof.
  intros Hp He. rewrite unfold_build by (simpl; nia || lia).
  cbn [nth set_nth app]. rewrite unfold_windows by assumption. reflexivity.
Qed.

Lemma torch_patch_build (B e f c p : nat) (g : list nat -> A) :
  0 < p -> 0 < e -> 0 < f ->
  Torch.patch d (build [B; c; e * p; f * p] g) p
  = Ok (build [B; e * f; c; p; p]
          (fun idx => match idx with
                      | [b; k; ch; dy; dx] =>
                          g [b; ch; (k / f) * p + dy; (k mod f) * p + dx]
                      | _ => d
                      end)).
Proof.
  intros Hp He Hf. unfold Torch.patch.
  cbn [rank shape build length Nat.eqb Nat.ltb Nat.leb bind Nat.sub nth].
  rewrite !py_mod_mul by assumption. cbn [bind py_assert Nat.eqb].
  rewrite unfold_rows by assumption. cbn [bind].
  rewrite unfold_cols by assumption. cbn [bind].
  rewrite (@torch_flatten_23 _ B c e f [p; p]) by reflexivity.
  rewrite retag_build by (simpl; ring). cbn [bind].
  rewrite transpose_build by reflexivity.
  cbn [map nth length seq index_of Nat.eqb].
  f_equal. apply build_ext. intros idx Hidx. split_idx.
  match goal with H : ?k < e * f |- _ =>
    destruct (@divmod_range k e f H) as [Hq Hr] end.
  cbn [nth].
  rewrite (@unravel_eq [B; c; e; f; p; p] [i; i1; i0 / f; i0 mod f; i2; i3]);
    [reflexivity|range_tac; assumption|].
  simpl. rewrite (merge_offset i0 f). ring.
Qed.
End PatchFacts.

(** ** src/hvit/tf/functions.py: patches, unflatten, unpatch *)

Section HvitFacts.
Variable A : Type.
Variable d : A.

Lemma hvit_patches_build (B e c p : nat) (g : list nat -> A) :
  0 < p -> 0 < e -> 0 < c ->
  Hvit.patches d (build [B; e * p; e * p; c] g) p
  = Ok (build [B; e * e; p * p * c]
          (fun idx => match idx with
                      | [b; k; v] =>
                          g [b; (k / e) * p + v / (p * c);
                             (k mod e) * p + (v / c) mod p; v mod c]
                      | _ => d
                      end)).
Proof.
  intros Hp He Hc. unfold Hvit.patches.
  cbn [rank shape build length Nat.ltb Nat.leb nth].
  rewrite py_floordiv_mul by assumption. cbn [bind].
  rewrite extract_patches_build by assumption. cbn [bind shape build last].
  rewrite !Nat.div_mul by lia.
  rewrite (@reshape_build A _ _ [B; e * e; p * p * c]).
  2:{ replace (numel [B; e; e; p * p * c])
        with (B * numel [e * e; p * p * c]) by (simpl; ring).
      replace (e ^ 2) with (e * e) by (simpl; ring).
      apply (resolve_shape_head B [e * e; p * p * c]). simpl. nia. }
  f_equal. apply build_ext. intros idx Hidx. split_idx.
  match goal with H : ?k < e * e |- _ =>
    destruct (@divmod_range k e e H) as [Hq Hr] end.
  rewrite (@unravel_eq [B; e; e; p * p * c] [i; i0 / e; i0 mod e; i1]);
    [reflexivity|range_tac; assumption|].
  simpl. rewrite (merge_offset i0 e). ring.
Qed.

Lemma int_sqrt_square (n : nat) : int_sqrt (n * n) = n.
Proof. apply Nat.sqrt_square. Qed.

Lemma hvit_unflatten_build (B n c p : nat) (g : list nat -> A) :
  0 < p -> 0 < c -> 0 < n ->
  Hvit.unflatten (build [B; n; p * p * c] g) c
  = Ok (build [B; n; p; p; c]
          (fun idx => match idx with
                      | [b; k; dy; dx; ch] => g [b; k; (dy * p + dx) * c + ch]
                      | _ => d
                      end)).
Proof.
  intros Hp Hc Hn. unfold Hvit.unflatten. cbn [shape build bind].
  rewrite py_floordiv_mul by assumption. cbn [bind].
  rewrite int_sqrt_square.
  rewrite (@reshape_build A _ _ [B; n; p; p; c]).
  2:{ replace (numel [B; n; p * p * c])
        with (B * numel [n; p; p; c]) by (simpl; ring).
      apply (resolve_shape_head B [n; p; p; c]). simpl. nia. }
  f_equal. apply build_ext. intros idx Hidx. split_idx.
  rewrite (@unravel_eq [B; n; p * p * c] [i; i0; (i1 * p + i2) * c + i3]);
    [reflexivity|range_tac; try assumption; repeat apply horner_lt; assumption|].
  simpl. ring.
Qed.

Lemma hvit_unpatch_build (B e p q c : nat) (g : list nat -> A) :
  0 < e -> 0 < p -> 0 < q -> 0 < c ->
  Hvit.unpatch d (build [B; e * e; p; q; c] g) c
  = Ok (build [B; 1; p * e; q * e; c]
          (fun idx => match idx with
                      | [b; _; y; x; ch] =>
                          g [b; (y / p) * e + x / q; y mod p; x mod q; ch]
                      | _ => d
                      end)).
Proof.
  intros He Hp Hq Hc. unfold Hvit.unpatch.
  cbn [rank shape build length Nat.ltb Nat.leb bind].
  rewrite Nat.eqb_refl. cbn [py_assert bind]. rewrite int_sqrt_square.
  rewrite (@split_build A d _ _ e 1 e) by (simpl; lia). cbn [bind].
  erewrite (@stack_build A d 1 e [B; e; p; q; c]);
    [|assumption|simpl; lia|reflexivity].
  cbn [bind insert_nth].
  rewrite unstack_build by (simpl; lia). cbn [bind nth remove_nth].
  erewrite (@tf_concat_build A d (-2) 3 e q [B; e; p; q; c]);
    [|reflexivity|assumption|assumption|simpl; lia|reflexivity|reflexivity].
  cbn [bind set_nth].
  rewrite unstack_build by (simpl; lia). cbn [bind nth remove_nth].
  erewrite (@tf_concat_build A d (-3) 1 e p [B; p; e * q; c]);
    [|reflexivity|assumption|assumption|simpl; lia|reflexivity|reflexivity].
  cbn [bind set_nth].
  rewrite (@reshape_build A _ _ [B; 1; p * e; q * e; c]).
  2:{ replace (numel [B; e * p; e * q; c])
        with (B * numel [1; p * e; q * e; c]) by (simpl; ring).
      apply (resolve_shape_head B [1; p * e; q * e; c]). simpl. nia. }
  f_equal. apply build_ext. intros idx Hidx. split_idx.
  assert (i0 = 0) by lia. subst i0.
  rewrite (@unravel_eq [B; e * p; e * q; c] [i; i1; i2; i3]);
    [|range_tac; assumption || lia|simpl; ring].
  reflexivity.
Qed.
End HvitFacts.

Lemma div_horner (i m j : nat) : j < m -> (i * m + j) / m = i.
Proof.
  intros H. rewrite Nat.div_add_l by lia. rewrite Nat.div_small by assumption. lia.
Qed.

Lemma mod_horner (i m j : nat) : j < m -> (i * m + j) mod m = j.
Proof.
  intros H. rewrite Nat.add_comm, Nat.Div0.mod_add. apply Nat.mod_small, H.
Qed.

Lemma divisible_as_mul (s p : nat) :
  0 < p -> 0 < s -> s mod p = 0 -> s = (s / p) * p /\ 0 < s / p.
Proof.
  intros Hp Hs Hm. pose proof (Nat.div_mod_eq s p) as E. rewrite Hm in E.
  split; [lia|]. destruct (s / p); lia.
Qed.

(** The patch coordinates of a pixel, and the pixel they name. *)
Lemma patch_index_roundtrip (e p c y x ch : nat) :
  0 < p -> 0 < c -> y < e * p -> x < e * p -> ch < c ->
  (y / p * e + x / p) / e * p + ((y mod p * p + x mod p) * c + ch) / (p * c) = y
  /\ (y / p * e + x / p) mod e * p
     + (((y mod p * p + x mod p) * c + ch) / c) mod p = x
  /\ ((y mod p * p + x mod p) * c + ch) mod c = ch.
Proof.
  intros Hp Hc Hy Hx Hch.
  assert (Hxe : x / p < e) by (apply Nat.Div0.div_lt_upper_bound; lia).
  assert (Hyr : y mod p < p) by (apply Nat.mod_upper_bound; lia).
  assert (Hxr : x mod p < p) by (apply Nat.mod_upper_bound; lia).
  rewrite (div_horner _ Hxe), (mod_horner _ Hxe).
  rewrite (div_horner _ Hch), (mod_horner _ Hch), (mod_horner _ Hxr).
  replace ((y mod p * p + x mod p) * c + ch)
    with (y mod p * (p * c) + (x mod p * c + ch)) by ring.
  rewrite div_horner by (apply horner_lt; assumption).
  pose proof (Nat.div_mod_eq y p). pose proof (Nat.div_mod_eq x p).
  repeat split; lia.
Qed.

Section Roundtrip.
Variable A : Type.
Variable d : A.

(** C1 (hvit): patch extraction, then [unflatten], then [unpatch],
    rebuilds the image: the result has shape (batch, 1, s, s, channels)
    and squeezing its singleton axis gives back exactly the input. *)
Theorem hvit_patches_unpatch_roundtrip (X : tensor A) (B s c p : nat) :
  wf X -> shape X = [B; s; s; c] ->
  0 < p -> 0 < s -> 0 < c -> s mod p = 0 ->
  exists P U R,
    Hvit.patches d X p = Ok P /\
    Hvit.unflatten P c = Ok U /\
    Hvit.unpatch d U c = Ok R /\
    shape R = [B; 1; s; s; c] /\
    tf_squeeze 1 R = Ok X.
Proof.
  intros W Hsh Hp Hs Hc Hm.
  destruct (divisible_as_mul Hp Hs Hm) as [Es He].
  set (e := s / p) in *. clearbody e. subst s.
  rewrite (tensor_as_build d W), Hsh.
  do 3 eexists.
  split; [apply hvit_patches_build; assumption|].
  split; [apply (@hvit_unflatten_build A d); assumption || nia|].
  split; [apply hvit_unpatch_build; assumption|].
  split; [cbn [shape build]; rewrite (Nat.mul_comm p e); reflexivity|].
  unfold tf_squeeze. cbn [rank shape build length nth Nat.ltb Nat.leb Nat.eqb andb remove_nth].
  f_equal. rewrite retag_build by (simpl; ring).
  rewrite (Nat.mul_comm p e).
  apply build_ext. intros idx Hidx. split_idx.
  rewrite (@unravel_eq [B; 1; e * p; e * p; c] [i; 0; i0; i1; i2]);
    [|range_tac; assumption || lia|simpl; ring].
  destruct (@patch_index_roundtrip e p c i0 i1 i2) as [E1 [E2 E3]]; try assumption.
  cbv beta iota. rewrite E1, E2, E3. reflexivity.
Qed.
End Roundtrip.

Lemma hvit_patches_unpatch_roundtrip_witness :
  exists P U R,
    Hvit.patches 0 img_4x4x2 2 = Ok P /\
    Hvit.unflatten P 2 = Ok U /\
    Hvit.unpatch 0 U 2 = Ok R /\
    shape R = [1; 1; 4; 4; 2] /\
    tf_squeeze 1 R = Ok img_4x4x2.
Proof.
  apply (@hvit_patches_unpatch_roundtrip nat 0 img_4x4x2 1 4 2 2);
    [reflexivity|reflexivity|lia|lia|lia|reflexivity].
Defined.

Section Frameworks.
Variable A : Type.
Variable d : A.

(** C8: on a channels-last image whose side is a multiple of the patch
    size, the TensorFlow [patch] and the PyTorch [patch] (run on the
    channels-first transpose) produce the same patches: permuting the
    PyTorch result (batch, n, c, p, p) to (batch, n, p, p, c) gives the
    TensorFlow result. *)
Theorem patch_tf_torch_agree (X : tensor A) (B s c p : nat) :
  wf X -> shape X = [B; s; s; c] ->
  0 < B -> 0 < c -> 0 < p -> 0 < s -> s mod p = 0 ->
  exists T Xcf P,
    ModelTf.patch d X p = Ok T /\
    transpose d [0; 3; 1; 2] X = Ok Xcf /\
    Torch.patch d Xcf p = Ok P /\
    shape T = [B; (s / p) * (s / p); p; p; c] /\
    shape P = [B; (s / p) * (s / p); c; p; p] /\
    transpose d [0; 1; 3; 4; 2] P = Ok T.
Proof.
  intros W Hsh HB Hc Hp Hs Hm.
  destruct (divisible_as_mul Hp Hs Hm) as [Es He].
  set (e := s / p) in *. clearbody e. subst s.
  rewrite (tensor_as_build d W), Hsh.
  do 3 eexists.
  split; [apply tf_patch_build; assumption|].
  split; [apply transpose_build; reflexivity|].
  cbn [map nth length seq index_of Nat.eqb].
  split; [apply torch_patch_build; assumption|].
  split; [reflexivity|]. split; [reflexivity|].
  rewrite transpose_build by reflexivity.
  reflexivity.
Qed.
End Frameworks.

Lemma patch_tf_torch_agree_witness :
  exists T Xcf P,
    ModelTf.patch 0 img_4x4x2 2 = Ok T /\
    transpose 0 [0; 3; 1; 2] img_4x4x2 = Ok Xcf /\
    Torch.patch 0 Xcf 2 = Ok P /\
    shape T = [1; (4 / 2) * (4 / 2); 2; 2; 2] /\
    shape P = [1; (4 / 2) * (4 / 2); 2; 2; 2] /\
    transpose 0 [0; 1; 3; 4; 2] P = Ok T.
Proof.
  apply (@patch_tf_torch_agree nat 0 img_4x4x2 1 4 2 2);
    [reflexivity|reflexivity|lia|lia|lia|lia|reflexivity].
Defined.

(** ** Constructors and forward passes of the PyTorch modules *)

Lemma bind_not_ok {T U : Type} (c : result T) (k : T -> result U) :
  (forall v u, k v <> Ok u) -> forall u, bind c k <> Ok u.
Proof. intros H u. destruct c as [v|e]; simpl; [apply H|discriminate]. Qed.

Lemma mapM_squares_ok (img_size : Z) : forall patch_size,
  Forall (fun p => p <> 0%Z) patch_size ->
  mapM (fun patch => q <- py_floordivZ img_size patch ;; Ok (q ^ 2)%Z) patch_size
  = Ok (map (fun patch => (img_size / patch) ^ 2)%Z patch_size).
Proof.
  induction 1 as [|p l Hp _ IH]; cbn [mapM map]; [reflexivity|].
  unfold py_floordivZ at 1. destruct (Z.eqb_spec p 0); [contradiction|].
  cbn [bind]. rewrite IH. reflexivity.
Qed.

Lemma torch_patch_encoder_init_never_returns
      (rt : torch_runtime) (img_size : Z) (patch_size : list Z)
      (num_channels : Z) (device : string) (self : attrs) :
  Torch.PatchEncoder_init rt img_size patch_size num_channels device <> Ok self.
Proof.
  unfold Torch.PatchEncoder_init.
  cbn [get_int get_list get_str getattr setattr bind as_int as_list as_str
       String.eqb Ascii.eqb Bool.eqb].
  repeat (apply bind_not_ok; intros ? ?). discriminate.
Qed.

(** C9 (as amended): the PyTorch [PatchEncoder] cannot be instantiated.
    For no arguments and on no host does [__init__] return; and whenever
    the statements before the embedding have run (at least two patch
    sizes, none of them zero, [torch.arange] and [torch.nn.Linear] have
    returned), the exception is the [AttributeError] for
    [num_patches_final], which no statement assigns. *)
Theorem torch_patch_encoder_init_fails
        (rt : torch_runtime) (img_size : Z) (patch_size : list Z)
        (num_channels : Z) (device : string) :
  (forall self, Torch.PatchEncoder_init rt img_size patch_size num_channels device
                <> Ok self)
  /\ (forall p0 p1 rest positions linear,
      patch_size = p0 :: p1 :: rest ->
      Forall (fun p => p <> 0%Z) patch_size ->
      rt_arange rt ((img_size / (if (p0 >? p1)%Z then p1 else p0)) ^ 2)%Z device
      = Ok positions ->
      rt_Linear rt (num_channels * p0 ^ 2)%Z (num_channels * p0 ^ 2)%Z
      = Ok linear ->
      Torch.PatchEncoder_init rt img_size patch_size num_channels device
      = Error (AttributeError "num_patches_final")).
Proof.
  split.
  - intros self. apply torch_patch_encoder_init_never_returns.
  - intros p0 p1 rest positions linear -> Hnz Hpos Hlin.
    unfold Torch.PatchEncoder_init.
    cbn [get_int get_list get_str getattr setattr bind as_int as_list as_str
         String.eqb Ascii.eqb Bool.eqb].
    rewrite mapM_squares_ok by assumption. cbn [bind].
    cbn [py_index nth_error map bind].
    destruct (p0 >? p1)%Z; rewrite Hpos; cbn [bind]; rewrite Hlin; reflexivity.
Qed.

Lemma torch_patch_encoder_init_fails_witness :
  Torch.PatchEncoder_init cpu_host 128 [16; 8]%Z 1 "cpu"
  = Error (AttributeError "num_patches_final").
Proof.
  apply (proj2 (torch_patch_encoder_init_fails cpu_host 128 [16; 8]%Z 1 "cpu")
           16%Z 8%Z [] (VObj "arange" [256%Z]) (VObj "Linear" [256%Z; 256%Z])).
  - reflexivity.
  - repeat constructor; discriminate.
  - reflexivity.
  - reflexivity.
Defined.

(** Not every argument combination ends in the [AttributeError]: with a
    single patch size the comparison [patch_size[0] > patch_size[1]]
    raises an [IndexError], a zero patch size stops at the floor division,
    and an image size whose patch count exceeds 64 bits stops at
    [torch.arange]; each of them before the unassigned attribute is
    read. *)
Lemma torch_patch_encoder_init_other_errors :
  Torch.PatchEncoder_init cpu_host 128 [16]%Z 1 "cpu" = Error IndexError
  /\ Torch.PatchEncoder_init cpu_host 128 [16; 0]%Z 1 "cpu"
     = Error ZeroDivisionError
  /\ Torch.PatchEncoder_init cpu_host (2 ^ 40) [16; 8]%Z 1 "cpu"
     = Error OverflowError.
Proof. repeat split; reflexivity. Qed.

(** With an integer [patch_size] the two assertions do fire, each with its
    message. *)
Lemma vit_model_init_int_patch_size
      (depth : nat) (depth_te : Z) (linear_list : list Z) (img_size p : Z)
      (num_channels num_heads : Z) (device : string) :
  let init := Torch.ViT_model_init depth depth_te linear_list img_size (PInt p)
                                   num_channels num_heads device in
  ((p mod 2 ^ Z.of_nat depth <> 0)%Z ->
   init = Error (AssertionError Torch.msg_incompatible))
  /\ ((p mod 2 ^ Z.of_nat depth = 0)%Z -> (p / 2 ^ Z.of_nat depth < 4)%Z ->
      init = Error (AssertionError Torch.msg_too_small))
  /\ ((p mod 2 ^ Z.of_nat depth = 0)%Z -> (4 <= p / 2 ^ Z.of_nat depth)%Z ->
      init = Error (AttributeError "preprocessing")).
Proof.
  intros init. subst init. unfold Torch.ViT_model_init.
  assert (Hpow : (2 ^ Z.of_nat depth =? 0)%Z = false).
  { apply Z.eqb_neq. apply Z.pow_nonzero; lia. }
  cbn [arg_mod arg_floordiv]. unfold py_modZ.
  rewrite Hpow. cbn [bind].
  repeat split.
  - intros Hm. apply Z.eqb_neq in Hm. rewrite Hm. reflexivity.
  - intros Hm Hq. apply Z.eqb_eq in Hm. rewrite Hm. cbn [py_assert bind].
    unfold py_floordivZ at 1. rewrite Hpow. cbn [bind].
    apply Z.leb_gt in Hq. rewrite Hq. reflexivity.
  - intros Hm Hq.
    assert (Hp : (p =? 0)%Z = false).
    { apply Z.eqb_neq. intros ->. rewrite Z.div_0_l in Hq; [lia|].
      apply Z.pow_nonzero; lia. }
    apply Z.eqb_eq in Hm. rewrite Hm. cbn [py_assert bind].
    unfold py_floordivZ at 1. rewrite Hpow. cbn [bind].
    apply Z.leb_le in Hq. rewrite Hq.
    cbn [py_assert bind get_int get_list getattr setattr as_int as_list
         patch_arg_val String.eqb Ascii.eqb Bool.eqb].
    unfold py_floordivZ. rewrite Hp. reflexivity.
Qed.

(** C5: what [ViT_model.__init__] raises.  With a list-valued
    [patch_size] (the annotated type, and the default [[16, 8]]) it stops
    at [patch_size % (2**depth)] with a [TypeError], whatever the depth,
    before either assertion is evaluated.  With an integer it raises the
    first assertion when [2**depth] does not divide the patch size, the
    second when the quotient is below 4, and otherwise fails later on the
    unassigned attribute [preprocessing]. *)
Theorem vit_model_init_list_patch_size
        (depth : nat) (depth_te : Z) (linear_list : list Z) (img_size : Z)
        (num_channels num_heads : Z) (device : string) :
  (forall sizes,
      Torch.ViT_model_init depth depth_te linear_list img_size (PList sizes)
                           num_channels num_heads device
      = Error TypeError)
  /\ (forall p,
      Torch.ViT_model_init depth depth_te linear_list img_size (PInt p)
                           num_channels num_heads device
      = Error (if (p mod 2 ^ Z.of_nat depth =? 0)%Z
               then if (4 <=? p / 2 ^ Z.of_nat depth)%Z
                    then AttributeError "preprocessing"
                    else AssertionError Torch.msg_too_small
               else AssertionError Torch.msg_incompatible)).
Proof.
  split; [reflexivity|]. intros p.
  destruct (vit_model_init_int_patch_size depth depth_te linear_list img_size p
              num_channels num_heads device) as [H1 [H2 H3]].
  destruct (Z.eqb_spec (p mod 2 ^ Z.of_nat depth) 0) as [Hm|Hm].
  - destruct (Z.leb_spec 4 (p / 2 ^ Z.of_nat depth)) as [Hq|Hq].
    + apply H3; assumption.
    + apply H2; assumption.
  - apply H1; assumption.
Qed.

Section TorchLayerFacts.
Variable A : Type.
Variable d : A.
Variable add mul : A -> A -> A.
Variable zero : A.
Variable softmax : tensor A -> result (tensor A).

(** [forward] has a [return] only under [patch_size[0] > patch_size[1]]. *)
Lemma torch_patch_encoder_forward_falls_through
      (self : Torch.PatchEncoder A) (X : tensor A) (p0 p1 : nat) (rest : list nat) :
  Torch.pe_patch_size self = p0 :: p1 :: rest -> p0 <= p1 ->
  Torch.PatchEncoder_forward d add mul self X = Ok None.
Proof.
  intros Hps Hle. unfold Torch.PatchEncoder_forward. rewrite Hps.
  cbn [py_index nth_error bind].
  destruct (Nat.ltb_spec p1 p0); [lia|reflexivity].
Qed.

(** C10: with [apply_transform = False] the PyTorch [ReAttention.forward]
    never returns; once the statements up to the attention dropout have
    run, it stops at the read of the local [attn_norm], which only the
    [apply_transform] branch assigns. *)
Theorem torch_reattention_forward_unbound
        (self : Torch.ReAttention A) (x : tensor A) :
  Torch.ra_apply_transform self = false ->
  (forall r, Torch.ReAttention_forward d add mul zero softmax self x <> Ok r)
  /\ (forall B N C s v a,
        shape x = [B; N; C] ->
        Torch.soft_scores d add mul zero softmax self x B N C = Ok (s, v) ->
        Torch.ra_attn_drop self s = Ok a ->
        Torch.ReAttention_forward d add mul zero softmax self x
        = Error (UnboundLocalError "attn_norm")).
Proof.
  intros Hat. unfold Torch.ReAttention_forward. rewrite Hat. split.
  - intros r. destruct (shape x) as [|B [|N [|C [|? ?]]]]; try discriminate.
    apply bind_not_ok. intros [s v] r1.
    apply bind_not_ok. intros a r2. discriminate.
  - intros B N C s v a Hsh Hs Ha. rewrite Hsh, Hs. cbn [bind].
    rewrite Ha. reflexivity.
Qed.
End TorchLayerFacts.



Lemma torch_reattention_forward_unbound_witness :
  Torch.ReAttention_forward 0%Z Z.add Z.mul 0%Z softmax_singleton
    (torch_reattention false unit_layer) tokens_1x1x4
  = Error (UnboundLocalError "attn_norm").
Proof.
  eapply (proj2 (@torch_reattention_forward_unbound Z 0%Z Z.add Z.mul 0%Z
                   softmax_singleton (torch_reattention false unit_layer)
                   tokens_1x1x4 eq_refl) 1 1 4);
    reflexivity.
Defined.

(** ** Re-attention *)

Lemma bind_ok_inv {T U : Type} (c : result T) (k : T -> result U) (u : U) :
  bind c k = Ok u -> exists v, c = Ok v /\ k v = Ok u.
Proof. destruct c as [v|e]; simpl; [eauto|discriminate]. Qed.

Ltac bind_inv H :=
  let v := fresh "v" in
  let E := fresh "E" in
  apply bind_ok_inv in H; destruct H as [v [E H]].

Section ReAttentionFacts.
Variable A : Type.
Variable d : A.
Variable add mul : A -> A -> A.
Variable zero : A.
Variable softmax : tensor A -> result (tensor A).
Variable gelu : tensor A -> tensor A.

Lemma hvit_reattention_call_shape (self : Hvit.ReAttention A) (x : tensor A)
      (out attn_next : tensor A) :
  Hvit.ra_apply_transform self = true ->
  Hvit.ReAttention_call d add mul zero softmax gelu self x = Ok (out, attn_next) ->
  exists b N C probs dropped v,
    shape x = [b; N; C] /\
    Hvit.softmax_scores d add mul zero softmax gelu self x = Ok probs /\
    Hvit.ra_attn_drop self probs = Ok dropped /\
    Hvit.reatten mul self dropped = Ok attn_next /\
    Hvit.create_queries d gelu self x "v" = Ok v /\
    Hvit.attend d add mul zero self N C attn_next v = Ok out.
Proof.
  intros Hat H. unfold Hvit.ReAttention_call in H.
  destruct (shape x) as [|b [|N [|C [|? ?]]]] eqn:Hsh; try discriminate.
  rewrite Hat in H.
  bind_inv H. bind_inv H. bind_inv H. bind_inv H. bind_inv H. bind_inv H.
  bind_inv H. bind_inv H. bind_inv H. bind_inv H. bind_inv H. bind_inv H.
  injection H as <- <-.
  exists b, N, C, v3, v4, v1.
  unfold Hvit.softmax_scores, Hvit.reatten, Hvit.attend.
  rewrite E, E0. cbn [bind]. rewrite E2. cbn [bind].
  rewrite E6. cbn [bind]. rewrite E7. cbn [bind]. rewrite E8. cbn [bind].
  rewrite E9. cbn [bind].
  repeat split; assumption.
Qed.

Lemma torch_reattention_forward_shape (self : Torch.ReAttention A) (x : tensor A)
      (out attn_next : tensor A) :
  Torch.ReAttention_forward d add mul zero softmax self x = Ok (out, attn_next) ->
  Torch.ra_apply_transform self = true /\
  exists B N C probs dropped v,
    shape x = [B; N; C] /\
    Torch.soft_scores d add mul zero softmax self x B N C = Ok (probs, v) /\
    Torch.ra_attn_drop self probs = Ok dropped /\
    Torch.reatten mul self dropped = Ok attn_next /\
    Torch.attend d add mul zero self B N C attn_next v = Ok out.
Proof.
  intros H. unfold Torch.ReAttention_forward in H.
  destruct (shape x) as [|B [|N [|C [|? ?]]]] eqn:Hsh; try discriminate.
  bind_inv H. destruct v as [probs v]. bind_inv H.
  destruct (Torch.ra_apply_transform self) eqn:Hat.
  2:{ cbn [bind Torch.read_local] in H. discriminate. }
  split; [reflexivity|].
  bind_inv H.
  destruct v1 as [t|]; [|cbn in H; discriminate].
  cbn [Torch.read_local bind] in H.
  bind_inv H. bind_inv H. bind_inv H. bind_inv H. bind_inv H.
  injection H as <- <-.
  exists B, N, C, probs, v0, v.
  unfold Torch.reatten, Torch.attend.
  rewrite E2. cbn [bind]. rewrite E3. cbn [bind]. rewrite E4. cbn [bind].
  rewrite E5. cbn [bind].
  repeat split; try assumption.
  bind_inv E1. bind_inv E1. injection E1 as <-.
  rewrite E7. cbn [bind]. rewrite E8. reflexivity.
Qed.
End ReAttentionFacts.

(** C7 (as amended): in [ReAttention.call] / [forward] with
    [apply_transform] set, the re-attention transform (1x1 convolution,
    batch normalisation, scaling by [reatten_scale]) is applied to the
    softmax-normalised scaled dot-product scores after they have passed
    the attention dropout layer; the transformed map is both the returned
    attention map and the map multiplied with the values. *)
Theorem reattention_transform_after_dropout
        (A : Type) (d : A) (add mul : A -> A -> A) (zero : A)
        (softmax : tensor A -> result (tensor A)) (gelu : tensor A -> tensor A) :
  (forall (self : Hvit.ReAttention A) (x out attn_next : tensor A),
      Hvit.ra_apply_transform self = true ->
      Hvit.ReAttention_call d add mul zero softmax gelu self x = Ok (out, attn_next) ->
      exists b N C probs dropped v,
        shape x = [b; N; C] /\
        Hvit.softmax_scores d add mul zero softmax gelu self x = Ok probs /\
        Hvit.ra_attn_drop self probs = Ok dropped /\
        Hvit.reatten mul self dropped = Ok attn_next /\
        Hvit.create_queries d gelu self x "v" = Ok v /\
        Hvit.attend d add mul zero self N C attn_next v = Ok out)
  /\ (forall (self : Torch.ReAttention A) (x out attn_next : tensor A),
      Torch.ra_apply_transform self = true ->
      Torch.ReAttention_forward d add mul zero softmax self x = Ok (out, attn_next) ->
      exists B N C probs dropped v,
        shape x = [B; N; C] /\
        Torch.soft_scores d add mul zero softmax self x B N C = Ok (probs, v) /\
        Torch.ra_attn_drop self probs = Ok dropped /\
        Torch.reatten mul self dropped = Ok attn_next /\
        Torch.attend d add mul zero self B N C attn_next v = Ok out).
Proof.
  split.
  - intros self x out attn_next Hat H.
    exact (hvit_reattention_call_shape _ _ _ _ _ _ _ _ Hat H).
  - intros self x out attn_next _ H.
    exact (proj2 (torch_reattention_forward_shape _ _ _ _ _ _ _ H)).
Qed.

Lemma reattention_transform_after_dropout_witness :
  exists b N C probs dropped v,
    shape tokens_1x1x4 = [b; N; C] /\
    Hvit.softmax_scores 0%Z Z.add Z.mul 0%Z softmax_singleton no_activation
      hvit_reattention_eval tokens_1x1x4 = Ok probs /\
    Hvit.ra_attn_drop hvit_reattention_eval probs = Ok dropped /\
    Hvit.reatten Z.mul hvit_reattention_eval dropped
    = Ok (mkT [1; 2; 1; 1] [1; 1]%Z) /\
    Hvit.create_queries 0%Z no_activation hvit_reattention_eval tokens_1x1x4 "v"
    = Ok v /\
    Hvit.attend 0%Z Z.add Z.mul 0%Z hvit_reattention_eval N C
      (mkT [1; 2; 1; 1] [1; 1]%Z) v
    = Ok (mkT [1; 1; 4] [1; 2; 3; 4]%Z).
Proof.
  apply (proj1 (reattention_transform_after_dropout 0%Z Z.add Z.mul 0%Z
                  softmax_singleton no_activation)
           hvit_reattention_eval tokens_1x1x4); reflexivity.
Defined.

(** With the attention dropout active, the returned map is not the
    transform of the softmax output: here every cell is dropped, the
    softmax output is constantly 1 and the returned map is 0. *)
Lemma reattention_map_not_transform_of_softmax :
  exists out attn_next probs t,
    Hvit.ra_apply_transform hvit_reattention_dropping = true /\
    Hvit.ReAttention_call 0%Z Z.add Z.mul 0%Z softmax_singleton no_activation
      hvit_reattention_dropping tokens_1x1x4 = Ok (out, attn_next) /\
    Hvit.softmax_scores 0%Z Z.add Z.mul 0%Z softmax_singleton no_activation
      hvit_reattention_dropping tokens_1x1x4 = Ok probs /\
    Hvit.reatten Z.mul hvit_reattention_dropping probs = Ok t /\
    t <> attn_next.
Proof.
  exists (mkT [1; 1; 4] [0; 0; 0; 0]%Z), (mkT [1; 2; 1; 1] [0; 0]%Z),
         (mkT [1; 2; 1; 1] [1; 1]%Z), (mkT [1; 2; 1; 1] [1; 1]%Z).
  repeat split; try reflexivity. discriminate.
Qed.

(** When the attention dropout is inactive the returned map is the
    transform of the softmax output itself. *)
Lemma hvit_reattention_inference
      (A : Type) (d : A) (add mul : A -> A -> A) (zero : A)
      (softmax : tensor A -> result (tensor A)) (gelu : tensor A -> tensor A)
      (self : Hvit.ReAttention A) (x out attn_next probs : tensor A) :
  Hvit.ra_apply_transform self = true ->
  (forall t, Hvit.ra_attn_drop self t = Ok t) ->
  Hvit.ReAttention_call d add mul zero softmax gelu self x = Ok (out, attn_next) ->
  Hvit.softmax_scores d add mul zero softmax gelu self x = Ok probs ->
  Hvit.reatten mul self probs = Ok attn_next.
Proof.
  intros Hat Hid H Hp.
  destruct (hvit_reattention_call_shape _ _ _ _ _ _ _ _ Hat H)
    as (b & N & C & probs' & dropped & v & _ & Hp' & Hd & Hr & _).
  rewrite Hp in Hp'. injection Hp' as <-.
  rewrite Hid in Hd. injection Hd as <-. exact Hr.
Qed.

(** ** hvit [Resampling.__init__] *)

(** *** The double-precision root, below [2 ^ 52] *)

Section NumpyRoot.
Local Open Scope Z_scope.

Lemma rounded_root_between (q t P r : Z) :
0 <= t -> t * t <= q < (t + 1) * (t + 1) -> 2 * t + 1 < P ->
0 <= r -> r * r <= q * P * P < (r + 1) * (r + 1) ->
(q = t * t -> (if r <? q * P * P - r * r then r + 1 else r) = t * P)
/\ (q <> t * t ->
    t * P < (if r <? q * P * P - r * r then r + 1 else r) < (t + 1) * P).
Proof.
intros Ht [Hq1 Hq2] HP Hr [Hr1 Hr2].
assert (HP0 : 0 < P) by lia.
split.
- intros ->.
  assert (E : r = t * P).
  { assert (r <= t * P) by nia. assert (t * P <= r) by nia. lia. }
  subst r. destruct (Z.ltb_spec (t * P) (t * t * P * P - t * P * (t * P))); [|reflexivity].
  nia.
- intros Hne.
  assert (Hq : t * t + 1 <= q) by lia.
  assert (Hq' : q + 1 <= (t + 1) * (t + 1)) by lia.
  assert (HPP : (2 * t + 1) * P + P <= P * P) by nia.
  assert (L : t * P + 1 <= r).
  { assert (~ r <= t * P); [|lia]. intros Hle.
    assert ((r + 1) * (r + 1) <= (t * P + 1) * (t * P + 1)) by nia.
    assert ((t * t + 1) * (P * P) <= q * (P * P)) by (apply Z.mul_le_mono_nonneg_r; nia).
    nia. }
  assert (U : r + 1 <= (t + 1) * P).
  { assert (~ (t + 1) * P <= r); [|lia]. intros Hle.
    assert ((t + 1) * P * ((t + 1) * P) <= r * r) by nia.
    assert ((q + 1) * (P * P) <= (t + 1) * (t + 1) * (P * P)) by (apply Z.mul_le_mono_nonneg_r; nia).
    nia. }
  destruct (Z.ltb_spec r (q * P * P - r * r)) as [Hup|Hup]; [|lia].
  split; [lia|].
  assert (~ r + 1 = (t + 1) * P); [|lia]. intros E.
  assert (r = (t + 1) * P - 1) by lia. subst r.
  assert ((q + 1) * (P * P) <= (t + 1) * (t + 1) * (P * P)) by (apply Z.mul_le_mono_nonneg_r; nia).
  nia.
Qed.

Lemma double_of_int_small (q : Z) : 0 <= q < 2 ^ 52 -> double_of_int q = q.
Proof.
intros [H0 H1]. unfold double_of_int.
assert (Z.log2 q <= 52).
{ destruct (Z.eq_dec q 0) as [->|]; [cbn; lia|].
  assert (Z.log2 q < 52) by (apply Z.log2_lt_pow2; lia). lia. }
destruct (Z.leb_spec (Z.log2 q - 52) 0); [reflexivity|lia].
Qed.

(** Below [2 ^ 52] the rounded root decides exactly: its integer part is
  the integer root, and it is an integer just for the perfect squares. *)
Lemma double_sqrt_small (q : Z) :
0 <= q < 2 ^ 52 ->
exists m s,
  double_sqrt q = (m, s) /\ m / 2 ^ s = Z.sqrt q
  /\ (Z.sqrt q * 2 ^ s =? m) = (Z.sqrt q * Z.sqrt q =? q).
Proof.
intros [H0 H1]. unfold double_sqrt.
set (t := Z.sqrt q). set (k := Z.log2 t). set (s := 52 - k).
set (P := 2 ^ s).
pose proof (Z.sqrt_spec q H0) as Hq. fold t in Hq. cbv zeta in Hq.
assert (Ht : 0 <= t) by apply Z.sqrt_nonneg.
assert (Ht26 : t < 2 ^ 26).
{ assert (~ 2 ^ 26 <= t); [|lia]. intros Hle.
  assert (2 ^ 26 * 2 ^ 26 <= t * t) by nia.
  change (2 ^ 26 * 2 ^ 26) with (2 ^ 52) in *. lia. }
assert (Hk : 0 <= k <= 25 /\ t < 2 ^ (k + 1)).
{ unfold k. destruct (Z.eq_dec t 0) as [->|Hne]; [cbn; lia|].
  assert (0 < t) by lia.
  pose proof (Z.log2_spec t H) as Hs.
  assert (Z.log2 t < 26) by (apply Z.log2_lt_pow2; lia).
  pose proof (Z.log2_nonneg t).
  replace (Z.succ (Z.log2 t)) with (Z.log2 t + 1) in Hs by lia. lia. }
destruct Hk as [Hk Htk].
assert (HP : 2 * t + 1 < P).
{ unfold P, s.
  assert (2 ^ (k + 2) <= 2 ^ (52 - k)) by (apply Z.pow_le_mono_r; lia).
  replace (k + 2) with ((k + 1) + 1) in H by lia.
  rewrite (Z.pow_add_r 2 (k + 1) 1) in H by lia.
  change (2 ^ 1) with 2 in H. lia. }
set (n := q * P * P).
assert (Hn : 0 <= n) by (unfold n; nia).
pose proof (Z.sqrt_spec n Hn) as Hr. cbv zeta in Hr.
pose proof (Z.sqrt_nonneg n) as Hr0.
destruct (@rounded_root_between q t P (Z.sqrt n) Ht Hq HP Hr0) as [Hsq Hns].
{ unfold n in Hr. replace (Z.succ (Z.sqrt (q * P * P))) with (Z.sqrt (q * P * P) + 1) in Hr by lia.
  exact Hr. }
fold n in Hsq, Hns.
set (m := if Z.sqrt n <? n - Z.sqrt n * Z.sqrt n
          then Z.sqrt n + 1 else Z.sqrt n) in *.
exists m, s. split; [reflexivity|]. fold P.
assert (HP0 : 0 < P) by lia.
destruct (Z.eq_dec q (t * t)) as [E|E].
- rewrite (Hsq E). split.
  + apply Z.div_mul. lia.
  + rewrite Z.eqb_refl. symmetry. apply Z.eqb_eq. lia.
- specialize (Hns E). split.
  + symmetry. apply (Z.div_unique m P t (m - t * P)); lia.
  + transitivity false; [apply Z.eqb_neq; lia|symmetry; apply Z.eqb_neq; lia].
Qed.

Lemma np_sqrt_small (q : Z) :
0 <= q < 2 ^ 52 -> np_sqrt q = Ok (Some (double_sqrt q)).
Proof.
intros H. unfold np_sqrt. rewrite (double_of_int_small H).
destruct (Z.ltb_spec q (- 2 ^ 63)); [lia|].
destruct (Z.leb_spec (2 ^ 64) q); [lia|]. cbn [orb].
destruct (Z.ltb_spec q 0); [lia|reflexivity].
Qed.

Lemma int_np_sqrt_exact (q : Z) :
0 <= q < 2 ^ 52 -> int_np_sqrt q = Ok (Z.sqrt q).
Proof.
intros H. unfold int_np_sqrt. rewrite (np_sqrt_small H). cbn [bind].
destruct (double_sqrt_small H) as (m & s & E & Hi & _).
rewrite E. cbn [int_of_double]. rewrite Hi. reflexivity.
Qed.

Lemma sqrt_is_integral_exact (q : Z) :
0 <= q < 2 ^ 52 ->
sqrt_is_integral q = Ok (Z.sqrt q * Z.sqrt q =? q).
Proof.
intros H. unfold sqrt_is_integral.
rewrite (int_np_sqrt_exact H), (np_sqrt_small H). cbn [bind].
destruct (double_sqrt_small H) as (m & s & E & _ & Hb).
rewrite E. cbn [int_eq_double]. rewrite Hb. reflexivity.
Qed.

Lemma int_np_sqrt_negative (q : Z) :
- 2 ^ 63 <= q < 0 -> int_np_sqrt q = Error ValueError.
Proof.
intros H. unfold int_np_sqrt, np_sqrt.
destruct (Z.ltb_spec q (- 2 ^ 63)); [lia|].
destruct (Z.leb_spec (2 ^ 64) q); [lia|]. cbn [orb].
destruct (Z.ltb_spec q 0); [reflexivity|lia].
Qed.
End NumpyRoot.

Lemma sqrt_check_square (q : Z) :
  (0 <= q)%Z -> ((Z.sqrt q * Z.sqrt q =? q)%Z = true <-> perfect_square q).
Proof.
  intros Hq. rewrite Z.eqb_eq. split.
  - intros E. exists (Z.sqrt q). split; [apply Z.sqrt_nonneg|congruence].
  - intros [k [Hk ->]]. rewrite Z.sqrt_square by assumption. reflexivity.
Qed.

Lemma mapM_map {T U : Type} (f : T -> result U) (g : T -> U) (l : list T) :
  (forall x, In x l -> f x = Ok (g x)) -> mapM f l = Ok (map g l).
Proof.
  induction l as [|x l IH]; intros H; cbn [mapM map]; [reflexivity|].
  rewrite H by (left; reflexivity). cbn [bind].
  rewrite IH by (intros y Hy; apply H; right; exact Hy). reflexivity.
Qed.

Lemma patch_sides_given (num_channels v : Z) (patch_size : list Z) :
  num_channels <> 0%Z -> (0 <= v / num_channels < 2 ^ 52)%Z ->
  Hvit.patch_sides num_channels
    (Hvit.default_projection num_channels (Some v) patch_size)
  = Ok (map (fun _ => Z.sqrt (v / num_channels)) patch_size).
Proof.
  intros Hnc Hq. unfold Hvit.patch_sides, Hvit.default_projection.
  rewrite (mapM_map _ (fun _ => Z.sqrt (v / num_channels))), map_map; [reflexivity|].
  intros x Hx. apply in_map_iff in Hx. destruct Hx as [p [<- _]].
  unfold py_floordivZ. destruct (Z.eqb_spec num_channels 0); [contradiction|].
  cbn [bind]. apply int_np_sqrt_exact. assumption.
Qed.

Lemma sqrt_of_square (p : Z) : Z.sqrt (p ^ 2) = Z.abs p.
Proof.
  replace (p ^ 2)%Z with (p * p)%Z by ring.
  rewrite <- Z.abs_square. apply Z.sqrt_square. apply Z.abs_nonneg.
Qed.

Lemma patch_sides_default (num_channels : Z) (patch_size : list Z) :
  num_channels <> 0%Z ->
  Forall (fun p => (p ^ 2 < 2 ^ 52)%Z) patch_size ->
  Hvit.patch_sides num_channels
    (Hvit.default_projection num_channels None patch_size)
  = Ok (map Z.abs patch_size).
Proof.
  intros Hnc Hb. unfold Hvit.patch_sides, Hvit.default_projection.
  rewrite (mapM_map _ (fun x => Z.sqrt (x / num_channels))), !map_map.
  - f_equal. apply map_ext. intros p.
    rewrite Z.mul_comm, Z.div_mul by assumption. apply sqrt_of_square.
  - intros x Hx. apply in_map_iff in Hx. destruct Hx as [p [<- Hp]].
    unfold py_floordivZ. destruct (Z.eqb_spec num_channels 0); [contradiction|].
    cbn [bind]. apply int_np_sqrt_exact.
    rewrite Z.mul_comm, Z.div_mul by assumption.
    rewrite Forall_forall in Hb. specialize (Hb p Hp).
    split; [|assumption].
    apply Z.pow_even_nonneg. exists 1%Z. reflexivity.
Qed.

(** C6 (as amended): in hvit [Resampling.__init__] with
    [resampling_type='conv'], once [num_patches] and [pool_size] have been
    computed and with a non-zero channel count: a given [projection_dim]
    whose quotient by [num_channels] lies in [0, 2 ** 52) and is not a
    perfect square fails the assertion; a perfect-square quotient below
    [2 ** 52], or no [projection_dim] at all (patch sizes below
    [2 ** 26]), passes it, and [projection_dim] and [ps] are assigned. *)
Theorem resampling_conv_projection_check
        (img_size : Z) (patch_size : list Z) (num_channels : Z)
        (num_patches : list Z) (pool_size : Z) :
  Hvit.Resampling_grid img_size patch_size = Ok (num_patches, pool_size) ->
  num_channels <> 0%Z ->
  (forall v, (0 <= v / num_channels < 2 ^ 52)%Z ->
     ~ perfect_square (v / num_channels) ->
     Hvit.Resampling_init img_size patch_size num_channels (Some v) "conv"
     = Error (AssertionError Hvit.msg_conv_square))
  /\ (forall v, (v / num_channels < 2 ^ 52)%Z ->
      perfect_square (v / num_channels) ->
      Hvit.Resampling_attributes img_size patch_size num_channels (Some v) "conv"
      = Ok (Hvit.mkResampling img_size patch_size num_patches pool_size
              num_channels "conv"
              (map (fun _ => v) patch_size)
              (Some (map (fun _ => Z.sqrt (v / num_channels)) patch_size))))
  /\ (Forall (fun p => (p ^ 2 < 2 ^ 52)%Z) patch_size ->
      Hvit.Resampling_attributes img_size patch_size num_channels None "conv"
      = Ok (Hvit.mkResampling img_size patch_size num_patches pool_size
              num_channels "conv"
              (map (fun p => num_channels * p ^ 2)%Z patch_size)
              (Some (map Z.abs patch_size)))).
Proof.
  intros Hgrid Hnc.
  assert (Hdiv : forall v, py_floordivZ v num_channels = Ok (v / num_channels)%Z).
  { intros v. unfold py_floordivZ.
    destruct (Z.eqb_spec num_channels 0); [contradiction|reflexivity]. }
  repeat split.
  - intros v Hq Hns. unfold Hvit.Resampling_init, Hvit.Resampling_attributes.
    cbn [existsb String.eqb Ascii.eqb Bool.eqb orb py_assert bind].
    rewrite Hgrid. cbn [bind]. rewrite Hdiv. cbn [bind].
    rewrite (sqrt_is_integral_exact Hq). cbn [bind].
    destruct (Z.sqrt (v / num_channels) * Z.sqrt (v / num_channels)
              =? v / num_channels)%Z eqn:E; [|reflexivity].
    exfalso. apply Hns. apply sqrt_check_square; [lia|assumption].
  - intros v Hb Hsq.
    assert (Hq : (0 <= v / num_channels < 2 ^ 52)%Z)
      by (destruct Hsq as [k [Hk E]]; rewrite E in *; nia).
    unfold Hvit.Resampling_attributes.
    cbn [existsb String.eqb Ascii.eqb Bool.eqb orb py_assert bind].
    rewrite Hgrid. cbn [bind]. rewrite Hdiv. cbn [bind].
    rewrite (sqrt_is_integral_exact Hq). cbn [bind].
    apply sqrt_check_square in Hsq; [|lia]. rewrite Hsq.
    cbn [py_assert bind]. rewrite patch_sides_given by assumption.
    reflexivity.
  - intros Hb. unfold Hvit.Resampling_attributes.
    cbn [existsb String.eqb Ascii.eqb Bool.eqb orb py_assert bind].
    rewrite Hgrid. cbn [bind py_assert].
    rewrite patch_sides_default by assumption.
    reflexivity.
Qed.

Lemma not_square_200 : ~ perfect_square 200.
Proof.
  intros [k [Hk E]]. assert (k < 15)%Z by nia. assert (14 < k)%Z by nia. lia.
Qed.

Lemma resampling_conv_projection_check_witness :
  Hvit.Resampling_init 128 [8; 16]%Z 1 (Some 200%Z) "conv"
  = Error (AssertionError Hvit.msg_conv_square).
Proof.
  apply (proj1 (@resampling_conv_projection_check 128 [8; 16]%Z 1 [256; 64]%Z 4
                  eq_refl ltac:(discriminate)) 200%Z).
  - change (200 / 1)%Z with 200%Z. lia.
  - exact not_square_200.
Defined.

(** The claim as it was stated fails at both ends of the range.  The
    check is made in double precision: [10 ** 16 + 1] is not a perfect
    square, its nearest double is [10 ** 16], whose root is the integer
    [10 ** 8], so the assertion passes and the layer is built.  And for a
    negative quotient [int] rejects the NaN root with a [ValueError]
    before the comparison. *)
Lemma resampling_conv_check_in_double_precision :
  ~ perfect_square (10 ^ 16 + 1)
  /\ Hvit.Resampling_init 128 [8; 16]%Z 1 (Some (10 ^ 16 + 1)%Z) "conv"
     = Ok (Hvit.mkResampling 128 [8; 16]%Z [256; 64]%Z 4 1 "conv"
             [10 ^ 16 + 1; 10 ^ 16 + 1]%Z (Some [10 ^ 8; 10 ^ 8]%Z))
  /\ ~ perfect_square (-4)
  /\ Hvit.Resampling_init 128 [8; 16]%Z 1 (Some (-4)%Z) "conv"
     = Error ValueError.
Proof.
  split; [|split; [|split]].
  - intros [k [Hk E]].
    assert (k < 10 ^ 8 + 1)%Z by nia. assert (10 ^ 8 < k)%Z by nia. lia.
  - vm_compute. reflexivity.
  - intros [k [Hk E]]. nia.
  - vm_compute. reflexivity.
Qed.

(** ** Patch size and image size *)

Lemma py_mod_nonzero (a p : nat) : 0 < p -> py_mod a p = Ok (a mod p).
Proof. intros H. unfold py_mod. destruct (Nat.eqb_spec p 0); [lia|reflexivity]. Qed.

Lemma reshape_error {A : Type} (spec : list (option nat)) (t : tensor A) (e : exn) :
  reshape spec t = Error e -> e = InvalidArgumentError.
Proof.
  unfold reshape, resolve_shape.
  destruct (count_infer spec) as [|[|n]]; cbn [bind];
    repeat match goal with
           | |- context [if ?c then _ else _] => destruct c; cbn [bind]
           end; congruence.
Qed.

Section Divisibility.
Variable A : Type.
Variable d : A.

Lemma tf_patch_asserts (X : tensor A) (B h w c p : nat) :
  shape X = [B; h; w; c] -> 0 < p -> h mod p <> 0 \/ w mod p <> 0 ->
  exists msg, ModelTf.patch d X p = Error (AssertionError msg).
Proof.
  intros Hsh Hp Hnd. unfold ModelTf.patch, rank. rewrite Hsh.
  cbn [length Nat.eqb bind]. rewrite Hsh. rewrite !py_mod_nonzero by assumption.
  cbn [bind]. destruct (Nat.eqb_spec (h mod p) 0) as [Eh|Eh].
  - cbn [py_assert bind]. destruct (Nat.eqb_spec (w mod p) 0) as [Ew|Ew]; [lia|].
    eexists. reflexivity.
  - eexists. reflexivity.
Qed.

Lemma tf_patches_asserts (X : tensor A) (B h w c p : nat) :
  shape X = [B; h; w; c] -> 0 < p -> h mod p <> 0 \/ w mod p <> 0 ->
  exists msg, ModelTfFunctions.patches d X p = Error (AssertionError msg).
Proof. apply tf_patch_asserts. Qed.

Lemma torch_patch_asserts (X : tensor A) (B h w c p : nat) :
  shape X = [B; c; h; w] -> 0 < p -> h mod p <> 0 \/ w mod p <> 0 ->
  exists msg, Torch.patch d X p = Error (AssertionError msg).
Proof.
  intros Hsh Hp Hnd. unfold Torch.patch, rank. rewrite Hsh.
  cbn [length Nat.eqb bind]. rewrite Hsh.
  cbn [length Nat.ltb Nat.leb Nat.sub nth]. rewrite !py_mod_nonzero by assumption.
  cbn [bind]. destruct (Nat.eqb_spec (h mod p) 0) as [Eh|Eh].
  - cbn [py_assert bind]. destruct (Nat.eqb_spec (w mod p) 0) as [Ew|Ew]; [lia|].
    eexists. reflexivity.
  - eexists. reflexivity.
Qed.

Lemma hvit_patches_never_asserts (X : tensor A) (p : nat) (msg : string) :
  Hvit.patches d X p <> Error (AssertionError msg).
Proof.
  unfold Hvit.patches. destruct (rank X <? 2); [discriminate|].
  unfold py_floordiv. destruct (p =? 0); [discriminate|]. cbn [bind].
  destruct (extract_patches d p X) as [E|e] eqn:HE.
  - cbn [bind]. intros H. apply reshape_error in H. discriminate.
  - cbn [bind]. unfold extract_patches in HE.
    destruct (shape X) as [|? [|? [|? [|? [|? ?]]]]]; try congruence.
    destruct (p =? 0); congruence.
Qed.

Lemma hvit_patches_floor (X : tensor A) (B s c p : nat) :
  shape X = [B; s; s; c] -> 0 < p -> p <= s -> 0 < c ->
  exists t, Hvit.patches d X p = Ok t /\ shape t = [B; (s / p) ^ 2; p * p * c].
Proof.
  intros Hsh Hp Hs Hc. unfold Hvit.patches, rank. rewrite Hsh.
  cbn [length Nat.ltb Nat.leb nth].
  unfold py_floordiv. destruct (Nat.eqb_spec p 0); [lia|]. cbn [bind].
  unfold extract_patches. rewrite Hsh.
  destruct (Nat.eqb_spec p 0); [lia|]. cbn [bind shape build last].
  assert (Hq : 0 < s / p) by (apply Nat.div_str_pos; lia).
  rewrite (@reshape_build A _ _ [B; (s / p) ^ 2; p * p * c]).
  - eexists. split; reflexivity.
  - replace (numel [B; s / p; s / p; p * p * c])
      with (B * numel [(s / p) ^ 2; p * p * c]) by (simpl; ring).
    apply (resolve_shape_head B [(s / p) ^ 2; p * p * c]). simpl. nia.
Qed.
End Divisibility.

(** C3 (as amended): for a non-zero patch size that does not divide the
    image height or width, the split-based TensorFlow [patch] / [patches]
    of src/model/tf and the PyTorch [patch] raise an assertion failure
    rather than returning patches; the hvit [patches] carries no such
    assertion and never raises one. *)
Theorem patch_divisibility_assertions
        (A : Type) (d : A) (X : tensor A) (B h w c p : nat) :
  shape X = [B; h; w; c] -> 0 < p -> h mod p <> 0 \/ w mod p <> 0 ->
  (exists msg, ModelTfFunctions.patches d X p = Error (AssertionError msg))
  /\ (exists msg, ModelTf.patch d X p = Error (AssertionError msg))
  /\ (forall Xcf, shape Xcf = [B; c; h; w] ->
      exists msg, Torch.patch d Xcf p = Error (AssertionError msg))
  /\ (forall msg, Hvit.patches d X p <> Error (AssertionError msg)).
Proof.
  intros Hsh Hp Hnd. repeat split.
  - eapply tf_patches_asserts; eassumption.
  - eapply tf_patch_asserts; eassumption.
  - intros Xcf Hcf. eapply torch_patch_asserts; eassumption.
  - intros msg. apply hvit_patches_never_asserts.
Qed.

Lemma patch_divisibility_assertions_witness :
  (exists msg, ModelTfFunctions.patches 0 img_3x3x1 2 = Error (AssertionError msg))
  /\ (exists msg, ModelTf.patch 0 img_3x3x1 2 = Error (AssertionError msg))
  /\ (forall Xcf, shape Xcf = [1; 1; 3; 3] ->
      exists msg, Torch.patch 0 Xcf 2 = Error (AssertionError msg))
  /\ (forall msg, Hvit.patches 0 img_3x3x1 2 <> Error (AssertionError msg)).
Proof.
  apply (@patch_divisibility_assertions nat 0 img_3x3x1 1 3 3 1 2).
  - reflexivity.
  - lia.
  - left. discriminate.
Defined.

(** On a 3 x 3 image with patch size 2 (which divides neither side) the
    hvit [patches] returns the one complete patch, and no exception; and a
    patch size of 0, which divides no positive side either, stops the
    asserting implementations at the [%] with a [ZeroDivisionError]. *)
Lemma hvit_patches_no_assertion :
  3 mod 2 <> 0 /\
  shape img_3x3x1 = [1; 3; 3; 1] /\
  Hvit.patches 0 img_3x3x1 2 = Ok (mkT [1; 1; 4] [0; 1; 3; 4]) /\
  ModelTf.patch 0 img_3x3x1 0 = Error ZeroDivisionError /\
  Torch.patch 0 (mkT [1; 1; 3; 3] (seq 0 9)) 0 = Error ZeroDivisionError.
Proof. repeat split; try reflexivity. discriminate. Qed.

(** ** PatchEncoder output shapes *)

Section EncoderShapes.
Variable A : Type.
Variable d : A.
Variable add mul : A -> A -> A.

Lemma forallb_ltb_seq (n : nat) : forallb (fun i => i <? n) (seq 0 n) = true.
Proof.
  apply forallb_forall. intros i Hi. apply in_seq in Hi.
  apply Nat.ltb_lt. lia.
Qed.

(** The hvit [PatchEncoder]: (batch, (img_size // patch_size) ** 2,
    projection_dim), with the default projection dimension
    [num_channels * patch_size ** 2]. *)
Lemma hvit_patch_encoder_shape
      (img_size patch_size num_channels : nat) (projection_dim : option nat)
      (kernel : nat -> nat -> A) (bias : nat -> A) (table : nat -> nat -> A)
      (X : tensor A) (B : nat) :
  shape X = [B; img_size; img_size; num_channels] ->
  0 < patch_size -> 0 < img_size -> 0 < num_channels ->
  img_size mod patch_size = 0 ->
  exists self r,
    Hvit.PatchEncoder_init img_size patch_size num_channels projection_dim
                           kernel bias table = Ok self /\
    Hvit.PatchEncoder_call d add mul self X = Ok r /\
    shape r = [B; (img_size / patch_size) ^ 2;
               match projection_dim with
               | Some v => v
               | None => num_channels * patch_size ^ 2
               end].
Proof.
  intros Hsh Hp Hs Hc Hm.
  assert (Hle : patch_size <= img_size).
  { destruct (divisible_as_mul Hp Hs Hm) as [E Hq]. nia. }
  destruct (hvit_patches_floor d X Hsh Hp Hle Hc) as [t [Ht Hst]].
  unfold Hvit.PatchEncoder_init, py_floordiv.
  destruct (Nat.eqb_spec patch_size 0); [lia|]. cbn [bind].
  eexists. eexists. split; [reflexivity|].
  unfold Hvit.PatchEncoder_call.
  cbn [Hvit.pe_patch_size Hvit.pe_num_patches Hvit.pe_projection_dim
       Hvit.pe_kernel Hvit.pe_bias Hvit.pe_table].
  rewrite Ht. cbn [bind]. unfold keras_dense, rank. rewrite Hst.
  cbn [length Nat.ltb Nat.leb bind]. unfold embedding.
  rewrite forallb_ltb_seq. cbn [bind]. unfold tensor_add, affine_last.
  rewrite Hst. cbn [shape build removelast app rev length_seq].
  rewrite length_seq. cbn [broadcast_rev].
  rewrite !Nat.eqb_refl. cbn [orb option_map].
  split; reflexivity.
Qed.
Lemma clamp_axis (n i : nat) : i < n -> (if n =? 1 then 0 else i) = i.
Proof. intros H. destruct (Nat.eqb_spec n 1); lia. Qed.

(** X14 (src/hvit/tf/functions.py, class [PatchEncoder]): on a square
    image whose side the patch size divides, the layer returns
    (batch, (img_size // patch_size) ** 2, projection_dim), with the
    default projection dimension [num_channels * patch_size ** 2]; cell
    [j] of token [k] is the dense projection of patch [k] plus row [k]
    of the position table, the same row for every image of the batch. *)
Lemma hvit_patch_encoder_output
      (img_size patch_size num_channels : nat) (projection_dim : option nat)
      (kernel : nat -> nat -> A) (bias : nat -> A) (table : nat -> nat -> A)
      (X : tensor A) (B : nat) :
  shape X = [B; img_size; img_size; num_channels] ->
  0 < patch_size -> 0 < img_size -> 0 < num_channels ->
  img_size mod patch_size = 0 ->
  projection_dim <> Some 0 ->
  exists self P r,
    Hvit.PatchEncoder_init img_size patch_size num_channels projection_dim
                           kernel bias table = Ok self /\
    Hvit.patches d X patch_size = Ok P /\
    Hvit.PatchEncoder_call d add mul self X = Ok r /\
    shape r = [B; (img_size / patch_size) ^ 2;
               match projection_dim with
               | Some v => v
               | None => num_channels * patch_size ^ 2
               end] /\
    forall b k j,
      b < B -> k < (img_size / patch_size) ^ 2 ->
      j < match projection_dim with
          | Some v => v
          | None => num_channels * patch_size ^ 2
          end ->
      get d r [b; k; j]
      = add (fold_right
               (fun v acc => add (mul (get d P [b; k; v]) (kernel v j)) acc)
               (bias j) (seq 0 (patch_size * patch_size * num_channels)))
            (table k j).
Proof.
  intros Hsh Hp Hs Hc Hm _.
  assert (Hle : patch_size <= img_size).
  { destruct (divisible_as_mul Hp Hs Hm) as [E Hq]. nia. }
  destruct (hvit_patches_floor d X Hsh Hp Hle Hc) as [t [Ht Hst]].
  unfold Hvit.PatchEncoder_init, py_floordiv.
  destruct (Nat.eqb_spec patch_size 0); [lia|]. cbn [bind].
  eexists. exists t. eexists. split; [reflexivity|]. split; [exact Ht|].
  unfold Hvit.PatchEncoder_call.
  cbn [Hvit.pe_patch_size Hvit.pe_num_patches Hvit.pe_projection_dim
       Hvit.pe_kernel Hvit.pe_bias Hvit.pe_table].
  rewrite Ht. cbn [bind]. unfold keras_dense, rank. rewrite Hst.
  cbn [length Nat.ltb Nat.leb bind]. unfold embedding.
  rewrite forallb_ltb_seq. cbn [bind]. unfold tensor_add, affine_last.
  rewrite Hst. cbn [shape build removelast app rev length_seq].
  rewrite length_seq. cbn [broadcast_rev].
  rewrite !Nat.eqb_refl. cbn [orb option_map].
  split; [reflexivity|]. split; [reflexivity|].
  intros b k j Hb Hk Hj. cbn [rev app].
  rewrite get_build by (range_tac; assumption).
  unfold broadcast_idx. cbn [length Nat.sub skipn clamp_idx].
  rewrite !clamp_axis by assumption.
  rewrite !get_build by (range_tac; assumption).
  cbn [nth removelast app last]. rewrite seq_nth by assumption.
  reflexivity.
Qed.
End EncoderShapes.

Lemma hvit_patch_encoder_output_witness :
  exists self P r,
    Hvit.PatchEncoder_init 4 2 1 None (fun _ _ => 1%Z) (fun _ => 0%Z)
                           (fun k j => Z.of_nat (k + j)) = Ok self /\
    Hvit.patches 0%Z img_4x4x1 2 = Ok P /\
    Hvit.PatchEncoder_call 0%Z Z.add Z.mul self img_4x4x1 = Ok r /\
    shape r = [1; (4 / 2) ^ 2; 1 * 2 ^ 2] /\
    forall b k j,
      b < 1 -> k < (4 / 2) ^ 2 -> j < 1 * 2 ^ 2 ->
      get 0%Z r [b; k; j]
      = Z.add (fold_right
                 (fun v acc => Z.add (Z.mul (get 0%Z P [b; k; v]) 1%Z) acc)
                 0%Z (seq 0 (2 * 2 * 1)))
              (Z.of_nat (k + j)).
Proof.
  apply (@hvit_patch_encoder_output Z 0%Z Z.add Z.mul 4 2 1 None
           (fun _ _ => 1%Z) (fun _ => 0%Z) (fun k j => Z.of_nat (k + j))
           img_4x4x1 1);
    [reflexivity|lia|lia|lia|reflexivity|discriminate].
Defined.

Section ModelTfEncoder.
Variable A : Type.
Variable d : A.
Variable add mul : A -> A -> A.

Lemma tf_patches_rank (X P : tensor A) (p : nat) :
  ModelTfFunctions.patches d X p = Ok P -> rank P = 5.
Proof.
  unfold ModelTfFunctions.patches. intros H.
  bind_inv H. destruct (shape v) as [|? [|? [|? [|? [|? ?]]]]]; try discriminate.
  bind_inv H. bind_inv H. bind_inv H. bind_inv H. bind_inv H. bind_inv H.
  unfold transpose in H. destruct (is_perm (rank v5) [0; 2; 3; 4; 1]); [|discriminate].
  injection H as <-. reflexivity.
Qed.

(** The [PatchEncoder] of src/model/tf/functions.py applies [Dense] and
    the position embedding to the rank-5 output of [patches]: whatever it
    returns has rank 5, never the rank 3 of (batch, patches, features). *)
Lemma modeltf_patch_encoder_rank
      (self : ModelTfFunctions.PatchEncoder A) (X r : tensor A) :
  ModelTfFunctions.PatchEncoder_call d add mul self X = Ok r -> rank r = 5.
Proof.
  unfold ModelTfFunctions.PatchEncoder_call. intros H.
  bind_inv H. apply tf_patches_rank in E. bind_inv H. bind_inv H.
  unfold keras_dense in E0. destruct (rank v <? 2); [discriminate|].
  injection E0 as <-.
  unfold embedding in E1.
  destruct (forallb _ _); [|discriminate]. injection E1 as <-.
  unfold tensor_add, affine_last in H. cbn [shape build] in H.
  unfold rank in E.
  destruct (shape v) as [|a0 [|a1 [|a2 [|a3 [|a4 [|? ?]]]]]]; try discriminate.
  cbn [removelast app rev] in H. cbn [broadcast_rev] in H.
  repeat match type of H with
         | context [if ?c then _ else _] => destruct c
         end; cbn [option_map] in H; try discriminate;
    injection H as <-; reflexivity.
Qed.
End ModelTfEncoder.

(** C2, on src/model/tf/functions.py: [PatchEncoder(img_size=4,
    patch_size=2, num_channels=1)] called on a (1, 4, 4, 1) image, with any
    weights.  [patches] returns (1, 4, 2, 2, 1), [Dense] maps it to
    (1, 4, 2, 2, 4), and adding the (4, 4) position embedding fails to
    broadcast: no tensor of shape (1, 4, 4) is returned. *)
Theorem modeltf_patch_encoder_fails
        (kernel : nat -> nat -> Z) (bias : nat -> Z) (table : nat -> nat -> Z) :
  exists self,
    ModelTfFunctions.PatchEncoder_init 4 2 1 kernel bias table = Ok self /\
    ModelTfFunctions.PatchEncoder_call 0%Z Z.add Z.mul self img_4x4x1
    = Error InvalidArgumentError.
Proof. eexists. split; reflexivity. Qed.

(** * Further properties of the patch utilities *)

Lemma grid_index_roundtrip (e p y x : nat) :
  0 < p -> y < e * p -> x < e * p ->
  (y / p * e + x / p) / e * p + y mod p = y
  /\ (y / p * e + x / p) mod e * p + x mod p = x.
Proof.
  intros Hp Hy Hx.
  assert (Hxe : x / p < e) by (apply Nat.Div0.div_lt_upper_bound; lia).
  rewrite (div_horner _ Hxe), (mod_horner _ Hxe).
  pose proof (Nat.div_mod_eq y p). pose proof (Nat.div_mod_eq x p).
  split; lia.
Qed.

Section MorePatchFacts.
Variable A : Type.
Variable d : A.

Lemma tf_squeeze1_build (B H W c : nat) (g : list nat -> A) :
  tf_squeeze 1 (build [B; 1; H; W; c] g)
  = Ok (build [B; H; W; c]
          (fun idx => match idx with
                      | [b; y; x; ch] => g [b; 0; y; x; ch]
                      | _ => d
                      end)).
Proof.
  unfold tf_squeeze.
  cbn [rank shape build length nth Nat.ltb Nat.leb Nat.eqb andb remove_nth].
  f_equal. rewrite retag_build by (simpl; ring).
  apply build_ext. intros idx Hidx. split_idx.
  rewrite (@unravel_eq [B; 1; H; W; c] [i; 0; i0; i1; i2]);
    [reflexivity|range_tac; assumption || lia|simpl; ring].
Qed.

(** hvit: extraction, [unflatten], [unpatch] and the squeeze, on a normal
    form. *)
Lemma hvit_roundtrip_build (B e c p : nat) (g : list nat -> A) :
  0 < p -> 0 < e -> 0 < c ->
  (P <- Hvit.patches d (build [B; e * p; e * p; c] g) p ;;
   U <- Hvit.unflatten P c ;;
   R <- Hvit.unpatch d U c ;;
   tf_squeeze 1 R)
  = Ok (build [B; e * p; e * p; c] g).
Proof.
  intros Hp He Hc.
  rewrite hvit_patches_build by assumption. cbn [bind].
  rewrite (@hvit_unflatten_build A d) by (assumption || nia). cbn [bind].
  rewrite hvit_unpatch_build by assumption. cbn [bind].
  rewrite (Nat.mul_comm p e). rewrite tf_squeeze1_build.
  f_equal. apply build_ext. intros idx Hidx. split_idx.
  destruct (@patch_index_roundtrip e p c i0 i1 i2) as [E1 [E2 E3]];
    try assumption.
  rewrite E1, E2, E3. reflexivity.
Qed.

Lemma modeltf_unpatch_is_hvit (x : tensor A) (c : nat) :
  (rank x <? 5) = false -> ModelTf.unpatch d x c = Hvit.unpatch d x c.
Proof.
  intros H. unfold ModelTf.unpatch, Hvit.unpatch. rewrite H. reflexivity.
Qed.

(** src/model/tf: [patch], [unpatch] and the squeeze, on a normal form. *)
Lemma modeltf_roundtrip_build (B e c p : nat) (g : list nat -> A) :
  0 < B -> 0 < p -> 0 < e -> 0 < c ->
  (P <- ModelTf.patch d (build [B; e * p; e * p; c] g) p ;;
   R <- ModelTf.unpatch d P c ;;
   tf_squeeze 1 R)
  = Ok (build [B; e * p; e * p; c] g).
Proof.
  intros HB Hp He Hc.
  rewrite tf_patch_build by assumption. cbn [bind].
  rewrite modeltf_unpatch_is_hvit by reflexivity.
  rewrite hvit_unpatch_build by assumption. cbn [bind].
  rewrite (Nat.mul_comm p e). rewrite tf_squeeze1_build.
  f_equal. apply build_ext. intros idx Hidx. split_idx.
  destruct (@grid_index_roundtrip e p i0 i1) as [E1 E2]; try assumption.
  rewrite E1, E2. reflexivity.
Qed.
End MorePatchFacts.

(** X1 (src/model/tf/ViT_model.py): [unpatch] undoes [patch].  On a
    square image whose side the patch size divides, [patch] followed by
    [unpatch] gives a tensor of shape (batch, 1, s, s, channels) whose
    squeeze is the image itself. *)
Theorem modeltf_patch_unpatch_roundtrip
        (A : Type) (d : A) (X : tensor A) (B s c p : nat) :
  wf X -> shape X = [B; s; s; c] ->
  0 < B -> 0 < p -> 0 < s -> 0 < c -> s mod p = 0 ->
  exists P R,
    ModelTf.patch d X p = Ok P /\
    ModelTf.unpatch d P c = Ok R /\
    shape R = [B; 1; s; s; c] /\
    tf_squeeze 1 R = Ok X.
Proof.
  intros W Hsh HB Hp Hs Hc Hm.
  destruct (divisible_as_mul Hp Hs Hm) as [Es He].
  set (e := s / p) in *. clearbody e. subst s.
  pose proof (@modeltf_roundtrip_build A d B e c p (get d X) HB Hp He Hc) as H.
  rewrite <- Hsh, <- (tensor_as_build d W) in H.
  bind_inv H. bind_inv H.
  exists v, v0. repeat split; try assumption.
  rewrite (tensor_as_build d W), Hsh in E.
  rewrite tf_patch_build in E by assumption. injection E as <-.
  rewrite modeltf_unpatch_is_hvit in E0 by reflexivity.
  rewrite hvit_unpatch_build in E0 by assumption. injection E0 as <-.
  cbn [shape build]. rewrite (Nat.mul_comm p e). reflexivity.
Qed.

Lemma modeltf_patch_unpatch_roundtrip_witness :
  exists P R,
    ModelTf.patch 0 img_4x4x2 2 = Ok P /\
    ModelTf.unpatch 0 P 2 = Ok R /\
    shape R = [1; 1; 4; 4; 2] /\
    tf_squeeze 1 R = Ok img_4x4x2.
Proof.
  apply (@modeltf_patch_unpatch_roundtrip nat 0 img_4x4x2 1 4 2 2);
    [reflexivity|reflexivity|lia|lia|lia|lia|reflexivity].
Defined.

(** X2 (src/hvit/tf/functions.py): [resampling] re-tiles the image.
    Applied to the patches of a square image at one patch size, it returns
    exactly the patches of the same image at [patch_size[1]], for any two
    patch sizes dividing the side; [img_size] and [patch_size[0]] are not
    read. *)
Theorem hvit_resampling_retiles
        (A : Type) (d : A) (X : tensor A) (B s c p0 p1 img_size first : nat)
        (rest : list nat) :
  wf X -> shape X = [B; s; s; c] ->
  0 < p0 -> 0 < p1 -> 0 < s -> 0 < c -> s mod p0 = 0 -> s mod p1 = 0 ->
  exists P0 P1,
    Hvit.patches d X p0 = Ok P0 /\
    Hvit.patches d X p1 = Ok P1 /\
    Hvit.resampling d P0 img_size (first :: p1 :: rest) c = Ok P1.
Proof.
  intros W Hsh Hp0 Hp1 Hs Hc Hm0 Hm1.
  destruct (divisible_as_mul Hp0 Hs Hm0) as [Es0 He0].
  destruct (divisible_as_mul Hp1 Hs Hm1) as [Es1 He1].
  assert (H1 : exists P1, Hvit.patches d X p1 = Ok P1).
  { rewrite (tensor_as_build d W), Hsh, Es1.
    rewrite hvit_patches_build by assumption. eexists. reflexivity. }
  destruct H1 as [P1 HP1].
  pose proof (@hvit_roundtrip_build A d B (s / p0) c p0 (get d X) Hp0 He0 Hc) as H.
  rewrite <- Es0, <- Hsh, <- (tensor_as_build d W) in H.
  bind_inv H. exists v, P1. repeat split; try assumption.
  unfold Hvit.resampling.
  bind_inv H. rewrite E0. cbn [bind].
  bind_inv H. rewrite E1. cbn [bind].
  rewrite H. cbn [bind]. exact HP1.
Qed.

Lemma hvit_resampling_retiles_witness :
  exists P0 P1,
    Hvit.patches 0 img_4x4x2 1 = Ok P0 /\
    Hvit.patches 0 img_4x4x2 2 = Ok P1 /\
    Hvit.resampling 0 P0 128 [16; 2] 2 = Ok P1.
Proof.
  apply (@hvit_resampling_retiles nat 0 img_4x4x2 1 4 2 1 2 128 16 []);
    [reflexivity|reflexivity|lia|lia|lia|lia|reflexivity|reflexivity].
Defined.

Section FlatPatches.
Variable A : Type.
Variable d : A.

(** [tf.reshape(patches, [-1, n, c * p ** 2])] of rank-5 patches. *)
Lemma flatten_patches_build (B e c p : nat) (g : list nat -> A) :
  0 < p -> 0 < e -> 0 < c ->
  reshape [None; Some (e ^ 2); Some (c * p ^ 2)] (build [B; e * e; p; p; c] g)
  = Ok (build [B; e * e; p * p * c]
          (fun idx => match idx with
                      | [b; k; v] => g [b; k; v / (p * c); (v / c) mod p; v mod c]
                      | _ => d
                      end)).
Proof.
  intros Hp He Hc.
  replace (e ^ 2) with (e * e) by (simpl; ring).
  replace (c * p ^ 2) with (p * p * c) by (simpl; ring).
  rewrite (@reshape_build A _ _ [B; e * e; p * p * c]).
  2:{ replace (numel [B; e * e; p; p; c])
        with (B * numel [e * e; p * p * c]) by (simpl; ring).
      apply (resolve_shape_head B [e * e; p * p * c]). simpl. nia. }
  f_equal. apply build_ext. intros idx Hidx. split_idx.
  assert (Hc0 : c <> 0) by lia.
  assert (H1 : i1 / (p * c) < p) by (apply Nat.Div0.div_lt_upper_bound; nia).
  pose proof (Nat.mod_upper_bound (i1 / c) p ltac:(lia)) as H2.
  pose proof (Nat.mod_upper_bound i1 c Hc0) as H3.
  rewrite (@unravel_eq [B; e * e; p; p; c]
             [i; i0; i1 / (p * c); (i1 / c) mod p; i1 mod c]);
    [reflexivity|range_tac; assumption|].
  simpl.
  pose proof (Nat.div_mod_eq i1 c) as Ec.
  pose proof (Nat.div_mod_eq (i1 / c) p) as Ep.
  assert (Epc : i1 / (p * c) = i1 / c / p)
    by (rewrite (Nat.mul_comm p c); symmetry; apply Nat.Div0.div_div).
  rewrite Epc. nia.
Qed.

(** The split-based patches, flattened, are the [extract_patches]-based
    ones. *)
Lemma flat_tf_patches_is_hvit (B e c p : nat) (g : list nat -> A) :
  0 < B -> 0 < p -> 0 < e -> 0 < c ->
  (P <- ModelTfFunctions.patches d (build [B; e * p; e * p; c] g) p ;;
   reshape [None; Some (e ^ 2); Some (c * p ^ 2)] P)
  = Hvit.patches d (build [B; e * p; e * p; c] g) p.
Proof.
  intros HB Hp He Hc.
  change (ModelTfFunctions.patches d) with (ModelTf.patch d).
  rewrite tf_patch_build by assumption. cbn [bind].
  rewrite flatten_patches_build by assumption.
  rewrite hvit_patches_build by assumption.
  reflexivity.
Qed.
End FlatPatches.

(** X3 (src/model/tf/functions.py against src/hvit/tf/functions.py): the
    two TensorFlow patch extractions agree.  On a square image whose side
    the patch size divides, the split-based [patches], reshaped to
    (batch, n, c * p ** 2) as [DeepPatchEncoder.call] does, is exactly the
    tensor that the [extract_patches]-based hvit [patches] returns. *)
Theorem flat_patches_agree_with_hvit
        (A : Type) (d : A) (X : tensor A) (B s c p : nat) :
  wf X -> shape X = [B; s; s; c] ->
  0 < B -> 0 < p -> 0 < s -> 0 < c -> s mod p = 0 ->
  exists P F,
    ModelTfFunctions.patches d X p = Ok P /\
    reshape [None; Some ((s / p) ^ 2); Some (c * p ^ 2)] P = Ok F /\
    Hvit.patches d X p = Ok F.
Proof.
  intros W Hsh HB Hp Hs Hc Hm.
  destruct (divisible_as_mul Hp Hs Hm) as [Es He].
  pose proof (@flat_tf_patches_is_hvit A d B (s / p) c p (get d X) HB Hp He Hc) as H.
  rewrite <- Es, <- Hsh, <- (tensor_as_build d W) in H.
  assert (HF : exists F, Hvit.patches d X p = Ok F).
  { rewrite (tensor_as_build d W), Hsh, Es.
    rewrite hvit_patches_build by assumption. eexists. reflexivity. }
  destruct HF as [F HF]. rewrite HF in H.
  bind_inv H. exists v, F. repeat split; assumption.
Qed.

Lemma flat_patches_agree_with_hvit_witness :
  exists P F,
    ModelTfFunctions.patches 0 img_4x4x2 2 = Ok P /\
    reshape [None; Some ((4 / 2) ^ 2); Some (2 * 2 ^ 2)] P = Ok F /\
    Hvit.patches 0 img_4x4x2 2 = Ok F.
Proof.
  apply (@flat_patches_agree_with_hvit nat 0 img_4x4x2 1 4 2 2);
    [reflexivity|reflexivity|lia|lia|lia|lia|reflexivity].
Defined.

(** X4 (src/model/tf/functions.py): [resampling] re-tiles the image.
    Given the flattened patches of a square image at one patch size and
    the true image size, it returns the flattened patches of the same
    image at [patch_size[1]]; [patch_size[0]] is not read. *)
Theorem modeltf_functions_resampling_retiles
        (A : Type) (d : A) (X : tensor A) (B s c p0 p1 first : nat)
        (rest : list nat) :
  wf X -> shape X = [B; s; s; c] ->
  0 < B -> 0 < p0 -> 0 < p1 -> 0 < s -> 0 < c ->
  s mod p0 = 0 -> s mod p1 = 0 ->
  exists P0 F0 P1 F1,
    ModelTfFunctions.patches d X p0 = Ok P0 /\
    reshape [None; Some ((s / p0) ^ 2); Some (c * p0 ^ 2)] P0 = Ok F0 /\
    ModelTfFunctions.patches d X p1 = Ok P1 /\
    reshape [None; Some ((s / p1) ^ 2); Some (c * p1 ^ 2)] P1 = Ok F1 /\
    ModelTfFunctions.resampling d F0 s (first :: p1 :: rest) c = Ok F1.
Proof.
  intros W Hsh HB Hp0 Hp1 Hs Hc Hm0 Hm1.
  destruct (divisible_as_mul Hp0 Hs Hm0) as [Es0 He0].
  destruct (divisible_as_mul Hp1 Hs Hm1) as [Es1 He1].
  (* the flattened patches at both sizes are the hvit patches *)
  pose proof (@flat_tf_patches_is_hvit A d B (s / p0) c p0 (get d X) HB Hp0 He0 Hc)
    as H0.
  pose proof (@flat_tf_patches_is_hvit A d B (s / p1) c p1 (get d X) HB Hp1 He1 Hc)
    as H1.
  rewrite <- Es0, <- Hsh, <- (tensor_as_build d W) in H0.
  rewrite <- Es1, <- Hsh, <- (tensor_as_build d W) in H1.
  (* restoring the image from the patches at the first size *)
  pose proof (@hvit_roundtrip_build A d B (s / p0) c p0 (get d X) Hp0 He0 Hc) as HR.
  rewrite <- Es0, <- Hsh, <- (tensor_as_build d W) in HR.
  bind_inv HR. rewrite E in H0. bind_inv H0.
  assert (HF1 : exists F1, Hvit.patches d X p1 = Ok F1).
  { rewrite (tensor_as_build d W), Hsh, Es1.
    rewrite hvit_patches_build by assumption. eexists. reflexivity. }
  destruct HF1 as [F1 HF1]. rewrite HF1 in H1. bind_inv H1.
  exists v0, v, v1, F1. repeat split; try assumption.
  unfold ModelTfFunctions.resampling. cbn [py_index nth_error bind].
  unfold py_floordiv. destruct (Nat.eqb_spec p1 0); [lia|]. cbn [bind].
  change (@ModelTfFunctions.unflatten A) with (@Hvit.unflatten A).
  change (@ModelTfFunctions.unpatch A d) with (@Hvit.unpatch A d).
  bind_inv HR. rewrite E2. cbn [bind].
  bind_inv HR. rewrite E3. cbn [bind].
  rewrite HR. cbn [bind]. rewrite E1. cbn [bind]. exact H1.
Qed.

Lemma modeltf_functions_resampling_retiles_witness :
  exists P0 F0 P1 F1,
    ModelTfFunctions.patches 0 img_4x4x2 1 = Ok P0 /\
    reshape [None; Some ((4 / 1) ^ 2); Some (2 * 1 ^ 2)] P0 = Ok F0 /\
    ModelTfFunctions.patches 0 img_4x4x2 2 = Ok P1 /\
    reshape [None; Some ((4 / 2) ^ 2); Some (2 * 2 ^ 2)] P1 = Ok F1 /\
    ModelTfFunctions.resampling 0 F0 4 [16; 2] 2 = Ok F1.
Proof.
  apply (@modeltf_functions_resampling_retiles nat 0 img_4x4x2 1 4 2 1 2 16 []);
    [reflexivity|reflexivity|lia|lia|lia|lia|lia|reflexivity|reflexivity].
Defined.

(** Requested shape [[b, -1, p]] on a buffer of [b * m * p] cells. *)
Lemma resolve_shape_mid (b m p : nat) :
  b * p <> 0 ->
  resolve_shape (b * m * p) [Some b; None; Some p] = Ok [b; m; p].
Proof.
  intros H. unfold resolve_shape, count_infer, known_numel, fill_infer.
  cbn [filter length fold_right map]. rewrite Nat.mul_1_r.
  destruct (Nat.eqb_spec (b * p) 0); [contradiction|].
  replace (b * m * p) with (m * (b * p)) by ring.
  rewrite Nat.Div0.mod_mul, Nat.div_mul by assumption. reflexivity.
Qed.

Section PatchesLayer.
Variable A : Type.
Variable d : A.

Lemma extract_patches_any (X : tensor A) (b h w c p : nat) :
  shape X = [b; h; w; c] -> 0 < p ->
  extract_patches d p X
  = Ok (build [b; h / p; w / p; p * p * c]
          (fun idx => match idx with
                      | [ib; i; j; v] =>
                          get d X [ib; i * p + v / (p * c);
                                   j * p + (v / c) mod p; v mod c]
                      | _ => d
                      end)).
Proof.
  intros Hsh Hp. unfold extract_patches. rewrite Hsh.
  destruct (Nat.eqb_spec p 0); [lia|reflexivity].
Qed.

Lemma patches_call_build (X : tensor A) (B h w c p : nat) :
  shape X = [B; h; w; c] -> 0 < B -> 0 < p -> 0 < c ->
  ModelTf.Patches_call d p X
  = Ok (build [B; (h / p) * (w / p); p * p * c]
          (fun idx => match idx with
                      | [b; k; v] =>
                          get d X [b; (k / (w / p)) * p + v / (p * c);
                                   (k mod (w / p)) * p + (v / c) mod p; v mod c]
                      | _ => d
                      end)).
Proof.
  intros Hsh HB Hp Hc. unfold ModelTf.Patches_call. rewrite Hsh.
  cbn [py_index nth_error bind].
  rewrite (extract_patches_any X Hsh Hp). cbn [bind shape build last].
  rewrite (@reshape_build A _ _ [B; (h / p) * (w / p); p * p * c]).
  2:{ replace (numel [B; h / p; w / p; p * p * c])
        with (B * ((h / p) * (w / p)) * (p * p * c)) by (simpl; ring).
      apply resolve_shape_mid. nia. }
  f_equal. apply build_ext. intros idx Hidx. split_idx.
  match goal with H : ?k < (h / p) * (w / p) |- _ =>
    destruct (@divmod_range k (h / p) (w / p) H) as [Hq Hr] end.
  rewrite (@unravel_eq [B; h / p; w / p; p * p * c]
             [i; i0 / (w / p); i0 mod (w / p); i1]);
    [reflexivity|range_tac; assumption|].
  simpl. rewrite (merge_offset i0 (w / p)). ring.
Qed.

Lemma hvit_patches_any_square (X : tensor A) (B s c p : nat) :
  shape X = [B; s; s; c] -> 0 < p -> p <= s -> 0 < c ->
  Hvit.patches d X p
  = Ok (build [B; (s / p) * (s / p); p * p * c]
          (fun idx => match idx with
                      | [b; k; v] =>
                          get d X [b; (k / (s / p)) * p + v / (p * c);
                                   (k mod (s / p)) * p + (v / c) mod p; v mod c]
                      | _ => d
                      end)).
Proof.
  intros Hsh Hp Hs Hc. unfold Hvit.patches, rank. rewrite Hsh.
  cbn [length Nat.ltb Nat.leb nth].
  unfold py_floordiv. destruct (Nat.eqb_spec p 0); [lia|]. cbn [bind].
  rewrite (extract_patches_any X Hsh Hp). cbn [bind shape build last].
  assert (Hq : 0 < s / p) by (apply Nat.div_str_pos; lia).
  replace ((s / p) ^ 2) with ((s / p) * (s / p)) by (simpl; ring).
  rewrite (@reshape_build A _ _ [B; (s / p) * (s / p); p * p * c]).
  2:{ replace (numel [B; s / p; s / p; p * p * c])
        with (B * numel [(s / p) * (s / p); p * p * c]) by (simpl; ring).
      apply (resolve_shape_head B [(s / p) * (s / p); p * p * c]). simpl. nia. }
  f_equal. apply build_ext. intros idx Hidx. split_idx.
  match goal with H : ?k < (s / p) * (s / p) |- _ =>
    destruct (@divmod_range k (s / p) (s / p) H) as [Hq' Hr] end.
  rewrite (@unravel_eq [B; s / p; s / p; p * p * c]
             [i; i0 / (s / p); i0 mod (s / p); i1]);
    [reflexivity|range_tac; assumption|].
  simpl. rewrite (merge_offset i0 (s / p)). ring.
Qed.
End PatchesLayer.

(** X5 (src/model/tf/ViT_model.py, class Patches): on any image with a
    non-empty batch and at least one channel, divisible or not, square or
    not, [Patches.call] returns (batch, (h // p) * (w // p), p * p * c): patch
    [k] is the window at grid row [k // (w // p)] and column
    [k % (w // p)], flattened row by row with its channels.  The pixels
    beyond the last complete window are dropped. *)
Theorem patches_layer_windows
        (A : Type) (d : A) (X : tensor A) (B h w c p : nat) :
  shape X = [B; h; w; c] -> 0 < B -> 0 < p -> 0 < c ->
  exists t,
    ModelTf.Patches_call d p X = Ok t /\
    shape t = [B; (h / p) * (w / p); p * p * c] /\
    forall b k dy dx ch,
      b < B -> k < (h / p) * (w / p) -> dy < p -> dx < p -> ch < c ->
      get d t [b; k; (dy * p + dx) * c + ch]
      = get d X [b; (k / (w / p)) * p + dy; (k mod (w / p)) * p + dx; ch].
Proof.
  intros Hsh HB Hp Hc. eexists. split; [apply patches_call_build; eassumption|].
  split; [reflexivity|].
  intros b k dy dx ch Hb Hk Hdy Hdx Hch.
  rewrite get_build
    by (range_tac; try assumption; repeat apply horner_lt; assumption).
  rewrite (div_horner _ Hch), (mod_horner _ Hch), (mod_horner _ Hdx).
  replace ((dy * p + dx) * c + ch) with (dy * (p * c) + (dx * c + ch)) by ring.
  rewrite div_horner by (apply horner_lt; assumption). reflexivity.
Qed.

Lemma patches_layer_windows_witness :
  exists t,
    ModelTf.Patches_call 0 2 img_3x3x1 = Ok t /\
    shape t = [1; (3 / 2) * (3 / 2); 2 * 2 * 1] /\
    forall b k dy dx ch,
      b < 1 -> k < (3 / 2) * (3 / 2) -> dy < 2 -> dx < 2 -> ch < 1 ->
      get 0 t [b; k; (dy * 2 + dx) * 1 + ch]
      = get 0 img_3x3x1 [b; (k / (3 / 2)) * 2 + dy; (k mod (3 / 2)) * 2 + dx; ch].
Proof.
  apply (@patches_layer_windows nat 0 img_3x3x1 1 3 3 1 2);
    [reflexivity|lia|lia|lia].
Defined.

(** X6 (src/hvit/tf/functions.py [patches] against the [Patches] layer of
    src/model/tf/ViT_model.py): on every square image at least one patch
    wide, whether or not the patch size divides the side, the two return
    the same tensor. *)
Theorem hvit_patches_is_patches_layer
        (A : Type) (d : A) (X : tensor A) (B s c p : nat) :
  shape X = [B; s; s; c] -> 0 < B -> 0 < p -> p <= s -> 0 < c ->
  exists t,
    Hvit.patches d X p = Ok t /\ ModelTf.Patches_call d p X = Ok t.
Proof.
  intros Hsh HB Hp Hs Hc. eexists. split.
  - apply hvit_patches_any_square; eassumption.
  - apply patches_call_build; eassumption.
Qed.

Lemma hvit_patches_is_patches_layer_witness :
  exists t,
    Hvit.patches 0 img_3x3x1 2 = Ok t /\ ModelTf.Patches_call 0 2 img_3x3x1 = Ok t.
Proof.
  apply (@hvit_patches_is_patches_layer nat 0 img_3x3x1 1 3 1 2);
    [reflexivity|lia|lia|lia|lia].
Defined.

(** X7 (src/hvit/tf/functions.py): [patches] takes the patch count from
    the height alone.  On an image [m] times as wide as high it raises
    nothing: the surplus patches are folded into the batch axis, which
    comes out [m] times too long. *)
Theorem hvit_patches_wide_image
        (A : Type) (d : A) (X : tensor A) (B e m c p : nat) :
  shape X = [B; e * p; m * (e * p); c] -> 0 < p -> 0 < e -> 0 < c ->
  exists t,
    Hvit.patches d X p = Ok t /\ shape t = [B * m; e * e; p * p * c].
Proof.
  intros Hsh Hp He Hc. unfold Hvit.patches, rank. rewrite Hsh.
  cbn [length Nat.ltb Nat.leb nth].
  rewrite py_floordiv_mul by assumption. cbn [bind].
  rewrite (extract_patches_any d X Hsh Hp). cbn [bind shape build last].
  rewrite (Nat.mul_assoc m e p), !Nat.div_mul by lia.
  replace (e ^ 2) with (e * e) by (simpl; ring).
  rewrite (@reshape_build A _ _ [B * m; e * e; p * p * c]).
  - eexists. split; reflexivity.
  - replace (numel [B; e; m * e; p * p * c])
      with (B * m * numel [e * e; p * p * c]) by (simpl; ring).
    apply (resolve_shape_head (B * m) [e * e; p * p * c]). simpl. nia.
Qed.

Lemma hvit_patches_wide_image_witness :
  exists t,
    Hvit.patches 0 (mkT [1; 2; 4; 1] (seq 0 8)) 1 = Ok t
    /\ shape t = [1 * 2; 2 * 2; 1 * 1 * 1].
Proof.
  apply (@hvit_patches_wide_image nat 0 (mkT [1; 2; 4; 1] (seq 0 8)) 1 2 2 1 1);
    [reflexivity|lia|lia|lia].
Defined.

(** ** The PyTorch patch utilities *)

Lemma resolve_shape_exact (sh : list nat) (total : nat) :
  numel sh = total -> resolve_shape total (map Some sh) = Ok sh.
Proof.
  intros H. unfold resolve_shape.
  assert (Hc : count_infer (map Some sh) = 0).
  { clear. unfold count_infer. induction sh; simpl; auto. }
  assert (Hk : known_numel (map Some sh) = numel sh).
  { clear. induction sh as [|n sh IH]; simpl; [reflexivity|]. rewrite IH. reflexivity. }
  assert (Hf : fill_infer 0 (map Some sh) = sh).
  { clear. unfold fill_infer. rewrite map_map. apply map_id. }
  rewrite Hc, Hk, Hf, H, Nat.eqb_refl. reflexivity.
Qed.

Section TorchPatchFacts.
Variable A : Type.
Variable d : A.

Lemma torch_flatten_last3 (t : tensor A) (a0 a1 a2 a3 a4 : nat) :
  shape t = [a0; a1; a2; a3; a4] ->
  torch_flatten (-3) (-1) t = Ok (mkT [a0; a1; a2 * (a3 * a4)] (data t)).
Proof.
  intros E. unfold torch_flatten, rank. rewrite E. simpl.
  rewrite Nat.mul_1_r. reflexivity.
Qed.

Lemma torch_flat_build (B n c p : nat) (g : list nat -> A) :
  torch_flatten (-3) (-1) (build [B; n; c; p; p] g)
  = Ok (build [B; n; c * (p * p)]
          (fun idx => match idx with
                      | [b; k; v] => g [b; k; v / (p * p); (v / p) mod p; v mod p]
                      | _ => d
                      end)).
Proof.
  rewrite (@torch_flatten_last3 _ B n c p p) by reflexivity.
  rewrite retag_build by (simpl; ring). f_equal.
  apply build_ext. intros idx Hidx. split_idx.
  assert (Hp : p <> 0) by (intros ->; lia).
  assert (H1 : i1 / (p * p) < c) by (apply Nat.Div0.div_lt_upper_bound; nia).
  pose proof (Nat.mod_upper_bound (i1 / p) p Hp) as H2.
  pose proof (Nat.mod_upper_bound i1 p Hp) as H3.
  rewrite (@unravel_eq [B; n; c; p; p]
             [i; i0; i1 / (p * p); (i1 / p) mod p; i1 mod p]);
    [reflexivity|range_tac; assumption|].
  simpl.
  pose proof (Nat.div_mod_eq i1 p) as E1.
  pose proof (Nat.div_mod_eq (i1 / p) p) as E2.
  assert (E3 : i1 / (p * p) = i1 / p / p) by (symmetry; apply Nat.Div0.div_div).
  rewrite E3. nia.
Qed.

Lemma torch_unflatten_build (B n c p : nat) (g : list nat -> A) :
  0 < c ->
  Torch.unflatten (build [B; n; c * (p * p)] g) c
  = Ok (build [B; n; c; p; p]
          (fun idx => match idx with
                      | [b; k; ch; dy; dx] => g [b; k; (ch * p + dy) * p + dx]
                      | _ => d
                      end)).
Proof.
  intros Hc. unfold Torch.unflatten. cbn [shape build].
  rewrite (Nat.mul_comm c (p * p)), py_floordiv_mul by assumption. cbn [bind].
  rewrite int_sqrt_square.
  rewrite (@reshape_build A _ _ [B; n; c; p; p])
    by (apply (resolve_shape_exact [B; n; c; p; p]); simpl; ring).
  f_equal. apply build_ext. intros idx Hidx. split_idx.
  rewrite (@unravel_eq [B; n; p * p * c] [i; i0; (i1 * p + i2) * p + i3]);
    [reflexivity| |simpl; ring].
  range_tac; try assumption.
  assert ((i1 * p + i2) * p + i3 < c * p * p)
    by (repeat apply horner_lt; assumption).
  lia.
Qed.
End TorchPatchFacts.

Section TorchUnpatchFacts.
Variable A : Type.
Variable d : A.

(** The list comprehension with [torch.cat], followed by [torch.stack],
    is a map over the slices of the first axis. *)
Lemma cat_each_as_map_fn (z : Z) (T : tensor A)
      (K : tensor A -> result (tensor A)) :
  bind (unstack d 0 T)
       (fun per => bind (Torch.cat_each d z per)
                     (fun mids => bind (stack d 0 mids) K))
  = bind (map_fn d (fun t => ps <- unstack d 0 t ;; tf_concat d z ps) T) K.
Proof.
  unfold map_fn, Torch.cat_each.
  destruct (unstack d 0 T); cbn [bind]; [|reflexivity].
  destruct (mapM _ _); reflexivity.
Qed.

Lemma torch_unpatch_build (B e c h w : nat) (g : list nat -> A) :
  0 < B -> 0 < e -> 0 < h -> 0 < w ->
  Torch.unpatch d (build [B; e * e; c; h; w] g) c
  = Ok (build [B; 1; c; h * e; w * e]
          (fun idx => match idx with
                      | [b; _; ch; y; x] =>
                          g [b; (y / h) * e + x / w; ch; y mod h; x mod w]
                      | _ => d
                      end)).
Proof.
  intros HB He Hh Hw. unfold Torch.unpatch.
  cbn [rank shape build length Nat.ltb Nat.leb bind].
  rewrite Nat.eqb_refl. cbn [py_assert bind]. rewrite int_sqrt_square.
  rewrite (@reshape_build A _ _ [B; e; e; c; h; w])
    by (apply (resolve_shape_exact [B; e; e; c; h; w]); simpl; ring).
  cbn [bind].
  rewrite cat_each_as_map_fn.
  erewrite (@map_fn_build A d _ B [e; e; c; h; w] [e; c; e * h; w]);
    [|assumption|].
  2:{ intros k Hk. rewrite unstack_build by (simpl; lia).
      cbn [bind nth remove_nth].
      erewrite (@tf_concat_build A d (-2) 2 e h [e; c; h; w]);
        [|reflexivity|assumption|assumption|simpl; lia|reflexivity|reflexivity].
      reflexivity. }
  cbn [bind].
  rewrite cat_each_as_map_fn.
  erewrite (@map_fn_build A d _ B [e; c; e * h; w] [c; e * h; e * w]);
    [|assumption|].
  2:{ intros k Hk. rewrite unstack_build by (simpl; lia).
      cbn [bind nth remove_nth].
      erewrite (@tf_concat_build A d (-1) 2 e w [c; e * h; w]);
        [|reflexivity|assumption|assumption|simpl; lia|reflexivity|reflexivity].
      reflexivity. }
  cbn [bind].
  rewrite (@reshape_build A _ _ [B; 1; c; h * e; w * e])
    by (apply (resolve_shape_exact [B; 1; c; h * e; w * e]); simpl; ring).
  f_equal. apply build_ext. intros idx Hidx. split_idx.
  assert (i0 = 0) by lia. subst i0.
  rewrite (@unravel_eq [B; c; e * h; e * w] [i; i1; i2; i3]);
    [|range_tac; assumption || lia|simpl; ring].
  assert (Hy : i2 / h < e) by (apply Nat.Div0.div_lt_upper_bound; lia).
  assert (Hx : i3 / w < e) by (apply Nat.Div0.div_lt_upper_bound; lia).
  pose proof (Nat.mod_upper_bound i2 h ltac:(lia)) as Hyr.
  pose proof (Nat.mod_upper_bound i3 w ltac:(lia)) as Hxr.
  cbn [hd tl nth set_nth insert_nth remove_nth].
  rewrite (@unravel_eq [B; e * e; c; h; w]
             [i; (i2 / h) * e + i3 / w; i1; i2 mod h; i3 mod w]);
    [reflexivity| |simpl; ring].
  range_tac; try assumption. apply horner_lt; assumption.
Qed.
End TorchUnpatchFacts.

Section TorchRoundTrip.
Variable A : Type.
Variable d : A.

Lemma torch_patch_squeezed (X : tensor A) (B c H W p : nat) :
  shape X = [B; 1; c; H; W] ->
  Torch.patch d X p = Torch.patch d (mkT [B; c; H; W] (data X)) p.
Proof.
  intros Hsh. unfold Torch.patch, torch_squeeze, rank. rewrite Hsh. reflexivity.
Qed.

(** PyTorch: [patch], [flatten], [unflatten] and [unpatch], on a normal
    form. *)
Lemma torch_roundtrip_build (B e c p : nat) (g : list nat -> A) :
  0 < B -> 0 < p -> 0 < e -> 0 < c ->
  (P <- Torch.patch d (build [B; c; e * p; e * p] g) p ;;
   F <- torch_flatten (-3) (-1) P ;;
   U <- Torch.unflatten F c ;;
   Torch.unpatch d U c)
  = Ok (mkT [B; 1; c; e * p; e * p] (data (build [B; c; e * p; e * p] g))).
Proof.
  intros HB Hp He Hc.
  rewrite torch_patch_build by assumption. cbn [bind].
  rewrite (torch_flat_build d). cbn [bind].
  rewrite (@torch_unflatten_build A d) by assumption. cbn [bind].
  rewrite torch_unpatch_build by assumption.
  rewrite (Nat.mul_comm p e).
  rewrite retag_build by (simpl; ring).
  f_equal. apply build_ext. intros idx Hidx. split_idx.
  assert (i0 = 0) by lia. subst i0.
  rewrite (@unravel_eq [B; c; e * p; e * p] [i; i1; i2; i3]);
    [|range_tac; assumption|simpl; ring].
  assert (Hy : i2 / p < e) by (apply Nat.Div0.div_lt_upper_bound; lia).
  assert (Hx : i3 / p < e) by (apply Nat.Div0.div_lt_upper_bound; lia).
  pose proof (Nat.mod_upper_bound i2 p ltac:(lia)) as Hyr.
  pose proof (Nat.mod_upper_bound i3 p ltac:(lia)) as Hxr.
  cbv beta iota.
  assert (Hv : (i1 * p + i2 mod p) * p + i3 mod p < c * (p * p)).
  { assert ((i1 * p + i2 mod p) * p + i3 mod p < c * p * p)
      by (repeat apply horner_lt; assumption). lia. }
  replace ((i1 * p + i2 mod p) * p + i3 mod p)
    with (i1 * (p * p) + (i2 mod p * p + i3 mod p)) by ring.
  rewrite div_horner by (apply horner_lt; assumption).
  replace (i1 * (p * p) + (i2 mod p * p + i3 mod p))
    with ((i1 * p + i2 mod p) * p + i3 mod p) by ring.
  rewrite (div_horner _ Hxr), (mod_horner _ Hxr), (mod_horner _ Hyr).
  destruct (@grid_index_roundtrip e p i2 i3) as [E1 E2]; try assumption.
  rewrite E1, E2. reflexivity.
Qed.
End TorchRoundTrip.

(** X8 (src/model/pytorch/ViT_model.py): [unpatch] undoes [patch].  For a
    channels-first square image whose side the patch size divides,
    [patch], flattening each patch, [unflatten] and [unpatch] give the
    image back with a singleton axis: shape (batch, 1, channels, s, s) and
    the very same cells. *)
Theorem torch_patch_unpatch_roundtrip
        (A : Type) (d : A) (X : tensor A) (B s c p : nat) :
  wf X -> shape X = [B; c; s; s] ->
  0 < B -> 0 < p -> 0 < s -> 0 < c -> s mod p = 0 ->
  exists P F U R,
    Torch.patch d X p = Ok P /\
    torch_flatten (-3) (-1) P = Ok F /\
    Torch.unflatten F c = Ok U /\
    Torch.unpatch d U c = Ok R /\
    shape R = [B; 1; c; s; s] /\
    data R = data X /\
    torch_squeeze 1 R = Ok X.
Proof.
  intros W Hsh HB Hp Hs Hc Hm.
  destruct (divisible_as_mul Hp Hs Hm) as [Es He].
  pose proof (@torch_roundtrip_build A d B (s / p) c p (get d X) HB Hp He Hc) as H.
  rewrite <- Es, <- Hsh, <- (tensor_as_build d W) in H.
  bind_inv H. bind_inv H. bind_inv H.
  exists v, v0, v1, (mkT [B; 1; c; s; s] (data X)).
  repeat split; try assumption.
  unfold torch_squeeze. cbn [rank shape length Nat.ltb Nat.leb nth Nat.eqb remove_nth data].
  destruct X as [sh dt]. cbn [shape data] in *. subst sh. reflexivity.
Qed.

Lemma torch_patch_unpatch_roundtrip_witness :
  exists P F U R,
    Torch.patch 0 (mkT [1; 2; 4; 4] (seq 0 32)) 2 = Ok P /\
    torch_flatten (-3) (-1) P = Ok F /\
    Torch.unflatten F 2 = Ok U /\
    Torch.unpatch 0 U 2 = Ok R /\
    shape R = [1; 1; 2; 4; 4] /\
    data R = data (mkT [1; 2; 4; 4] (seq 0 32)) /\
    torch_squeeze 1 R = Ok (mkT [1; 2; 4; 4] (seq 0 32)).
Proof.
  apply (@torch_patch_unpatch_roundtrip nat 0 (mkT [1; 2; 4; 4] (seq 0 32)) 1 4 2 2);
    [reflexivity|reflexivity|lia|lia|lia|lia|reflexivity].
Defined.

(** X9 (src/model/pytorch/ViT_model.py, [resampling]): re-sampling
    re-tiles.  Applied to the flattened patches of a channels-first square
    image at one patch size, [resampling] returns the flattened patches of
    the same image at [patch_size[1]], provided both sizes divide the
    side; [patch_size[0]] is never read. *)
Theorem torch_resampling_retiles
        (A : Type) (d : A) (X : tensor A) (B s c p0 p1 : nat) :
  wf X -> shape X = [B; c; s; s] ->
  0 < B -> 0 < s -> 0 < c -> 0 < p0 -> 0 < p1 ->
  s mod p0 = 0 -> s mod p1 = 0 ->
  exists P0 F0 P1 F1,
    Torch.patch d X p0 = Ok P0 /\ torch_flatten (-3) (-1) P0 = Ok F0 /\
    Torch.patch d X p1 = Ok P1 /\ torch_flatten (-3) (-1) P1 = Ok F1 /\
    forall first rest,
      Torch.resampling d F0 (first :: p1 :: rest) c = Ok F1.
Proof.
  intros W Hsh HB Hs Hc Hp0 Hp1 Hm0 Hm1.
  destruct (divisible_as_mul Hp0 Hs Hm0) as [Es0 He0].
  destruct (divisible_as_mul Hp1 Hs Hm1) as [Es1 He1].
  pose proof (@torch_roundtrip_build A d B (s / p0) c p0 (get d X) HB Hp0 He0 Hc) as H.
  rewrite <- Es0, <- Hsh, <- (tensor_as_build d W) in H.
  bind_inv H. bind_inv H. bind_inv H.
  assert (HP1 : exists P1 F1, Torch.patch d X p1 = Ok P1 /\
                              torch_flatten (-3) (-1) P1 = Ok F1).
  { pose proof (@torch_patch_build A d B (s / p1) (s / p1) c p1 (get d X)
                                   Hp1 He1 He1) as HP.
    rewrite <- Es1, <- Hsh, <- (tensor_as_build d W) in HP.
    eexists. eexists. split; [exact HP|]. apply (torch_flat_build d). }
  destruct HP1 as (P1 & F1 & HP1 & HF1).
  exists v, v0, P1, F1. repeat split; try assumption.
  intros first rest. unfold Torch.resampling.
  match goal with Hu : Torch.unflatten v0 c = Ok _ |- _ => rewrite Hu end.
  cbn [bind].
  match goal with Hu : Torch.unpatch d _ c = Ok _ |- _ => rewrite Hu end.
  cbn [bind py_index nth_error length Nat.ltb Nat.leb].
  rewrite (@torch_patch_squeezed A d _ B c s s p1) by reflexivity.
  cbn [data]. rewrite <- Hsh.
  replace (mkT (shape X) (data X)) with X by (destruct X; reflexivity).
  rewrite HP1. cbn [bind]. exact HF1.
Qed.

Lemma torch_resampling_retiles_witness :
  exists P0 F0 P1 F1,
    Torch.patch 0 (mkT [1; 2; 4; 4] (seq 0 32)) 2 = Ok P0 /\
    torch_flatten (-3) (-1) P0 = Ok F0 /\
    Torch.patch 0 (mkT [1; 2; 4; 4] (seq 0 32)) 1 = Ok P1 /\
    torch_flatten (-3) (-1) P1 = Ok F1 /\
    forall first rest,
      Torch.resampling 0 F0 (first :: 1 :: rest) 2 = Ok F1.
Proof.
  apply (@torch_resampling_retiles nat 0 (mkT [1; 2; 4; 4] (seq 0 32)) 1 4 2 2 1);
    [reflexivity|reflexivity|lia|lia|lia|lia|lia|reflexivity|reflexivity].
Defined.

(** ** [resampling] of src/model/tf/ViT_model.py *)

Section ModelTfResampling.
Variable A : Type.
Variable d : A.

Lemma modeltf_unflatten_is_hvit (t : tensor A) (b n p c : nat) :
  shape t = [b; n; p] -> ModelTf.unflatten t c = Hvit.unflatten t c.
Proof.
  intros H. unfold ModelTf.unflatten, Hvit.unflatten. rewrite H. reflexivity.
Qed.

Lemma reshape_keeps (t : tensor A) (b n m : nat) :
  shape t = [b; n; m] -> 0 < n -> 0 < m ->
  reshape [None; Some n; Some m] t = Ok t.
Proof.
  intros H Hn Hm. unfold reshape. rewrite H.
  replace (numel [b; n; m]) with (b * numel [n; m]) by (simpl; ring).
  change [None; Some n; Some m] with (None :: map Some [n; m]).
  rewrite (resolve_shape_head b [n; m]) by (simpl; nia).
  cbn [bind]. rewrite <- H. destruct t; reflexivity.
Qed.

(** The [Patches] layer, [unflatten], [unpatch] and the squeeze, on a
    normal form. *)
Lemma patches_layer_roundtrip_build (B e c p : nat) (g : list nat -> A) :
  0 < B -> 0 < p -> 0 < e -> 0 < c ->
  (P <- ModelTf.Patches_call d p (build [B; e * p; e * p; c] g) ;;
   U <- ModelTf.unflatten P c ;;
   R <- ModelTf.unpatch d U c ;;
   tf_squeeze 1 R)
  = Ok (build [B; e * p; e * p; c] g).
Proof.
  intros HB Hp He Hc.
  rewrite <- (hvit_roundtrip_build d B g Hp He Hc).
  rewrite (@patches_call_build A d _ B (e * p) (e * p) c p)
    by (reflexivity || assumption).
  rewrite (@hvit_patches_any_square A d _ B (e * p) c p)
    by (reflexivity || assumption || nia).
  cbn [bind].
  rewrite (@modeltf_unflatten_is_hvit _ B (e * p / p * (e * p / p)) (p * p * c))
    by reflexivity.
  destruct (Hvit.unflatten _ c) as [U|err] eqn:HU; [|reflexivity].
  cbn [bind]. rewrite modeltf_unpatch_is_hvit; [reflexivity|].
  rewrite Nat.div_mul in HU by lia.
  rewrite (@hvit_unflatten_build A d) in HU by (assumption || nia).
  injection HU as <-. reflexivity.
Qed.
End ModelTfResampling.

(** X10 (src/model/tf/ViT_model.py, [resampling]): the new patch size is
    taken as [int(sqrt(projection_dim[1]))], without the channel count.
    Whenever that root is the intended patch size [p1] (so for every
    single-channel image), [resampling] applied to the [Patches] of a
    square image at one patch size returns its [Patches] at [p1]; the
    first entries of [num_patches] and [projection_dim] are not read. *)
Theorem modeltf_resampling_retiles
        (A : Type) (d : A) (X : tensor A) (B s c p0 p1 : nat) :
  wf X -> shape X = [B; s; s; c] ->
  0 < B -> 0 < s -> 0 < c -> 0 < p0 -> 0 < p1 ->
  s mod p0 = 0 -> s mod p1 = 0 ->
  int_sqrt (p1 * p1 * c) = p1 ->
  exists P0 P1,
    ModelTf.Patches_call d p0 X = Ok P0 /\
    ModelTf.Patches_call d p1 X = Ok P1 /\
    forall n0 nrest pd0 pdrest,
      ModelTf.resampling d P0 (n0 :: (s / p1) * (s / p1) :: nrest)
                         (pd0 :: p1 * p1 * c :: pdrest) c = Ok P1.
Proof.
  intros W Hsh HB Hs Hc Hp0 Hp1 Hm0 Hm1 Hroot.
  destruct (divisible_as_mul Hp0 Hs Hm0) as [Es0 He0].
  destruct (divisible_as_mul Hp1 Hs Hm1) as [Es1 He1].
  pose proof (@patches_layer_roundtrip_build A d B (s / p0) c p0 (get d X)
                HB Hp0 He0 Hc) as H.
  rewrite <- Es0, <- Hsh, <- (tensor_as_build d W) in H.
  pose proof (@patches_call_build A d X B s s c p1 Hsh HB Hp1 Hc) as HP1.
  bind_inv H. eexists. eexists.
  split; [eassumption|]. split; [exact HP1|].
  intros n0 nrest pd0 pdrest. unfold ModelTf.resampling.
  cbn [py_index nth_error bind]. rewrite Hroot.
  bind_inv H. rewrite E0. cbn [bind].
  bind_inv H. rewrite E1. cbn [bind].
  rewrite H. cbn [bind]. rewrite HP1. cbn [bind].
  apply (@reshape_keeps A _ B); [reflexivity|nia|nia].
Qed.

Lemma modeltf_resampling_retiles_witness :
  exists P0 P1,
    ModelTf.Patches_call 0 1 img_4x4x2 = Ok P0 /\
    ModelTf.Patches_call 0 2 img_4x4x2 = Ok P1 /\
    forall n0 nrest pd0 pdrest,
      ModelTf.resampling 0 P0 (n0 :: (4 / 2) * (4 / 2) :: nrest)
                         (pd0 :: 2 * 2 * 2 :: pdrest) 2 = Ok P1.
Proof.
  apply (@modeltf_resampling_retiles nat 0 img_4x4x2 1 4 2 1 2);
    [reflexivity|reflexivity|lia|lia|lia|lia|lia|reflexivity|reflexivity
    |reflexivity].
Defined.

(** ** hvit [Resampling.__init__]: the patch grid *)

Lemma mapM_squares_error (img_size : Z) (e : exn) : forall patch_size,
  mapM (fun patch => q <- py_floordivZ img_size patch ;; Ok (q ^ 2)%Z) patch_size
  = Error e -> e = ZeroDivisionError.
Proof.
  induction patch_size as [|p l IH]; cbn [mapM]; [discriminate|].
  unfold py_floordivZ at 1. destruct (p =? 0)%Z; cbn [bind]; [congruence|].
  destruct (mapM _ l) as [ys|e']; cbn [bind]; [discriminate|].
  intros [= <-]. apply IH. reflexivity.
Qed.

Lemma resampling_type_checked (resampling_type : string) :
  In resampling_type ["max"; "standard"; "conv"]%string ->
  py_assert (existsb (String.eqb resampling_type) ["max"; "standard"; "conv"]%string)
            Hvit.msg_resampling_type = Ok tt.
Proof.
  intros [<-|[<-|[<-|[]]]]; reflexivity.
Qed.

Lemma resampling_grid_oversized (img_size p0 p1 : Z) (rest : list Z) :
  (0 <= img_size < p1)%Z ->
  Hvit.Resampling_grid img_size (p0 :: p1 :: rest) = Error ZeroDivisionError.
Proof.
  intros H. unfold Hvit.Resampling_grid. cbn [mapM].
  unfold py_floordivZ at 1. destruct (p0 =? 0)%Z; cbn [bind]; [reflexivity|].
  unfold py_floordivZ at 1. destruct (Z.eqb_spec p1 0); [lia|]. cbn [bind].
  rewrite Z.div_small by assumption.
  destruct (mapM _ rest) as [ys|e] eqn:E; cbn [bind].
  - cbn [py_index nth_error bind]. reflexivity.
  - apply mapM_squares_error in E. subst e. reflexivity.
Qed.

(** X11 (src/hvit/tf/functions.py, [Resampling.__init__]): the
    constructor does not check the patch sizes against the image size.
    With an accepted [resampling_type] and a second patch size larger than
    a non-negative [img_size], [num_patches[1]] is 0 and the constructor
    stops at [pool_size] with a [ZeroDivisionError], whatever the other
    arguments are; no assertion fails. *)
Theorem resampling_init_oversized_patch
        (img_size p0 p1 : Z) (rest : list Z) (num_channels : Z)
        (projection_dim : option Z) (resampling_type : string) :
  In resampling_type ["max"; "standard"; "conv"]%string ->
  (0 <= img_size < p1)%Z ->
  Hvit.Resampling_init img_size (p0 :: p1 :: rest) num_channels projection_dim
                       resampling_type
  = Error ZeroDivisionError.
Proof.
  intros Hty H. unfold Hvit.Resampling_init, Hvit.Resampling_attributes.
  rewrite (resampling_type_checked Hty). cbn [bind].
  rewrite resampling_grid_oversized by assumption. reflexivity.
Qed.

Lemma resampling_init_oversized_patch_witness :
  Hvit.Resampling_init 8 [8; 16]%Z 1 (Some 256%Z) "conv" = Error ZeroDivisionError.
Proof.
  apply (@resampling_init_oversized_patch 8 8 16 [] 1 (Some 256%Z) "conv").
  - right. right. left. reflexivity.
  - lia.
Defined.

(** X12 (src/hvit/tf/functions.py, [Resampling.__init__]): [patch_size]
    must hold two sizes.  With an accepted [resampling_type] and fewer
    than two patch sizes, none of them zero, the constructor raises an
    [IndexError] when it reads [num_patches[0]] or [num_patches[1]]. *)
Theorem resampling_init_short_patch_list
        (img_size : Z) (patch_size : list Z) (num_channels : Z)
        (projection_dim : option Z) (resampling_type : string) :
  In resampling_type ["max"; "standard"; "conv"]%string ->
  Forall (fun p => p <> 0%Z) patch_size ->
  length patch_size < 2 ->
  Hvit.Resampling_init img_size patch_size num_channels projection_dim
                       resampling_type
  = Error IndexError.
Proof.
  intros Hty Hnz Hlen. unfold Hvit.Resampling_init, Hvit.Resampling_attributes.
  rewrite (resampling_type_checked Hty). cbn [bind].
  unfold Hvit.Resampling_grid. rewrite (mapM_squares_ok _ Hnz). cbn [bind].
  destruct patch_size as [|a [|b l]]; cbn [length] in Hlen; [| |lia];
    reflexivity.
Qed.

Lemma resampling_init_short_patch_list_witness :
  Hvit.Resampling_init 128 [8]%Z 1 None "standard" = Error IndexError.
Proof.
  apply (@resampling_init_short_patch_list 128 [8]%Z 1 None "standard").
  - right. left. reflexivity.
  - repeat constructor; discriminate.
  - simpl. lia.
Defined.

(** X13 (src/hvit/tf/functions.py, [Resampling.__init__]): the attributes
    of a default ['conv'] layer.  With no [projection_dim], patch sizes
    that are not zero and below [2 ** 26] in absolute value, a non-zero
    [num_patches[1]] and a non-zero channel count, the statements of
    [__init__] up to [self.ps] run through: [num_patches] holds
    [(img_size // p) ** 2], the projection dimensions are
    [num_channels * p ** 2], and the patch sides [ps] recovered from them
    by [int(np.sqrt(.))] are the absolute values of the patch sizes.  The
    layer objects are built after these statements. *)
Theorem resampling_attributes_default_conv
        (img_size p0 p1 : Z) (rest : list Z) (num_channels : Z) :
  Forall (fun p => p <> 0%Z /\ (p ^ 2 < 2 ^ 52)%Z) (p0 :: p1 :: rest) ->
  (img_size / p1 <> 0)%Z -> num_channels <> 0%Z ->
  Hvit.Resampling_attributes img_size (p0 :: p1 :: rest) num_channels None "conv"
  = Ok (Hvit.mkResampling img_size (p0 :: p1 :: rest)
          (map (fun p => (img_size / p) ^ 2)%Z (p0 :: p1 :: rest))
          ((img_size / p0) ^ 2 / (img_size / p1) ^ 2)%Z
          num_channels "conv"
          (map (fun p => num_channels * p ^ 2)%Z (p0 :: p1 :: rest))
          (Some (map Z.abs (p0 :: p1 :: rest)))).
Proof.
  intros Hall Hq Hc.
  assert (Hnz : Forall (fun p => p <> 0%Z) (p0 :: p1 :: rest))
    by (eapply Forall_impl; [|exact Hall]; intros p [H _]; exact H).
  assert (Hb : Forall (fun p => (p ^ 2 < 2 ^ 52)%Z) (p0 :: p1 :: rest))
    by (eapply Forall_impl; [|exact Hall]; intros p [_ H]; exact H).
  unfold Hvit.Resampling_attributes.
  cbn [existsb String.eqb Ascii.eqb Bool.eqb orb py_assert bind].
  unfold Hvit.Resampling_grid. rewrite (mapM_squares_ok _ Hnz).
  cbn [bind map py_index nth_error]. unfold py_floordivZ.
  destruct (Z.eqb_spec ((img_size / p1) ^ 2) 0) as [E|_]; [nia|].
  cbn [bind py_assert].
  rewrite (patch_sides_default Hc Hb). reflexivity.
Qed.

Lemma resampling_attributes_default_conv_witness :
  Hvit.Resampling_attributes 128 [8; 16]%Z 1 None "conv"
  = Ok (Hvit.mkResampling 128 [8; 16]%Z
          (map (fun p => (128 / p) ^ 2)%Z [8; 16]%Z)
          ((128 / 8) ^ 2 / (128 / 16) ^ 2)%Z
          1 "conv"
          (map (fun p => 1 * p ^ 2)%Z [8; 16]%Z)
          (Some (map Z.abs [8; 16]%Z))).
Proof.
  apply (@resampling_attributes_default_conv 128 8 16 [] 1).
  - repeat constructor; (discriminate || reflexivity).
  - discriminate.
  - discriminate.
Defined.

(** ** hvit [Resampling.call], the 'standard' branch *)

Section ResamplingStandard.
Variable A : Type.
Variable d : A.
Variable add mul : A -> A -> A.

Lemma encode_positions_ok (t : tensor A) (B n m u : nat)
      (kernel : nat -> nat -> A) (bias : nat -> A) (table : nat -> nat -> A) :
  shape t = [B; n; m] ->
  exists r,
    (y <- keras_dense d add mul u kernel bias t ;;
     e <- embedding n u table (seq 0 n) ;;
     tensor_add d add y e) = Ok r
    /\ shape r = [B; n; u].
Proof.
  intros Hst. unfold keras_dense, rank. rewrite Hst.
  cbn [length Nat.ltb Nat.leb bind]. unfold embedding.
  rewrite forallb_ltb_seq. cbn [bind]. unfold tensor_add, affine_last.
  rewrite Hst. cbn [shape build removelast app rev length_seq].
  rewrite length_seq. cbn [broadcast_rev].
  rewrite !Nat.eqb_refl. cbn [orb option_map].
  eexists. split; reflexivity.
Qed.

Lemma standard_init_attributes (s p0 p1 c : nat) (projection_dim : option nat) :
  0 < p0 -> 0 < p1 -> p1 <= s -> 0 < c -> projection_dim <> Some 0 ->
  Hvit.Resampling_init (Z.of_nat s) [Z.of_nat p0; Z.of_nat p1] (Z.of_nat c)
                       (option_map Z.of_nat projection_dim) "standard"
  = Ok (Hvit.mkResampling (Z.of_nat s) [Z.of_nat p0; Z.of_nat p1]
          [Z.of_nat ((s / p0) ^ 2); Z.of_nat ((s / p1) ^ 2)]
          (Z.of_nat ((s / p0) ^ 2 / (s / p1) ^ 2))
          (Z.of_nat c) "standard"
          [Z.of_nat (match projection_dim with
                     | Some v => v
                     | None => c * p0 ^ 2
                     end);
           Z.of_nat (match projection_dim with
                     | Some v => v
                     | None => c * p1 ^ 2
                     end)]
          None).
Proof.
  intros Hp0 Hp1 Hle Hc Hpd.
  unfold Hvit.Resampling_init, Hvit.Resampling_attributes.
  cbn [existsb String.eqb Ascii.eqb Bool.eqb orb py_assert bind].
  unfold Hvit.Resampling_grid.
  rewrite mapM_squares_ok by (repeat constructor; lia).
  cbn [bind map py_index nth_error]. unfold py_floordivZ.
  assert (Hq : 0 < s / p1) by (apply Nat.div_str_pos; lia).
  assert (E0 : ((Z.of_nat s / Z.of_nat p0) ^ 2 = Z.of_nat ((s / p0) ^ 2))%Z).
  { rewrite Nat2Z.inj_pow, Nat2Z.inj_div. reflexivity. }
  assert (E1 : ((Z.of_nat s / Z.of_nat p1) ^ 2 = Z.of_nat ((s / p1) ^ 2))%Z).
  { rewrite Nat2Z.inj_pow, Nat2Z.inj_div. reflexivity. }
  rewrite E0, E1.
  destruct (Z.eqb_spec (Z.of_nat ((s / p1) ^ 2)) 0) as [E|_].
  { assert ((s / p1) ^ 2 = 0) by lia. simpl in *. nia. }
  cbn [bind]. rewrite <- Nat2Z.inj_div.
  unfold Hvit.default_projection. cbn [map].
  set (u0 := match projection_dim with Some v => v | None => c * p0 ^ 2 end).
  set (u1 := match projection_dim with Some v => v | None => c * p1 ^ 2 end).
  assert (E : forall p,
             match option_map Z.of_nat projection_dim with
             | Some v => v
             | None => (Z.of_nat c * Z.of_nat p ^ 2)%Z
             end
             = Z.of_nat match projection_dim with
                        | Some v => v
                        | None => c * p ^ 2
                        end).
  { intros p. destruct projection_dim as [v|]; cbn [option_map]; [reflexivity|].
    rewrite Nat2Z.inj_mul, Nat2Z.inj_pow. reflexivity. }
  rewrite !E. fold u0 u1.
  assert (Hu1 : 0 < u1).
  { unfold u1. destruct projection_dim as [v|].
    - destruct v; [congruence|lia].
    - simpl. nia. }
  assert (Hn1 : 0 < (s / p1) ^ 2) by (simpl; nia).
  unfold Hvit.Resampling_layers.
  cbn [Hvit.rs_resampling_type Hvit.rs_num_patches Hvit.rs_projection_dim
       String.eqb Ascii.eqb Bool.eqb Hvit.py_lastZ last bind].
  unfold Hvit.keras_Embedding, Hvit.keras_Dense, Hvit.keras_sizes.
  cbn [forallb andb].
  destruct (Z.ltb_spec 0 (Z.of_nat ((s / p1) ^ 2))); [|lia].
  destruct (Z.ltb_spec 0 (Z.of_nat u1)); [|lia].
  reflexivity.
Qed.
End ResamplingStandard.

(** X15 (src/hvit/tf/functions.py, [Resampling] with
    [resampling_type='standard'] against [PatchEncoder]): re-sampling the
    patches of an image from patch size [p0] to [p1] is encoding the image
    at [p1].  On a square image whose side both sizes divide, [call] on
    the [p0]-patches returns what the [PatchEncoder] of patch size [p1]
    with the same dense and embedding weights returns on the image. *)
Theorem hvit_resampling_standard_is_patch_encoder
        (A : Type) (d : A) (add mul : A -> A -> A)
        (X : tensor A) (B s c p0 p1 : nat) (projection_dim : option nat)
        (kernel : nat -> nat -> A) (bias : nat -> A) (table : nat -> nat -> A) :
  wf X -> shape X = [B; s; s; c] ->
  0 < s -> 0 < c -> 0 < p0 -> 0 < p1 -> s mod p0 = 0 -> s mod p1 = 0 ->
  projection_dim <> Some 0 ->
  exists r P0 enc out,
    Hvit.Resampling_init (Z.of_nat s) [Z.of_nat p0; Z.of_nat p1] (Z.of_nat c)
                         (option_map Z.of_nat projection_dim) "standard" = Ok r /\
    Hvit.patches d X p0 = Ok P0 /\
    Hvit.PatchEncoder_init s p1 c projection_dim kernel bias table = Ok enc /\
    Hvit.PatchEncoder_call d add mul enc X = Ok out /\
    forall maxpool conv,
      Hvit.Resampling_call d add mul
        (Hvit.Resampling_layer r maxpool conv kernel bias table) P0
      = Ok (Some out).
Proof.
  intros W Hsh Hs Hc Hp0 Hp1 Hm0 Hm1 Hpd.
  destruct (divisible_as_mul Hp0 Hs Hm0) as [Es0 He0].
  destruct (divisible_as_mul Hp1 Hs Hm1) as [Es1 He1].
  assert (Hle : p1 <= s) by nia.
  destruct (hvit_patches_floor d X Hsh Hp1 Hle Hc) as [P1 [HP1 Hst]].
  pose proof (@hvit_roundtrip_build A d B (s / p0) c p0 (get d X) Hp0 He0 Hc) as H.
  rewrite <- Es0, <- Hsh, <- (tensor_as_build d W) in H.
  bind_inv H. bind_inv H. bind_inv H.
  destruct (@encode_positions_ok A d add mul P1 B ((s / p1) ^ 2) (p1 * p1 * c)
              (match projection_dim with Some v => v | None => c * p1 ^ 2 end)
              kernel bias table Hst) as [out [Hout _]].
  eexists. exists v. eexists. exists out.
  split; [apply standard_init_attributes; assumption|].
  split; [assumption|].
  unfold Hvit.PatchEncoder_init, py_floordiv.
  destruct (Nat.eqb_spec p1 0); [lia|]. cbn [bind].
  split; [reflexivity|].
  assert (Hcall : forall self,
            Hvit.pe_patch_size self = p1 ->
            Hvit.pe_num_patches self = (s / p1) ^ 2 ->
            Hvit.pe_projection_dim self
            = match projection_dim with Some v => v | None => c * p1 ^ 2 end ->
            Hvit.pe_kernel self = kernel -> Hvit.pe_bias self = bias ->
            Hvit.pe_table self = table ->
            Hvit.PatchEncoder_call d add mul self X = Ok out).
  { intros self E1' E2' E3' E4' E5' E6'. unfold Hvit.PatchEncoder_call.
    rewrite E1', E2', E3', E4', E5', E6', HP1. cbn [bind]. exact Hout. }
  split; [apply Hcall; reflexivity|].
  intros maxpool conv. unfold Hvit.Resampling_call, Hvit.Resampling_layer.
  cbn [Hvit.rl_resampling_type Hvit.rs_resampling_type
       String.eqb Ascii.eqb Bool.eqb
       Hvit.rl_img_size Hvit.rl_patch_size Hvit.rl_num_channels
       Hvit.rs_img_size Hvit.rs_patch_size Hvit.rs_num_channels map].
  rewrite !Nat2Z.id. unfold Hvit.resampling.
  match goal with Hu : Hvit.unflatten v c = Ok _ |- _ => rewrite Hu end.
  cbn [bind].
  match goal with Hu : Hvit.unpatch d _ c = Ok _ |- _ => rewrite Hu end.
  cbn [bind]. rewrite H. cbn [bind]. rewrite HP1. cbn [bind].
  unfold Hvit.Resampling_encode.
  cbn [Hvit.rl_units Hvit.rl_kernel Hvit.rl_bias Hvit.rl_positions
       Hvit.rl_input_dim Hvit.rl_output_dim Hvit.rl_table
       Hvit.rs_num_patches Hvit.rs_projection_dim last].
  rewrite !Nat2Z.id. rewrite Hout. reflexivity.
Qed.

Lemma hvit_resampling_standard_is_patch_encoder_witness :
  exists r P0 enc out,
    Hvit.Resampling_init (Z.of_nat 4) [Z.of_nat 1; Z.of_nat 2] (Z.of_nat 1)
                         (option_map Z.of_nat None) "standard" = Ok r /\
    Hvit.patches 0%Z img_4x4x1 1 = Ok P0 /\
    Hvit.PatchEncoder_init 4 2 1 None (fun _ _ => 1%Z) (fun _ => 0%Z)
                           (fun k j => Z.of_nat (k + j)) = Ok enc /\
    Hvit.PatchEncoder_call 0%Z Z.add Z.mul enc img_4x4x1 = Ok out /\
    forall maxpool conv,
      Hvit.Resampling_call 0%Z Z.add Z.mul
        (Hvit.Resampling_layer r maxpool conv (fun _ _ => 1%Z) (fun _ => 0%Z)
           (fun k j => Z.of_nat (k + j))) P0
      = Ok (Some out).
Proof.
  apply (@hvit_resampling_standard_is_patch_encoder Z 0%Z Z.add Z.mul
           img_4x4x1 1 4 1 1 2 None);
    [reflexivity|reflexivity|lia|lia|lia|lia|reflexivity|reflexivity
    |discriminate].
Defined.
